(** * gfg_langchain_falcon: fetch, extract, normalise, validate, persist

    A shallow embedding of [src/gfg_langchain_falcon.py].

    Python [str] values are sequences of Unicode code points; they are
    modelled as lists of [N].  The outside world (HTTP server, HTML parser,
    language-model chain) is a record of oracles, the file system is a finite
    map from paths to files, and exceptions are the [Raises] branch of
    [outcome].

    The library calls the program makes are modelled next to it: the
    selectors and text methods of BeautifulSoup on a document tree, the four
    counter patterns and the brace pattern of [re], [json.loads] and
    [json.dumps], and the validation that pydantic runs for [GFGProfile].

    Left out: the [print] calls, the start-up check of the API token, the
    interpreter's limits (recursion depth, the cap on the digits of an
    [int]), errors of the operating system on the output path, and the
    arithmetic of floats, which the program never uses: a float is the
    literal it was read from, and is written back as that literal. *)

From Stdlib Require Import ZArith NArith Ascii String.
From Stdlib Require DecimalFacts DecimalPos DecimalZ.
From stdpp Require Import gmap list.

Local Open Scope N_scope.

(** ** Python strings *)

Module Str.

Definition char := N.
Abbreviation str := (list N).

(** Code points of an ASCII literal. *)
Definition of_string (s : string) : str :=
  map N_of_ascii (list_ascii_of_string s).

(** A literal in which each apostrophe stands for a double quote, used to
    write JSON texts. *)
Definition quoted (s : string) : str :=
  map (fun c => if c =? 39 then 34 else c) (of_string s).

Definition eqb (a b : str) : bool := bool_decide (a = b).

(** [str.isspace] for one character, which is also the class [\s] of [re]
    on [str] patterns and the set removed by [str.strip()]. *)
Definition isspace (c : char) : bool :=
  ((9 <=? c) && (c <=? 13)) || ((28 <=? c) && (c <=? 32))
  || (c =? 133) || (c =? 160) || (c =? 5760)
  || ((8192 <=? c) && (c <=? 8202))
  || (c =? 8232) || (c =? 8233) || (c =? 8239) || (c =? 8287) || (c =? 12288).

Definition isdigit (c : char) : bool := (48 <=? c) && (c <=? 57).

Fixpoint lstrip (s : str) : str :=
  match s with
  | c :: t => if isspace c then lstrip t else s
  | [] => []
  end.

(** [s.strip()] *)
Definition strip (s : str) : str := rev (lstrip (rev (lstrip s))).

(** [sep.join(parts)] *)
Fixpoint join (sep : str) (parts : list str) : str :=
  match parts with
  | [] => []
  | [p] => p
  | p :: ps => p ++ sep ++ join sep ps
  end.

(** [s.replace(c, "")] for a one-character [c]. *)
Definition remove_char (c : char) (s : str) : str :=
  filter (fun x => x <> c) s.

End Str.

Import Str.

(** ** Exceptions and outcomes *)

(** The exceptions the program can end with.  [JSONDecodeError] is a subclass
    of [ValueError] in Python; it is kept apart because it carries a
    different message. *)
Inductive exn :=
| RequestException
| ChainException
| ValueError (msg : str)
| JSONDecodeError
| TypeError
| ValidationError
| FileNotFoundError
| UnicodeEncodeError.

Inductive outcome (A : Type) :=
| Returns (a : A)
| Raises (e : exn).
Arguments Returns {A} a.
Arguments Raises {A} e.

#[global] Instance outcome_ret : MRet outcome := @Returns.

#[global] Instance outcome_bind : MBind outcome := fun A B k m =>
  match m with
  | Returns a => k a
  | Raises e => Raises e
  end.

#[global] Instance outcome_fmap : FMap outcome := fun A B f m =>
  match m with
  | Returns a => Returns (f a)
  | Raises e => Raises e
  end.

(** ** JSON values, as built by [json.loads] *)

(** A Python [dict] is an association list in insertion order.  A float is
    kept as the literal it was read from; the program never computes with
    one. *)
Inductive json :=
| JNull
| JBool (b : bool)
| JInt (z : Z)
| JFloat (lit : str)
| JStr (s : str)
| JArr (l : list json)
| JObj (m : list (str * json)).

Abbreviation pydict := (list (str * json)).

(** [d.get(k)] *)
Fixpoint dict_get (k : str) (d : pydict) : option json :=
  match d with
  | [] => None
  | (k', v) :: d' => if Str.eqb k k' then Some v else dict_get k d'
  end.

(** [d[k] = v]: replace in place, or append. *)
Fixpoint dict_set (k : str) (v : json) (d : pydict) : pydict :=
  match d with
  | [] => [(k, v)]
  | (k', v') :: d' =>
      if Str.eqb k k' then (k', v) :: d' else (k', v') :: dict_set k v d'
  end.

(** The mapping without the key [k], the other entries in their order. *)
Definition dict_remove (k : str) (d : pydict) : pydict :=
  filter (fun kv => kv.1 <> k) d.

(** ** Step 1: the schema *)

Module Field.
Definition username : str := Eval vm_compute in of_string "username".
Definition display_name : str := Eval vm_compute in of_string "display_name".
Definition about : str := Eval vm_compute in of_string "about".
Definition reputation : str := Eval vm_compute in of_string "reputation".
Definition followers : str := Eval vm_compute in of_string "followers".
Definition following : str := Eval vm_compute in of_string "following".
Definition problems_solved : str := Eval vm_compute in of_string "problems_solved".
Definition articles_count : str := Eval vm_compute in of_string "articles_count".
Definition badges : str := Eval vm_compute in of_string "badges".
Definition top_skills : str := Eval vm_compute in of_string "top_skills".
Definition raw_extracted : str := Eval vm_compute in of_string "raw_extracted".

(** The fields of [GFGProfile], in declaration order. *)
Definition all : list str :=
  [username; display_name; about; reputation; followers; following;
   problems_solved; articles_count; badges; top_skills; raw_extracted].

Definition numeric : list str :=
  [followers; following; problems_solved; articles_count].

Definition lists : list str := [badges; top_skills].
End Field.

(** [class GFGProfile(BaseModel)] *)
Record GFGProfile := {
  username : str;
  display_name : option str;
  about : option str;
  reputation : option str;
  followers : option Z;
  following : option Z;
  problems_solved : option Z;
  articles_count : option Z;
  badges : list str;
  top_skills : list str;
  raw_extracted : pydict
}.

(** pydantic validates in lax mode: a value of the annotated type is taken
    as it is, and a value of another JSON type may be converted (digit
    strings, whole floats and booleans to [int]; numbers to [str] under
    pydantic 1; pair lists to [dict] under pydantic 1).  Which conversions
    exist depends on the pydantic version, so they are a parameter; [exact]
    has none. *)
Record lax := {
  lax_str : json -> option str;
  lax_int : json -> option Z;
  lax_dict : json -> option pydict
}.

Definition exact : lax :=
  {| lax_str := fun _ => None; lax_int := fun _ => None;
     lax_dict := fun _ => None |}.

Section Validation.
Variable L : lax.

(** [str] *)
Definition val_str (v : json) : option str :=
  match v with
  | JStr s => Some s
  | _ => lax_str L v
  end.

(** [str | None] *)
Definition val_opt_str (v : json) : option (option str) :=
  match v with
  | JNull => Some None
  | _ => Some <$> val_str v
  end.

(** [int | None]: there is no bound on the integer. *)
Definition val_opt_int (v : json) : option (option Z) :=
  match v with
  | JNull => Some None
  | JInt z => Some (Some z)
  | _ => Some <$> lax_int L v
  end.

(** [list[str]] *)
Definition val_list_str (v : json) : option (list str) :=
  match v with
  | JArr l => mapM val_str l
  | _ => None
  end.

(** [dict] *)
Definition val_dict (v : json) : option pydict :=
  match v with
  | JObj m => Some m
  | _ => lax_dict L v
  end.

(** A field with a default: the default when the keyword is absent. *)
Definition field {A} (val : json -> option A) (default : A)
    (k : str) (kw : pydict) : option A :=
  match dict_get k kw with
  | None => Some default
  | Some v => val v
  end.

(** The field validators run by [GFGProfile] on its keywords.  Keywords that
    name no field are not looked at: the model sets no [extra] option, and
    pydantic's default is to ignore them. *)
Definition validate (kw : pydict) : option GFGProfile :=
  u ← dict_get Field.username kw ≫= val_str;
  dn ← field val_opt_str None Field.display_name kw;
  ab ← field val_opt_str None Field.about kw;
  rp ← field val_opt_str None Field.reputation kw;
  fr ← field val_opt_int None Field.followers kw;
  fg ← field val_opt_int None Field.following kw;
  ps ← field val_opt_int None Field.problems_solved kw;
  ac ← field val_opt_int None Field.articles_count kw;
  bd ← field val_list_str [] Field.badges kw;
  ts ← field val_list_str [] Field.top_skills kw;
  re ← field val_dict [] Field.raw_extracted kw;
  Some {| username := u; display_name := dn; about := ab; reputation := rp;
          followers := fr; following := fg; problems_solved := ps;
          articles_count := ac; badges := bd; top_skills := ts;
          raw_extracted := re |}.

(** [GFGProfile] called with [parsed] unpacked as keywords: unpacking needs
    a mapping. *)
Definition GFGProfile_new (parsed : json) : outcome GFGProfile :=
  match parsed with
  | JObj kw =>
      match validate kw with
      | Some p => Returns p
      | None => Raises ValidationError
      end
  | _ => Raises TypeError
  end.
End Validation.

Definition json_opt {A} (f : A -> json) (o : option A) : json :=
  match o with
  | Some a => f a
  | None => JNull
  end.

(** [profile.dict()] *)
Definition to_dict (p : GFGProfile) : pydict :=
  [ (Field.username, JStr (username p));
    (Field.display_name, json_opt JStr (display_name p));
    (Field.about, json_opt JStr (about p));
    (Field.reputation, json_opt JStr (reputation p));
    (Field.followers, json_opt JInt (followers p));
    (Field.following, json_opt JInt (following p));
    (Field.problems_solved, json_opt JInt (problems_solved p));
    (Field.articles_count, json_opt JInt (articles_count p));
    (Field.badges, JArr (JStr <$> badges p));
    (Field.top_skills, JArr (JStr <$> top_skills p));
    (Field.raw_extracted, JObj (raw_extracted p)) ].

(** The declared type of each field, as a test on a JSON value; a key that
    names no field passes. *)
Definition is_str (v : json) : bool := match v with JStr _ => true | _ => false end.
Definition is_null (v : json) : bool := match v with JNull => true | _ => false end.
Definition is_int (v : json) : bool := match v with JInt _ => true | _ => false end.
Definition is_str_list (v : json) : bool :=
  match v with JArr l => forallb is_str l | _ => false end.
Definition is_dict (v : json) : bool := match v with JObj _ => true | _ => false end.

Definition has_field_type (k : str) (v : json) : bool :=
  if Str.eqb k Field.username then is_str v
  else if bool_decide (k ∈ [Field.display_name; Field.about; Field.reputation])
  then is_null v || is_str v
  else if bool_decide (k ∈ Field.numeric) then is_null v || is_int v
  else if bool_decide (k ∈ Field.lists) then is_str_list v
  else if Str.eqb k Field.raw_extracted then is_dict v
  else true.

(** A mapping conforms to the schema when it has the required [username]
    and every field it gives has a value of the field's declared type. *)
Definition conforms (kw : pydict) : Prop :=
  is_Some (dict_get Field.username kw)
  /\ forall k v, dict_get k kw = Some v -> has_field_type k v = true.

(** [conforms], as a test. *)
Definition conforms_check (kw : pydict) : bool :=
  bool_decide (is_Some (dict_get Field.username kw))
  && forallb (fun kv => has_field_type kv.1 kv.2) kw.

(** How the entry of a counter in the validated result follows from the
    entry given in the response: a missing or null entry gives null, an
    integer is kept whatever its sign, anything else is converted. *)
Definition counter_kept (L : lax) (given got : option json) : Prop :=
  match given with
  | None | Some JNull => got = Some JNull
  | Some (JInt z) => got = Some (JInt z)
  | Some v => exists z, lax_int L v = Some z /\ got = Some (JInt z)
  end.

(** ** Step 2: scraping *)

(** What [requests.get] returns, as far as the program reads it. *)
Record response := { status_code : Z; text : str }.

(** The document tree that [BeautifulSoup(html, "html.parser")] builds, as
    far as the program looks at it: tags with their name and the values of
    their [class] attribute, and the strings that [get_text] returns. *)
Inductive node :=
| Text (s : str)
| Tag (name : str) (classes : list str) (children : list node).

Abbreviation soup := (list node).

(** The strings below a node, in document order. *)
Fixpoint strings (n : node) : list str :=
  match n with
  | Text s => [s]
  | Tag _ _ cs => flat_map strings cs
  end.

(** [get_text(separator=sep)] and [get_text(strip=True)] over the strings of
    a tag or of the whole document. *)
Definition get_text (sep : str) (strip : bool) (ss : list str) : str :=
  Str.join sep
    (if strip then filter (fun s => s <> []) (Str.strip <$> ss) else ss).

(** A tag met while walking the document, with the tags around it, nearest
    first. *)
Record element := {
  el_name : str;
  el_classes : list str;
  el_strings : list str;
  el_ancestors : list (str * list str)
}.

Fixpoint elements (anc : list (str * list str)) (n : node) : list element :=
  match n with
  | Text _ => []
  | Tag name cls cs =>
      {| el_name := name; el_classes := cls;
         el_strings := flat_map strings cs; el_ancestors := anc |}
      :: flat_map (elements ((name, cls) :: anc)) cs
  end.

(** The selectors the program uses: a class or a tag name, possibly required
    to lie inside a tag of some class, and comma-separated groups of these. *)
Inductive simple :=
| ByClass (c : str)
| ByName (t : str).

Record complex := { inside : option simple; subject : simple }.

Definition simple_matches (s : simple) (name : str) (cls : list str) : bool :=
  match s with
  | ByClass c => bool_decide (c ∈ cls)
  | ByName t => Str.eqb t name
  end.

Definition complex_matches (c : complex) (e : element) : bool :=
  simple_matches (subject c) (el_name e) (el_classes e)
  && match inside c with
     | None => true
     | Some a =>
         existsb (fun '(n, cl) => simple_matches a n cl) (el_ancestors e)
     end.

(** [soup.select(sel)]: the matching tags in document order. *)
Definition select (sel : list complex) (doc : soup) : list element :=
  filter (fun e => existsb (fun c => complex_matches c e) sel = true)
         (flat_map (elements []) doc).

(** [soup.select_one(sel)] *)
Definition select_one (sel : list complex) (doc : soup) : option element :=
  head (select sel doc).

Definition cls (s : string) : complex :=
  {| inside := None; subject := ByClass (of_string s) |}.
Definition tag (s : string) : complex :=
  {| inside := None; subject := ByName (of_string s) |}.
Definition cls_tag (c t : string) : complex :=
  {| inside := Some (ByClass (of_string c)); subject := ByName (of_string t) |}.

(** [".profile_name, .name, h1"] *)
Definition sel_name : list complex := [cls "profile_name"; cls "name"; tag "h1"].
(** [".about, .bio, p"] *)
Definition sel_about : list complex := [cls "about"; cls "bio"; tag "p"].
(** [".badge, .user-badges li"] *)
Definition sel_badges : list complex := [cls "badge"; cls_tag "user-badges" "li"].
(** [".skill, .skills li, .tag"] *)
Definition sel_skills : list complex :=
  [cls "skill"; cls_tag "skills" "li"; cls "tag"].

(** *** The counter patterns *)

Definition ascii_lower (c : char) : char :=
  if (65 <=? c) && (c <=? 90) then c + 32 else c.

(** A literal pattern character [p] against a text character [t] under
    [re.I]: besides the two ASCII cases, [i] also matches U+0130 and U+0131,
    [s] matches U+017F and [k] matches U+212A. *)
Definition ci_match (p t : char) : bool :=
  let lo := ascii_lower p in
  (ascii_lower t =? lo)
  || ((lo =? 105) && ((t =? 304) || (t =? 305)))
  || ((lo =? 115) && (t =? 383))
  || ((lo =? 107) && (t =? 8490)).

(** The text left after a literal, if the text starts with it. *)
Fixpoint match_literal (lit s : str) : option str :=
  match lit, s with
  | [], _ => Some s
  | p :: lit', t :: s' => if ci_match p t then match_literal lit' s' else None
  | _ :: _, [] => None
  end.

(** The longest prefix of characters in a class, and the rest. *)
Fixpoint span (f : char -> bool) (s : str) : str * str :=
  match s with
  | c :: t => if f c then let '(a, b) := span f t in (c :: a, b) else ([], s)
  | [] => ([], [])
  end.

(** [[:\s]] *)
Definition is_sep (c : char) : bool := (c =? 58) || Str.isspace c.
(** [[0-9,]] *)
Definition is_grp (c : char) : bool := Str.isdigit c || (c =? 44).

(** A counter pattern [(?:l1|l2|..)[:\s]*([0-9,]+)] is given by its labels.
    [match_at] is a match starting at the head of the text; it returns the
    group.  The two classes are disjoint, so a shorter run of separators
    never helps and only the alternatives are backtracked over. *)
Fixpoint match_at (labels : list str) (s : str) : option str :=
  match labels with
  | [] => None
  | l :: ls =>
      match match_literal l s with
      | Some r =>
          match (span is_grp (span is_sep r).2).1 with
          | [] => match_at ls s
          | g => Some g
          end
      | None => match_at ls s
      end
  end.

(** [re.search(pat, text, re.I)], then [m.group(m.lastindex)]: the group of
    the leftmost match. *)
Fixpoint re_search (labels : list str) (text : str) : option str :=
  match match_at labels text with
  | Some g => Some g
  | None =>
      match text with
      | [] => None
      | _ :: t => re_search labels t
      end
  end.

(** The decimal digits of a number, as [repr] and [%d] write them. *)
Fixpoint uint_digits (u : Decimal.uint) : str :=
  match u with
  | Decimal.Nil => []
  | Decimal.D0 u => 48 :: uint_digits u
  | Decimal.D1 u => 49 :: uint_digits u
  | Decimal.D2 u => 50 :: uint_digits u
  | Decimal.D3 u => 51 :: uint_digits u
  | Decimal.D4 u => 52 :: uint_digits u
  | Decimal.D5 u => 53 :: uint_digits u
  | Decimal.D6 u => 54 :: uint_digits u
  | Decimal.D7 u => 55 :: uint_digits u
  | Decimal.D8 u => 56 :: uint_digits u
  | Decimal.D9 u => 57 :: uint_digits u
  end.

Definition digit_value (c : char) : Z := Z.of_N (c - 48).

(** The number written by a string of ASCII digits. *)
Definition digits_value (ds : str) : Z :=
  fold_left (fun acc c => 10 * acc + digit_value c)%Z ds 0%Z.

(** The limit of CPython on the digits of a decimal string given to [int],
    at its default, and the message of the [ValueError] beyond it. *)
Definition int_max_str_digits : nat := 4300.

Definition msg_int_limit (digits : nat) : str :=
  of_string "Exceeds the limit (4300 digits) for integer string conversion: value has "
  ++ uint_digits (Nat.to_uint digits)
  ++ of_string " digits; use sys.set_int_max_str_digits() to increase the limit".

(** [int(s)] for a string of ASCII digits, the only strings the program
    passes: the empty string is refused, and so is a string of more digits
    than the limit. *)
Definition py_int (s : str) : outcome Z :=
  match s with
  | [] => Raises (ValueError
            (of_string "invalid literal for int() with base 10: ''"))
  | _ =>
      if (int_max_str_digits <? length s)%nat
      then Raises (ValueError (msg_int_limit (length s)))
      else Returns (digits_value s)
  end.

(** [grab_num(pat)] inside [parse_profile_html], with [text] made explicit. *)
Definition grab_num (text : str) (pat : list str) : outcome (option Z) :=
  match re_search pat text with
  | Some g => Some <$> py_int (Str.remove_char 44 g)
  | None => Returns None
  end.

(** [Followers[:\s]*([0-9,]+)] *)
Definition pat_followers : list str :=
  Eval vm_compute in [of_string "Followers"].
(** [Following[:\s]*([0-9,]+)] *)
Definition pat_following : list str :=
  Eval vm_compute in [of_string "Following"].
(** [(?:Problems solved|Solved problems)[:\s]*([0-9,]+)] *)
Definition pat_problems : list str :=
  Eval vm_compute in [of_string "Problems solved"; of_string "Solved problems"].
(** [(?:Articles|Posts)[:\s]*([0-9,]+)] *)
Definition pat_articles : list str :=
  Eval vm_compute in [of_string "Articles"; of_string "Posts"].

Module Key.
Definition raw_text_snippet : str :=
  Eval vm_compute in of_string "raw_text_snippet".
End Key.

Definition counter_patterns : list (list str) :=
  [pat_followers; pat_following; pat_problems; pat_articles].

(** The visible text of a document: [soup.get_text(separator="\n")]. *)
Definition visible_text (doc : soup) : str :=
  get_text [10] false (flat_map strings doc).

Definition stripped_text (e : element) : str := get_text [] true (el_strings e).

Definition parse_profile_html (BeautifulSoup : str -> soup) (html : str)
    : outcome pydict :=
  let soup := BeautifulSoup html in
  let data : pydict := [] in
  let data :=
    match select_one sel_name soup with
    | Some name_tag => dict_set Field.display_name (JStr (stripped_text name_tag)) data
    | None => data
    end in
  let data :=
    match select_one sel_about soup with
    | Some about_tag => dict_set Field.about (JStr (stripped_text about_tag)) data
    | None => data
    end in
  let text := visible_text soup in
  n ← grab_num text pat_followers;
  let data := dict_set Field.followers (json_opt JInt n) data in
  n ← grab_num text pat_following;
  let data := dict_set Field.following (json_opt JInt n) data in
  n ← grab_num text pat_problems;
  let data := dict_set Field.problems_solved (json_opt JInt n) data in
  n ← grab_num text pat_articles;
  let data := dict_set Field.articles_count (json_opt JInt n) data in
  let badges :=
    filter (fun b => b <> []) (stripped_text <$> select sel_badges soup) in
  let data :=
    match badges with
    | [] => data
    | _ => dict_set Field.badges (JArr (JStr <$> badges)) data
    end in
  let skills := stripped_text <$> select sel_skills soup in
  let data :=
    match skills with
    | [] => data
    | _ => dict_set Field.top_skills (JArr (JStr <$> skills)) data
    end in
  let data := dict_set Key.raw_text_snippet (JStr (take 2000 text)) data in
  mret data.

(** ** The [json] module *)

Module Json.

(** *** [json.loads] *)

(** The decoder's whitespace: space, tab, line feed, carriage return. *)
Definition is_ws (c : char) : bool :=
  (c =? 32) || (c =? 9) || (c =? 10) || (c =? 13).

Fixpoint skip_ws (s : str) : str :=
  match s with
  | c :: t => if is_ws c then skip_ws t else s
  | [] => []
  end.

Definition hexval (c : char) : option N :=
  if Str.isdigit c then Some (c - 48)
  else if (97 <=? c) && (c <=? 102) then Some (c - 87)
  else if (65 <=? c) && (c <=? 70) then Some (c - 55)
  else None.

Definition hex4 (a b c d : char) : option N :=
  x1 ← hexval a; x2 ← hexval b; x3 ← hexval c; x4 ← hexval d;
  Some (((x1 * 16 + x2) * 16 + x3) * 16 + x4).

Definition is_high_surrogate (c : char) : bool := (55296 <=? c) && (c <=? 56319).
Definition is_low_surrogate (c : char) : bool := (56320 <=? c) && (c <=? 57343).
Definition join_surrogates (hi lo : char) : char :=
  65536 + (hi - 55296) * 1024 + (lo - 56320).

(** The character named by a one-letter escape. *)
Definition unescape (c : char) : option char :=
  if (c =? 34) || (c =? 92) || (c =? 47) then Some c
  else if c =? 98 then Some 8
  else if c =? 102 then Some 12
  else if c =? 110 then Some 10
  else if c =? 114 then Some 13
  else if c =? 116 then Some 9
  else None.

Definition push (c : char) (r : option (str * str)) : option (str * str) :=
  (fun '(x, rest) => (c :: x, rest)) <$> r.

(** The body of a string after its opening quote, in strict mode: the
    decoded characters and the text after the closing quote. *)
Fixpoint scanstring (s : str) : option (str * str) :=
  match s with
  | [] => None
  | c :: t =>
      if c =? 34 then Some ([], t)
      else if c =? 92 then
        match t with
        | [] => None
        | e :: t1 =>
            if e =? 117 then
              match t1 with
              | h1 :: h2 :: h3 :: h4 :: t2 =>
                  match hex4 h1 h2 h3 h4 with
                  | None => None
                  | Some u =>
                      match t2 with
                      | b :: v :: l1 :: l2 :: l3 :: l4 :: t3 =>
                          if is_high_surrogate u && (b =? 92) && (v =? 117) then
                            match hex4 l1 l2 l3 l4 with
                            | None => None
                            | Some u2 =>
                                if is_low_surrogate u2
                                then push (join_surrogates u u2) (scanstring t3)
                                else push u (scanstring t2)
                            end
                          else push u (scanstring t2)
                      | _ => push u (scanstring t2)
                      end
                  end
              | _ => None
              end
            else
              match unescape e with
              | Some x => push x (scanstring t1)
              | None => None
              end
        end
      else if c <=? 31 then None
      else push c (scanstring t)
  end.

(** The parts of a number, each returned with the text after it.  The sign
    is optional. *)
Definition scan_sign (s : str) : str * str :=
  match s with
  | c :: t => if c =? 45 then ([c], t) else ([], s)
  | [] => ([], s)
  end.

(** The integer digits: a single zero, or a digit from 1 to 9 and all the
    digits after it. *)
Definition scan_int (s : str) : option (str * str) :=
  match s with
  | c :: t =>
      if (49 <=? c) && (c <=? 57)
      then let '(ds, r) := span Str.isdigit t in Some (c :: ds, r)
      else if c =? 48 then Some ([c], t)
      else None
  | [] => None
  end.

(** The fraction: a point followed by at least one digit, or nothing. *)
Definition scan_frac (s : str) : str * str :=
  match s with
  | p :: d :: t =>
      if (p =? 46) && Str.isdigit d
      then let '(ds, r) := span Str.isdigit t in (p :: d :: ds, r)
      else ([], s)
  | _ => ([], s)
  end.

(** The exponent: [e] or [E], an optional sign and at least one digit, or
    nothing. *)
Definition scan_exp (s : str) : str * str :=
  match s with
  | e :: t =>
      if (e =? 101) || (e =? 69) then
        let '(sg, t1) :=
          match t with
          | c :: t' => if (c =? 45) || (c =? 43) then ([c], t') else ([], t)
          | [] => ([], t)
          end in
        match span Str.isdigit t1 with
        | ([], _) => ([], s)
        | (ds, r) => (e :: sg ++ ds, r)
        end
      else ([], s)
  | [] => ([], s)
  end.

(** A number at the head of the text: an [int] when it has neither a
    fraction nor an exponent, else a [float]. *)
Definition match_number (s : str) : option (json * str) :=
  let '(sg, s) := scan_sign s in
  '(ip, s) ← scan_int s;
  let '(fp, s) := scan_frac s in
  let '(ep, s) := scan_exp s in
  match fp, ep with
  | [], [] =>
      Some (JInt (match sg with
                  | [] => digits_value ip
                  | _ => - digits_value ip
                  end)%Z, s)
  | _, _ => Some (JFloat (sg ++ ip ++ fp ++ ep), s)
  end.

(** [word] as a prefix of the text. *)
Fixpoint literal (word s : str) : option str :=
  match word, s with
  | [], _ => Some s
  | w :: word', c :: s' => if c =? w then literal word' s' else None
  | _ :: _, [] => None
  end.

Definition kw_null : str := Eval vm_compute in of_string "null".
Definition kw_true : str := Eval vm_compute in of_string "true".
Definition kw_false : str := Eval vm_compute in of_string "false".
Definition kw_nan : str := Eval vm_compute in of_string "NaN".
Definition kw_inf : str := Eval vm_compute in of_string "Infinity".
Definition kw_neg_inf : str := Eval vm_compute in of_string "-Infinity".

(** A constant at the head of the text, chosen by its first character. *)
Definition constant (s : str) : option (json * str) :=
  match s with
  | c :: _ =>
      if c =? 110 then (fun r => (JNull, r)) <$> literal kw_null s
      else if c =? 116 then (fun r => (JBool true, r)) <$> literal kw_true s
      else if c =? 102 then (fun r => (JBool false, r)) <$> literal kw_false s
      else if c =? 78 then (fun r => (JFloat kw_nan, r)) <$> literal kw_nan s
      else if c =? 73 then (fun r => (JFloat kw_inf, r)) <$> literal kw_inf s
      else if c =? 45 then (fun r => (JFloat kw_neg_inf, r)) <$> literal kw_neg_inf s
      else None
  | [] => None
  end.

(** The scanner.  [scan_once] reads one value; [members] reads the pairs of
    an object after its first key position and [items] the elements of an
    array, each up to the closing bracket.  The fuel bounds the number of
    nested calls; [fuel_for] is enough for a text, and more changes
    nothing. *)
Fixpoint scan_once (fuel : nat) (s : str) : option (json * str) :=
  match fuel with
  | O => None
  | S fuel =>
      match s with
      | [] => None
      | c :: t =>
          if c =? 34 then (fun '(x, r) => (JStr x, r)) <$> scanstring t
          else if c =? 123 then
            match skip_ws t with
            | c' :: t' =>
                if c' =? 125 then Some (JObj [], t')
                else (fun '(m, r) => (JObj m, r)) <$> members fuel [] (c' :: t')
            | [] => None
            end
          else if c =? 91 then
            match skip_ws t with
            | c' :: t' =>
                if c' =? 93 then Some (JArr [], t')
                else (fun '(l, r) => (JArr l, r)) <$> items fuel [] (c' :: t')
            | [] => None
            end
          else
            match constant s with
            | Some r => Some r
            | None => match_number s
            end
      end
  end
with members (fuel : nat) (acc : pydict) (s : str) : option (pydict * str) :=
  match fuel with
  | O => None
  | S fuel =>
      match s with
      | q :: t =>
          if q =? 34 then
            '(key, r) ← scanstring t;
            match skip_ws r with
            | colon :: r1 =>
                if colon =? 58 then
                  '(val, r2) ← scan_once fuel (skip_ws r1);
                  let acc := dict_set key val acc in
                  match skip_ws r2 with
                  | d :: r3 =>
                      if d =? 125 then Some (acc, r3)
                      else if d =? 44 then members fuel acc (skip_ws r3)
                      else None
                  | [] => None
                  end
                else None
            | [] => None
            end
          else None
      | [] => None
      end
  end
with items (fuel : nat) (acc : list json) (s : str) : option (list json * str) :=
  match fuel with
  | O => None
  | S fuel =>
      '(val, r) ← scan_once fuel s;
      let acc := acc ++ [val] in
      match skip_ws r with
      | d :: r1 =>
          if d =? 93 then Some (acc, r1)
          else if d =? 44 then items fuel acc (skip_ws r1)
          else None
      | [] => None
      end
  end.

Definition fuel_for (s : str) : nat := 2 * length s + 2.

(** [json.loads(s)] for a [str]: no byte-order mark, one value, nothing but
    whitespace around it.  Every failure is a [JSONDecodeError]. *)
Definition loads (s : str) : outcome json :=
  match s with
  | 65279 :: _ => Raises JSONDecodeError
  | _ =>
      let s1 := skip_ws s in
      match scan_once (fuel_for s1) s1 with
      | Some (v, r) =>
          match skip_ws r with
          | [] => Returns v
          | _ => Raises JSONDecodeError
          end
      | None => Raises JSONDecodeError
      end
  end.

(** *** [json.dumps] and [json.dump] with [ensure_ascii=False] *)

Definition hexdigit (n : N) : char := if n <? 10 then 48 + n else 87 + n.

Definition escape_char (c : char) : str :=
  if c =? 34 then [92; 34]
  else if c =? 92 then [92; 92]
  else if c =? 10 then [92; 110]
  else if c =? 13 then [92; 114]
  else if c =? 9 then [92; 116]
  else if c =? 8 then [92; 98]
  else if c =? 12 then [92; 102]
  else if c <? 32 then [92; 117; 48; 48; hexdigit (c / 16); hexdigit (c mod 16)]
  else [c].

Definition encode_basestring (s : str) : str :=
  34 :: flat_map escape_char s ++ [34].

(** [int.__repr__] *)
Definition repr_int (z : Z) : str :=
  match Z.to_int z with
  | Decimal.Pos u => uint_digits u
  | Decimal.Neg u => 45 :: uint_digits u
  end.

(** The layout options: [indent] and the item separator.  The key separator
    is [": "] in both calls of the program. *)
Record layout := { indent : option nat; item_separator : str }.

(** [json.dumps(raw, ensure_ascii=False)] *)
Definition compact : layout := {| indent := None; item_separator := [44; 32] |}.
(** [json.dump(result, f, indent=2, ensure_ascii=False)] *)
Definition indented : layout := {| indent := Some 2%nat; item_separator := [44] |}.

Definition newline_indent (y : layout) (level : nat) : str :=
  match indent y with
  | Some n => 10 :: replicate (n * level) 32
  | None => []
  end.

(** The encoder at a nesting level.  A float is written as its literal. *)
Fixpoint encode (y : layout) (level : nat) (v : json) : str :=
  match v with
  | JNull => kw_null
  | JBool true => kw_true
  | JBool false => kw_false
  | JInt z => repr_int z
  | JFloat lit => lit
  | JStr s => encode_basestring s
  | JArr [] => [91; 93]
  | JArr l =>
      [91] ++ newline_indent y (S level)
      ++ Str.join (item_separator y ++ newline_indent y (S level))
           (map (encode y (S level)) l)
      ++ newline_indent y level ++ [93]
  | JObj [] => [123; 125]
  | JObj m =>
      [123] ++ newline_indent y (S level)
      ++ Str.join (item_separator y ++ newline_indent y (S level))
           (map (fun kv => encode_basestring kv.1 ++ [58; 32]
                            ++ encode y (S level) kv.2) m)
      ++ newline_indent y level ++ [125]
  end.

Definition dumps (y : layout) (v : json) : str := encode y 0 v.

(** *** What may follow a value *)

(** The text does not go on with a digit. *)
Definition no_digit_next (s : str) : Prop :=
  match s with
  | c :: _ => Str.isdigit c = false
  | [] => True
  end.

(** The text does not go on with a character that could extend a number. *)
Definition number_end (s : str) : Prop :=
  match s with
  | c :: _ => Str.isdigit c = false /\ c <> 46 /\ c <> 101 /\ c <> 69
  | [] => True
  end.

(** After a value the encoder writes a comma, a line feed or nothing. *)
Definition value_end (s : str) : Prop :=
  match s with
  | c :: _ => c = 44 \/ c = 10
  | [] => True
  end.

(** The characters a value can start with. *)
Definition value_start (c : char) : bool :=
  (c =? 34) || (c =? 123) || (c =? 91) || (c =? 110) || (c =? 116)
  || (c =? 102) || (c =? 78) || (c =? 73) || (c =? 45) || Str.isdigit c.

(** *** The shape of a number

    What each part of a number looks like when it is followed by [r]; these
    describe [scan_int], [scan_frac] and [scan_exp]. *)

Definition int_shape (ip r : str) : Prop :=
  ip = [48]
  \/ exists c ds, ip = c :: ds /\ 49 <= c <= 57
       /\ Forall (fun c => isdigit c = true) ds /\ no_digit_next r.

Definition frac_shape (fp r : str) : Prop :=
  (fp = [] /\ scan_frac r = ([], r))
  \/ exists d ds, fp = 46 :: d :: ds /\ isdigit d = true
       /\ Forall (fun c => isdigit c = true) ds /\ no_digit_next r.

Definition exp_shape (ep r : str) : Prop :=
  (ep = [] /\ scan_exp r = ([], r))
  \/ exists e sg d ds, ep = e :: sg ++ d :: ds
       /\ (e = 101 \/ e = 69) /\ (sg = [] \/ sg = [45] \/ sg = [43])
       /\ Forall (fun c => isdigit c = true) (d :: ds) /\ no_digit_next r.

Definition number_parts (sg ip fp ep r : str) : Prop :=
  (sg = [] \/ sg = [45])
  /\ int_shape ip (fp ++ ep ++ r)
  /\ frac_shape fp (ep ++ r)
  /\ exp_shape ep r.

Definition number_value (sg ip fp ep : str) : json :=
  match fp, ep with
  | [], [] =>
      JInt (match sg with
            | [] => digits_value ip
            | _ => - digits_value ip
            end)%Z
  | _, _ => JFloat (sg ++ ip ++ fp ++ ep)
  end.

(** A text that starts like a number: a digit, or a minus sign and a digit. *)
Definition number_text (s : str) : Prop :=
  match s with
  | c :: t =>
      Str.isdigit c = true
      \/ (c = 45 /\ match t with d :: _ => Str.isdigit d = true | [] => False end)
  | [] => False
  end.

Abbreviation nl := (newline_indent indented).
Abbreviation enc := (encode indented).
Abbreviation sep k := (44 :: newline_indent indented k).

(** A value is read back when the scanner, given enough fuel, turns its
    indented encoding at any level into the value again and stops right
    after it. *)
Definition reads_back (v : json) : Prop :=
  forall (lvl : nat) (rest : str) (f : nat),
    value_end rest ->
    (length (encode indented lvl v) < f)%nat ->
    scan_once f (encode indented lvl v ++ rest) = Some (v, rest).

(** The text of one [key: value] pair of an object. *)
Definition encode_pair (y : layout) (level : nat) (kv : str * json) : str :=
  encode_basestring kv.1 ++ [58; 32] ++ encode y level kv.2.

(** *** Values that come out of the decoder *)

(** The literals that denote a float: the three constants, and the numbers
    with a fraction or an exponent. *)
Definition is_float_literal (lit : str) : bool :=
  bool_decide (lit ∈ [kw_nan; kw_inf; kw_neg_inf])
  || match match_number lit with
     | Some (JFloat l, []) => Str.eqb l lit
     | _ => false
     end.

(** In a value built by the decoder every float is such a literal and the
    keys of a dict are distinct. *)
Fixpoint well_formed (v : json) : bool :=
  match v with
  | JFloat lit => is_float_literal lit
  | JArr l => forallb well_formed l
  | JObj m =>
      bool_decide (NoDup (fst <$> m)) && forallb (fun kv => well_formed kv.2) m
  | _ => true
  end.

End Json.

(** ** The outside world *)

(** What [chain.invoke] returns: a [dict] with a ["text"] entry, or anything
    else, of which the program takes [str(response)]. *)
Inductive chain_output :=
| WithText (text : str)
| Other (as_str : str).

(** The calls that leave the process.  [requests_get url] stands for
    [requests.get(url, headers=headers, timeout=10)]: a response, or a
    transport exception.  [chain_invoke username raw_extracted] stands for
    [chain.invoke] on the two prompt variables. *)
Record world := {
  requests_get : str -> outcome response;
  BeautifulSoup : str -> soup;
  chain_invoke : str -> str -> outcome chain_output
}.

(** A file on disk holds a complete text, or what was written of one before
    the write failed. *)
Inductive file :=
| Whole (content : str)
| Partial.

Abbreviation disk := (gmap str file).

Definition is_surrogate (c : char) : bool := (55296 <=? c) && (c <=? 57343).

(** Whether a text can be encoded as UTF-8. *)
Definition utf8_encodable (s : str) : bool := forallb (fun c => negb (is_surrogate c)) s.

(** [fetch_gfg_profile] *)
Definition urls (username : str) : list str :=
  [ of_string "https://auth.geeksforgeeks.org/user/" ++ username;
    of_string "https://www.geeksforgeeks.org/user/" ++ username ++ of_string "/" ].

Fixpoint fetch_each (W : world) (us : list str) : outcome (option str) :=
  match us with
  | [] => mret None
  | url :: us' =>
      res ← requests_get W url;
      if (status_code res =? 200)%Z then mret (Some (text res))
      else fetch_each W us'
  end.

Definition fetch_gfg_profile (W : world) (username : str) : outcome (option str) :=
  fetch_each W (urls username).

(** ** Step 4: the pipeline *)

Definition msg_not_found : str :=
  Eval vm_compute in of_string "Profile not found or private.".

Definition msg_invalid_json : str :=
  Eval vm_compute in of_string "Invalid JSON from Falcon:" ++ [10].

(** The prefix of [s] that ends with its last [c], if [c] occurs. *)
Fixpoint through_last (c : char) (s : str) : option str :=
  match s with
  | [] => None
  | x :: t =>
      match through_last c t with
      | Some r => Some (x :: r)
      | None => if x =? c then Some [x] else None
      end
  end.

Fixpoint from_first (c : char) (s : str) : option str :=
  match s with
  | [] => None
  | x :: t => if x =? c then Some t else from_first c t
  end.

(** [re.search(r"\{.*\}", response, re.S)], then [match.group(0)]: from the
    first opening brace to the last closing brace after it. *)
Definition brace_search (response : str) : option str :=
  t ← from_first 123 response;
  body ← through_last 125 t;
  Some (123 :: body).

(** The [try] block of [gfg_to_json] that turns the response into [parsed].
    The second [json.loads] runs inside the [except] handler, so what it
    raises is not caught. *)
Definition parse_response (response : str) : outcome json :=
  match Json.loads response with
  | Returns parsed => Returns parsed
  | Raises _ =>
      match brace_search response with
      | Some m => Json.loads m
      | None => Raises (ValueError (msg_invalid_json ++ response))
      end
  end.

(** Computations that read and change the disk and may raise. *)
Definition io (A : Type) : Type := disk -> outcome A * disk.

#[global] Instance io_ret : MRet io := fun A a d => (Returns a, d).

#[global] Instance io_bind : MBind io := fun A B k m d =>
  match m d with
  | (Returns a, d') => k a d'
  | (Raises e, d') => (Raises e, d')
  end.

Definition lift {A} (m : outcome A) : io A := fun d => (m, d).

Definition raise {A} (e : exn) : io A := fun d => (Raises e, d).

(** [os.path.exists(p)] *)
Definition os_path_exists (p : str) : io bool := fun d =>
  (Returns (bool_decide (is_Some (d !! p))), d).

(** [os.remove(p)] *)
Definition os_remove (p : str) : io () := fun d =>
  match d !! p with
  | Some _ => (Returns (), delete p d)
  | None => (Raises FileNotFoundError, d)
  end.

(** [with open(p, "w", encoding="utf-8") as f:
       json.dump(v, f, indent=2, ensure_ascii=False)].
    Opening truncates or creates the file; the text is encoded while it is
    written, so a text that UTF-8 cannot encode leaves the file incomplete. *)
Definition write_json (p : str) (v : json) : io () := fun d =>
  let out := Json.dumps Json.indented v in
  if utf8_encodable out
  then (Returns (), <[p := Whole out]> d)
  else (Raises UnicodeEncodeError, <[p := Partial]> d).

(** [gfg_to_json(username, output_path)].  The [print] calls are left out. *)
Definition gfg_to_json (W : world) (L : lax) (username output_path : str)
    : io pydict :=
  old ← os_path_exists output_path;
  _ ← (if old : bool then os_remove output_path else mret ());
  html ← lift (fetch_gfg_profile W username);
  match html with
  | None | Some [] => raise (ValueError msg_not_found)
  | Some html =>
      raw ← lift (parse_profile_html (BeautifulSoup W) html);
      let raw_str := Json.dumps Json.compact (JObj raw) in
      response ← lift (chain_invoke W username raw_str);
      let response :=
        match response with
        | WithText t => t
        | Other s => s
        end in
      parsed ← lift (parse_response response);
      profile ← lift (GFGProfile_new L parsed);
      let result := to_dict profile in
      _ ← write_json output_path (JObj result);
      mret result
  end.

Definition default_output_path : str := Eval vm_compute in of_string "output.json".

(** Both addresses fail: each answers with a status other than 200. *)
Definition both_not_ok (W : world) (username : str) : Prop :=
  forall url, url ∈ urls username ->
    exists r, requests_get W url = Returns r /\ status_code r <> 200%Z.

(** The steps of [gfg_to_json] between the removal of the old file and the
    write of the new one; they do not touch the disk. *)
Definition normalize (W : world) (L : lax) (username : str) : outcome pydict :=
  html ← fetch_gfg_profile W username;
  match html with
  | None | Some [] => Raises (ValueError msg_not_found)
  | Some html =>
      raw ← parse_profile_html (BeautifulSoup W) html;
      response ← chain_invoke W username (Json.dumps Json.compact (JObj raw));
      parsed ← parse_response
                 match response with
                 | WithText t => t
                 | Other s => s
                 end;
      profile ← GFGProfile_new L parsed;
      mret (to_dict profile)
  end.

(** ** Sample worlds and inputs *)

Module Sample.

Definition user : str := Eval vm_compute in of_string "ann".

(** The text of the specification's example, cut into label, separators
    and digit group. *)
Definition followers_label : str := Eval vm_compute in of_string "Followers".
Definition followers_seps : str := Eval vm_compute in of_string ": ".
Definition followers_group : str := Eval vm_compute in of_string "12,345".
Definition followers_text : str :=
  Eval vm_compute in of_string "Followers: 12,345".

(** The tree of [<h1>Ann</h1>]. *)
Definition page : soup := [Tag (of_string "h1") [] [Text (of_string "Ann")]].

(** A world in which the profile page is served and the model answers with
    [reply]. *)
Definition answering (reply : str) : world :=
  {| requests_get := fun _ =>
       Returns {| status_code := 200; text := of_string "<h1>Ann</h1>" |};
     BeautifulSoup := fun _ => page;
     chain_invoke := fun _ _ => Returns (WithText reply) |}.

(** A world in which every request fails in transport. *)
Definition offline : world :=
  {| requests_get := fun _ => Raises RequestException;
     BeautifulSoup := fun _ => [];
     chain_invoke := fun _ _ => Raises ChainException |}.

(** A world in which both addresses answer 404. *)
Definition unknown_user : world :=
  {| requests_get := fun _ =>
       Returns {| status_code := 404; text := of_string "Not Found" |};
     BeautifulSoup := fun _ => [];
     chain_invoke := fun _ _ => Raises ChainException |}.

(** A reply with a key that [GFGProfile] does not declare; the prompt asks
    for [contest_rating]. *)
Definition reply_extra : str :=
  Eval vm_compute in quoted "{'username': 'ann', 'contest_rating': 1500}".

Definition reply_negative : str :=
  Eval vm_compute in quoted "{'username': 'ann', 'followers': -5}".

Definition contest_rating : str := Eval vm_compute in of_string "contest_rating".

(** What [reply_extra] and [reply_negative] parse to. *)
Definition parsed_extra : pydict :=
  [(Field.username, JStr user); (contest_rating, JInt 1500)].
Definition parsed_negative : pydict :=
  [(Field.username, JStr user); (Field.followers, JInt (-5))].

(** The profile with only a user name. *)
Definition bare : GFGProfile :=
  {| username := user; display_name := None; about := None; reputation := None;
     followers := None; following := None; problems_solved := None;
     articles_count := None; badges := []; top_skills := [];
     raw_extracted := [] |}.

(** The profile with a user name and -5 followers. *)
Definition indebted : GFGProfile :=
  {| username := user; display_name := None; about := None; reputation := None;
     followers := Some (-5)%Z; following := None; problems_solved := None;
     articles_count := None; badges := []; top_skills := [];
     raw_extracted := [] |}.

(** The disk holding one output file with the given result. *)
Definition saved (result : pydict) : disk :=
  {[ default_output_path := Whole (Json.dumps Json.indented (JObj result)) ]}.

(** The markup [<span class="skill"></span>] and its tree. *)
Definition empty_skill_html : str :=
  Eval vm_compute in quoted "<span class='skill'></span>".
Definition empty_skill : soup := [Tag (of_string "span") [of_string "skill"] []].

(** A reply that gives every field of the schema, and what it parses to. *)
Definition reply_full : str :=
  Eval vm_compute in
    quoted "{'username': 'ann', 'display_name': 'Ann', 'about': null,
 'reputation': '5 stars', 'followers': 12, 'following': 0,
 'problems_solved': 345, 'articles_count': null, 'badges': ['Gold'],
 'top_skills': [], 'raw_extracted': {'rank': 1.5, 'tags': ['a', {'b': -2}]}}".

Definition parsed_full : pydict :=
  Eval vm_compute in
    match Json.loads reply_full with
    | Returns (JObj m) => m
    | _ => []
    end.

(** A reply that names an undeclared key before the declared one, in the
    order of the prompt. *)
Definition reply_extra_first : str :=
  Eval vm_compute in quoted "{'contest_rating': 1500, 'username': 'ann'}".
Definition parsed_extra_first : pydict :=
  [(contest_rating, JInt 1500); (Field.username, JStr user)].

(** Page texts that contain [Followers: 12,345] after an earlier match of
    the same pattern. *)
Definition followers_twice : str :=
  Eval vm_compute in of_string "Followers 1, then Followers: 12,345".
Definition followers_comma_first : str :=
  Eval vm_compute in of_string "My followers, see Followers: 12,345".

(** A reply whose raw data holds a lone surrogate, written as an escape. *)
Definition reply_surrogate : str :=
  Eval vm_compute in
    quoted "{'username': 'ann', 'raw_extracted': {'x': '\ud800'}}".

Definition parsed_surrogate : pydict :=
  [(Field.username, JStr user);
   (Field.raw_extracted, JObj [([120], JStr [55296])])].

(** A JSON object inside prose that has braces of its own. *)
Definition prose_pre : str := Eval vm_compute in of_string "Here {as asked} is the result: ".
Definition prose_obj : str := Eval vm_compute in quoted "{'username': 'ann'}".
Definition prose_post : str := Eval vm_compute in of_string " Thanks!".

(** A reply with braces and no JSON between them. *)
Definition reply_oops : str := Eval vm_compute in of_string "{oops}".

End Sample.

(** ** Further definitions: addresses, the reply, the command line *)

(** The two addresses that [fetch_gfg_profile] tries, in this order. *)
Definition auth_url (username : str) : str :=
  of_string "https://auth.geeksforgeeks.org/user/" ++ username.
Definition www_url (username : str) : str :=
  of_string "https://www.geeksforgeeks.org/user/" ++ username ++ of_string "/".

(** The fetch meets a transport exception: on the first request, or on the
    second after the first was answered with a status other than 200. *)
Definition fetch_raises (W : world) (username : str) (e : exn) : Prop :=
  requests_get W (auth_url username) = Raises e
  \/ exists r, requests_get W (auth_url username) = Returns r
       /\ status_code r <> 200%Z
       /\ requests_get W (www_url username) = Raises e.

(** The steps of [gfg_to_json] from the fetch to the text of the model's
    reply. *)
Definition model_reply (W : world) (username : str) : outcome str :=
  html ← fetch_gfg_profile W username;
  match html with
  | None | Some [] => Raises (ValueError msg_not_found)
  | Some html =>
      raw ← parse_profile_html (BeautifulSoup W) html;
      response ← chain_invoke W username (Json.dumps Json.compact (JObj raw));
      mret match response with
           | WithText t => t
           | Other s => s
           end
  end.

(** The message of [int("")]. *)
Definition msg_empty_int : str :=
  Eval vm_compute in of_string "invalid literal for int() with base 10: ''".

Definition nonempty {A} (l : list A) : bool :=
  match l with
  | [] => false
  | _ => true
  end.

Definition found {A} (o : option A) : bool :=
  match o with
  | Some _ => true
  | None => false
  end.

(** The badge texts that [parse_profile_html] keeps. *)
Definition badge_texts (doc : soup) : list str :=
  filter (fun b => b <> []) (stripped_text <$> select sel_badges doc).

(** The skill texts that [parse_profile_html] keeps. *)
Definition skill_texts (doc : soup) : list str :=
  stripped_text <$> select sel_skills doc.

(** The keys of the extracted data, in the order in which they are set. *)
Definition extracted_keys (doc : soup) : list str :=
  (if found (select_one sel_name doc) then [Field.display_name] else [])
  ++ (if found (select_one sel_about doc) then [Field.about] else [])
  ++ Field.numeric
  ++ (if nonempty (badge_texts doc) then [Field.badges] else [])
  ++ (if nonempty (skill_texts doc) then [Field.top_skills] else [])
  ++ [Key.raw_text_snippet].

(** The tags of a document in document order, and the test that a tag
    matches one selector of a group. *)
Definition all_elements (doc : soup) : list element := flat_map (elements []) doc.
Definition matches (sel : list complex) (e : element) : bool :=
  existsb (fun c => complex_matches c e) sel.

(** Each counter key with the pattern that fills it. *)
Definition counters : list (str * list str) :=
  [ (Field.followers, pat_followers); (Field.following, pat_following);
    (Field.problems_solved, pat_problems); (Field.articles_count, pat_articles) ].

(** The fields of the schema that have a default, with the default as
    [profile.dict()] shows it. *)
Definition defaults : pydict :=
  [ (Field.display_name, JNull); (Field.about, JNull); (Field.reputation, JNull);
    (Field.followers, JNull); (Field.following, JNull);
    (Field.problems_solved, JNull); (Field.articles_count, JNull);
    (Field.badges, JArr []); (Field.top_skills, JArr []);
    (Field.raw_extracted, JObj []) ].

(** The conversions of a lax mode give dicts that the encoder can write and
    the decoder can read back. *)
Definition lax_well_formed (L : lax) : Prop :=
  forall v m, lax_dict L v = Some m -> Json.well_formed (JObj m) = true.

(** After a value the compact encoder writes a comma, a closing bracket, a
    closing brace or nothing. *)
Definition closes (s : str) : Prop :=
  match s with
  | c :: _ => c = 44 \/ c = 93 \/ c = 125
  | [] => True
  end.

(** A value is read back from its compact text when the scanner, given
    enough fuel, turns the text at any level into the value again and stops
    right after it. *)
Definition reads_back_compact (v : json) : Prop :=
  forall (lvl : nat) (rest : str) (f : nat),
    closes rest ->
    (length (Json.encode Json.compact lvl v) < f)%nat ->
    Json.scan_once f (Json.encode Json.compact lvl v ++ rest) = Some (v, rest).

(** The item separator of the compact layout. *)
Abbreviation comma_space := [44; 32].

(** *** Step 0 and step 5: the script *)

Definition token_name : str :=
  Eval vm_compute in of_string "HUGGINGFACEHUB_API_TOKEN".

(** How a run of the script ends: with the [EnvironmentError] of the
    start-up check, with another exception, or with the final [print] of the
    result. *)
Inductive script_end :=
| MissingToken
| Failed (e : exn)
| Printed (text : str).

(** The script run as a program on a user name.  [getenv] is the environment
    after [load_dotenv()]; [setup] stands for the module-level construction
    of the prompt, the model client and the chain, which comes after the
    check of the token; then [gfg_to_json(args.username)] runs with the
    default path, and the result goes to
    [print(json.dumps(result, indent=2, ensure_ascii=False))]. *)
Definition script (getenv : str -> option str) (setup : outcome ())
    (W : world) (L : lax) (username : str) (d : disk) : script_end * disk :=
  match getenv token_name with
  | None | Some [] => (MissingToken, d)
  | Some _ =>
      match setup with
      | Raises e => (Failed e, d)
      | Returns _ =>
          match gfg_to_json W L username default_output_path d with
          | (Returns result, d') =>
              (Printed (Json.dumps Json.indented (JObj result)), d')
          | (Raises e, d') => (Failed e, d')
          end
      end
  end.

Module Sample2.

(** A world that serves [body] with status 200 at the first address and
    fails in transport at the second. *)
Definition first_only (body : str) : world :=
  {| requests_get := fun url =>
       if Str.eqb url (auth_url Sample.user)
       then Returns {| status_code := 200; text := body |}
       else Raises RequestException;
     BeautifulSoup := fun _ => Sample.page;
     chain_invoke := fun _ _ => Returns (WithText Sample.reply_extra) |}.

(** A world that answers 404 at the first address and serves a page at the
    second. *)
Definition second_only : world :=
  {| requests_get := fun url =>
       if Str.eqb url (auth_url Sample.user)
       then Returns {| status_code := 404; text := of_string "Not Found" |}
       else Returns {| status_code := 200; text := of_string "<h1>Ann</h1>" |};
     BeautifulSoup := fun _ => Sample.page;
     chain_invoke := fun _ _ => Returns (WithText Sample.reply_extra) |}.

(** A world that answers 500 at the first address and fails in transport at
    the second. *)
Definition second_fails : world :=
  {| requests_get := fun url =>
       if Str.eqb url (auth_url Sample.user)
       then Returns {| status_code := 500; text := [] |}
       else Raises RequestException;
     BeautifulSoup := fun _ => [];
     chain_invoke := fun _ _ => Raises ChainException |}.

(** The tree of [<p>Followers: ,</p>]. *)
Definition comma_page : soup :=
  [Tag (of_string "p") [] [Text (of_string "Followers: ,")]].

(** The tree of
    [<ul class="user-badges"><li> Gold </li><li>  </li></ul>
     <span class="tag">py</span>]. *)
Definition badge_page : soup :=
  [ Tag (of_string "ul") [of_string "user-badges"]
      [ Tag (of_string "li") [] [Text (of_string " Gold ")];
        Tag (of_string "li") [] [Text (of_string "  ")] ];
    Tag (of_string "span") [of_string "tag"] [Text (of_string "py")] ].

(** The tree of [<h1>Ann</h1><div class="name">Bob</div>]. *)
Definition two_names : soup :=
  [ Tag (of_string "h1") [] [Text (of_string "Ann")];
    Tag (of_string "div") [of_string "name"] [Text (of_string "Bob")] ].

(** A user name other than the one the sample replies give. *)
Definition other_user : str := Eval vm_compute in of_string "bob".

(** An environment with the token set, and one without it. *)
Definition with_token : str -> option str :=
  fun name => if Str.eqb name token_name then Some (of_string "hf_x") else None.
Definition without_token : str -> option str := fun _ => None.

(** Replies that are JSON but no object, and one without [username]. *)
Definition reply_list : str := Eval vm_compute in quoted "['ann']".
Definition reply_nameless : str := Eval vm_compute in quoted "{'followers': 3}".
(** A reply that is no JSON and has no braces. *)
Definition reply_sorry : str := Eval vm_compute in of_string "Sorry, I cannot help.".

End Sample2.

(** * Properties *)

(** ** Strings and dictionaries *)

Lemma str_eqb_eq a b : Str.eqb a b = true <-> a = b.
Proof. unfold Str.eqb. apply bool_decide_eq_true. Qed.

Lemma str_eqb_neq a b : Str.eqb a b = false <-> a <> b.
Proof. unfold Str.eqb. apply bool_decide_eq_false. Qed.

Lemma str_eqb_refl a : Str.eqb a a = true.
Proof. by apply str_eqb_eq. Qed.

Lemma dict_get_set_eq k v d : dict_get k (dict_set k v d) = Some v.
Proof.
  induction d as [|[k' v'] d IH]; simpl.
  - by rewrite str_eqb_refl.
  - destruct (Str.eqb k k') eqn:E; simpl; rewrite E; [done | exact IH].
Qed.

Lemma dict_get_set_ne k k' v d :
  k <> k' -> dict_get k' (dict_set k v d) = dict_get k' d.
Proof.
  intros Hne. induction d as [|[k0 v0] d IH]; simpl.
  - destruct (Str.eqb k' k) eqn:E; [|done].
    apply str_eqb_eq in E. congruence.
  - destruct (Str.eqb k k0) eqn:E; simpl.
    + apply str_eqb_eq in E. subst k0.
      destruct (Str.eqb k' k) eqn:E'; [|done].
      apply str_eqb_eq in E'. congruence.
    + by rewrite IH.
Qed.


Lemma dict_get_set k k' v d :
  dict_get k' (dict_set k v d) = if Str.eqb k' k then Some v else dict_get k' d.
Proof.
  destruct (Str.eqb k' k) eqn:E.
  - apply str_eqb_eq in E. subst. apply dict_get_set_eq.
  - apply str_eqb_neq in E. by apply dict_get_set_ne.
Qed.

(** ** The pipeline as three stages *)

(** [gfg_to_json] removes the old file, runs the stages that do not touch the
    disk, and writes the result. *)
Lemma gfg_to_json_steps (W : world) (L : lax) (u p : str) (d : disk) :
  gfg_to_json W L u p d =
    match normalize W L u with
    | Raises e => (Raises e, delete p d)
    | Returns result =>
        let out := Json.dumps Json.indented (JObj result) in
        if utf8_encodable out
        then (Returns result, <[p := Whole out]> (delete p d))
        else (Raises UnicodeEncodeError, <[p := Partial]> (delete p d))
    end.
Proof.
  assert (Hrm : (let '(r, d') :=
                   (if bool_decide (is_Some (d !! p))
                    then os_remove p else mret ()) d in
                 r = Returns () /\ d' = delete p d)).
  { destruct (d !! p) as [f|] eqn:Hp.
    - rewrite bool_decide_eq_true_2 by eauto.
      unfold os_remove. by rewrite Hp.
    - rewrite bool_decide_eq_false_2 by (intros [? ?]; congruence).
      cbn. by rewrite delete_id. }
  unfold gfg_to_json, normalize, os_path_exists, write_json, lift, raise.
  unfold mbind, mret, io_bind, io_ret, outcome_bind, outcome_ret.
  cbv beta iota zeta.
  destruct ((if bool_decide (is_Some (d !! p)) then os_remove p else _) d)
    as [r d'].
  destruct Hrm as [-> ->].
  destruct (fetch_gfg_profile W u) as [[[|c html]|]|e]; try reflexivity.
  destruct (parse_profile_html _ _) as [raw|e]; try reflexivity.
  destruct (chain_invoke W u _) as [resp|e]; try reflexivity.
  destruct (parse_response _) as [parsed|e]; try reflexivity.
  destruct (GFGProfile_new L parsed) as [profile|e]; try reflexivity.
  by destruct (utf8_encodable _).
Qed.

(** A run that ends with anything but the write-time encoding error leaves
    the disk as it was, less the output file. *)
Lemma gfg_to_json_raises (W : world) (L : lax) (u p : str) (d d' : disk) (e : exn) :
  gfg_to_json W L u p d = (Raises e, d') ->
  e <> UnicodeEncodeError ->
  normalize W L u = Raises e /\ d' = delete p d.
Proof.
  rewrite gfg_to_json_steps.
  destruct (normalize W L u) as [result|e0]; cbv zeta.
  - destruct (utf8_encodable _); intros [= <- <-]; congruence.
  - by intros [= <- <-].
Qed.

Lemma gfg_to_json_returns (W : world) (L : lax) (u p : str) (d d' : disk) (result : pydict) :
  gfg_to_json W L u p d = (Returns result, d') ->
  normalize W L u = Returns result
  /\ d' = <[p := Whole (Json.dumps Json.indented (JObj result))]> (delete p d).
Proof.
  rewrite gfg_to_json_steps.
  destruct (normalize W L u) as [r|e0]; cbv zeta; [|done].
  destruct (utf8_encodable _); [|done].
  by intros [= <- <-].
Qed.

(** The stages of [normalize], with the steps up to the reply as one. *)
Lemma normalize_reply (W : world) (L : lax) (u : str) :
  normalize W L u =
    (reply ← model_reply W u;
     parsed ← parse_response reply;
     profile ← GFGProfile_new L parsed;
     mret (to_dict profile)).
Proof.
  unfold normalize, model_reply.
  unfold mbind, mret, outcome_bind, outcome_ret.
  destruct (fetch_gfg_profile W u) as [[[|c html]|]|e]; try reflexivity.
  destruct (parse_profile_html _ _) as [raw|e]; try reflexivity.
  destruct (chain_invoke W u _) as [resp|e]; reflexivity.
Qed.

(** ** Validation *)

Lemma field_set_ne {A} (val : json -> option A) (dflt : A) (k k' : str) v kw :
  k <> k' -> field val dflt k' (dict_set k v kw) = field val dflt k' kw.
Proof. intros Hne. unfold field. by rewrite dict_get_set_ne. Qed.

Lemma validate_set_other (L : lax) (k : str) (v : json) (kw : pydict) :
  k ∉ Field.all -> validate L (dict_set k v kw) = validate L kw.
Proof.
  intros Hk. unfold Field.all in Hk.
  repeat (apply not_elem_of_cons in Hk as [? Hk]).
  unfold validate.
  rewrite !field_set_ne by done.
  by rewrite dict_get_set_ne.
Qed.

Lemma to_dict_keys (p : GFGProfile) : fst <$> to_dict p = Field.all.
Proof. reflexivity. Qed.

Lemma dict_get_None (k : str) (d : pydict) :
  k ∉ fst <$> d -> dict_get k d = None.
Proof.
  induction d as [|[k' v] d IH]; [done|].
  intros Hk. cbn in Hk. apply not_elem_of_cons in Hk as [Hne Hk].
  cbn. destruct (Str.eqb k k') eqn:E.
  - apply str_eqb_eq in E. done.
  - by apply IH.
Qed.

Lemma dict_get_remove_ne (k k' : str) (kw : pydict) :
  k' <> k -> dict_get k' (dict_remove k kw) = dict_get k' kw.
Proof.
  intros Hne. unfold dict_remove.
  induction kw as [|[k0 v0] kw IH]; [done|].
  destruct (decide (k0 = k)) as [->|Hk0].
  - rewrite filter_cons_False by (cbn; by intros ?).
    cbn. destruct (Str.eqb k' k) eqn:E; [|exact IH].
    by apply str_eqb_eq in E.
  - rewrite filter_cons_True by done.
    cbn. by rewrite IH.
Qed.

Lemma dict_remove_absent (k : str) (kw : pydict) : k ∉ fst <$> dict_remove k kw.
Proof.
  unfold dict_remove. intros Hin.
  apply list_elem_of_fmap in Hin as ([k0 v0] & -> & Hin).
  by apply list_elem_of_filter in Hin as [Hne _].
Qed.

(** Validation looks at the declared fields only. *)
Lemma validate_agree (L : lax) (kw kw' : pydict) :
  (forall k, k ∈ Field.all -> dict_get k kw = dict_get k kw') ->
  validate L kw = validate L kw'.
Proof.
  intros H. unfold validate, field.
  assert (Hin : Forall (fun k => dict_get k kw = dict_get k kw') Field.all)
    by (by apply Forall_forall).
  unfold Field.all in Hin.
  repeat match goal with
         | H : Forall _ (_ :: _) |- _ =>
             let E := fresh "E" in apply Forall_cons in H as [E H]; rewrite E
         end.
  reflexivity.
Qed.

(** C1 (as amended): a top-level key that names no field of the schema is
    ignored by validation.  Wherever the key stands in the response, the
    response validates exactly as the mapping without that key does, adding
    the key changes nothing, and the key is absent from the validated
    result, so it never reaches the output file. *)
Theorem extra_key_ignored (L : lax) (kw : pydict) (k : str) :
  k ∉ Field.all ->
  GFGProfile_new L (JObj kw) = GFGProfile_new L (JObj (dict_remove k kw))
  /\ (k ∉ fst <$> dict_remove k kw)
  /\ (forall v : json,
        GFGProfile_new L (JObj (dict_set k v kw)) = GFGProfile_new L (JObj kw))
  /\ forall p : GFGProfile, dict_get k (to_dict p) = None.
Proof.
  intros Hk. split_and!.
  - unfold GFGProfile_new. rewrite (validate_agree L kw (dict_remove k kw)); [done|].
    intros k' Hk'. symmetry. apply dict_get_remove_ne. by intros ->.
  - apply dict_remove_absent.
  - intros v. unfold GFGProfile_new. by rewrite validate_set_other.
  - intros p. apply dict_get_None. by rewrite to_dict_keys.
Qed.

Lemma extra_key_ignored_witness :
  (Sample.contest_rating ∉ Field.all)
  /\ Json.loads Sample.reply_extra_first = Returns (JObj Sample.parsed_extra_first)
  /\ GFGProfile_new exact (JObj Sample.parsed_extra_first)
     = GFGProfile_new exact (JObj [(Field.username, JStr Sample.user)]).
Proof.
  assert (H : Sample.contest_rating ∉ Field.all).
  { apply (proj1 (bool_decide_eq_false _)). vm_compute. reflexivity. }
  split; [exact H|]. split; [vm_compute; reflexivity|].
  exact (proj1 (extra_key_ignored exact Sample.parsed_extra_first
                  Sample.contest_rating H)).
Defined.

(** C1 (as stated) fails: the reply below has the key [contest_rating], which
    is not a field of [GFGProfile]; the profile is built all the same, the
    run returns it without that key, and the output file is written. *)
Lemma extra_key_accepted :
  let run := gfg_to_json (Sample.answering Sample.reply_extra) exact
               Sample.user default_output_path ∅ in
  Json.loads Sample.reply_extra = Returns (JObj Sample.parsed_extra)
  /\ is_Some (dict_get (Sample.contest_rating) Sample.parsed_extra)
  /\ (Sample.contest_rating ∉ Field.all)
  /\ GFGProfile_new exact (JObj Sample.parsed_extra) = Returns Sample.bare
  /\ run.1 = Returns (to_dict Sample.bare)
  /\ dict_get (Sample.contest_rating) (to_dict Sample.bare) = None
  /\ run.2 !! default_output_path
     = Some (Whole (Json.dumps Json.indented (JObj (to_dict Sample.bare)))).
Proof.
  cbv zeta. split_and!.
  - vm_compute. reflexivity.
  - vm_compute. eauto.
  - apply (proj1 (bool_decide_eq_false _)). vm_compute. reflexivity.
  - vm_compute. reflexivity.
  - vm_compute. reflexivity.
  - vm_compute. reflexivity.
  - vm_compute. reflexivity.
Qed.

Lemma validate_fields (L : lax) (kw : pydict) (p : GFGProfile) :
  validate L kw = Some p ->
  (dict_get Field.username kw ≫= val_str L) = Some (username p)
  /\ field (val_opt_int L) None Field.followers kw = Some (followers p)
  /\ field (val_opt_int L) None Field.following kw = Some (following p)
  /\ field (val_opt_int L) None Field.problems_solved kw = Some (problems_solved p)
  /\ field (val_opt_int L) None Field.articles_count kw = Some (articles_count p)
  /\ field (val_list_str L) [] Field.badges kw = Some (badges p)
  /\ field (val_list_str L) [] Field.top_skills kw = Some (top_skills p).
Proof.
  unfold validate. intros H.
  repeat match type of H with
         | (?m ≫= _) = Some _ =>
             let E := fresh "E" in
             destruct m eqn:E; cbn [mbind option_bind] in H; [|discriminate H]
         end.
  injection H as <-. cbn. done.
Qed.

(** What [int | None] makes of a value. *)
Lemma val_opt_int_spec (L : lax) (v : json) (o : option Z) :
  val_opt_int L v = Some o ->
  match v with
  | JNull => o = None
  | JInt z => o = Some z
  | _ => exists z, lax_int L v = Some z /\ o = Some z
  end.
Proof.
  destruct v; cbn; intros H; try (by injection H as <-);
    destruct (lax_int L _) as [z|] eqn:E; try discriminate H;
    injection H as <-; eauto.
Qed.

Lemma counter_field_kept (L : lax) (k : str) (kw : pydict) (o : option Z) :
  field (val_opt_int L) None k kw = Some o ->
  counter_kept L (dict_get k kw) (Some (json_opt JInt o)).
Proof.
  unfold field, counter_kept.
  destruct (dict_get k kw) as [v|]; [|by intros [= <-]].
  intros H%val_opt_int_spec.
  destruct v; try (by subst o); by destruct H as (z & ? & ->); exists z.
Qed.

(** C2 (as amended): in every accepted Profile each counter is null or an
    integer, and an integer given in the response is kept as it is, whatever
    its sign: the schema has no lower bound.  Each list field holds only
    strings. *)
Theorem accepted_profile_fields (L : lax) (parsed : json) (p : GFGProfile) :
  GFGProfile_new L parsed = Returns p ->
  exists kw : pydict, parsed = JObj kw
  /\ (forall k, k ∈ Field.numeric ->
        counter_kept L (dict_get k kw) (dict_get k (to_dict p))
        /\ (dict_get k (to_dict p) = Some JNull
            \/ exists z, dict_get k (to_dict p) = Some (JInt z)))
  /\ (forall k, k ∈ Field.lists ->
        exists l : list str, dict_get k (to_dict p) = Some (JArr (JStr <$> l))).
Proof.
  unfold GFGProfile_new.
  destruct parsed as [| | | | | |kw]; try discriminate.
  destruct (validate L kw) as [p'|] eqn:Hv; [|discriminate].
  intros [= ->]. exists kw. split; [done|].
  apply validate_fields in Hv as (_ & H1 & H2 & H3 & H4 & _).
  split.
  - intros k Hk. unfold Field.numeric in Hk.
    assert (Hshape : forall o : option Z,
              json_opt JInt o = JNull \/ exists z, json_opt JInt o = JInt z).
    { intros [z|]; cbn; eauto. }
    repeat (apply elem_of_cons in Hk as [->|Hk]);
      [ apply counter_field_kept in H1
      | apply counter_field_kept in H2
      | apply counter_field_kept in H3
      | apply counter_field_kept in H4
      | by apply elem_of_nil in Hk ];
      (split; [assumption|]).
    + destruct (Hshape (followers p)) as [E|[z E]]; [left|right; exists z];
        cbn; by rewrite E.
    + destruct (Hshape (following p)) as [E|[z E]]; [left|right; exists z];
        cbn; by rewrite E.
    + destruct (Hshape (problems_solved p)) as [E|[z E]]; [left|right; exists z];
        cbn; by rewrite E.
    + destruct (Hshape (articles_count p)) as [E|[z E]]; [left|right; exists z];
        cbn; by rewrite E.
  - intros k Hk. unfold Field.lists in Hk.
    repeat (apply elem_of_cons in Hk as [->|Hk]);
      [ by exists (badges p) | by exists (top_skills p)
      | by apply elem_of_nil in Hk ].
Qed.

Lemma accepted_profile_fields_witness :
  GFGProfile_new exact (JObj Sample.parsed_negative)
  = Returns Sample.indebted
  /\ counter_kept exact (Some (JInt (-5))) (Some (JInt (-5))).
Proof.
  assert (H : GFGProfile_new exact (JObj Sample.parsed_negative)
              = Returns Sample.indebted).
  { vm_compute. reflexivity. }
  split; [exact H|].
  destruct (accepted_profile_fields _ _ _ H) as (kw & Hkw & Hnum & _).
  injection Hkw as <-.
  refine (proj1 (Hnum Field.followers _)).
  by left.
Defined.

(** C2 (as stated) fails: a response with [followers] equal to -5 is
    accepted, and the Profile holds the negative number. *)
Lemma negative_counter_accepted :
  Json.loads Sample.reply_negative = Returns (JObj Sample.parsed_negative)
  /\ exists p : GFGProfile,
       GFGProfile_new exact (JObj Sample.parsed_negative) = Returns p
       /\ followers p = Some (-5)%Z
       /\ (-5 < 0)%Z.
Proof.
  split; [vm_compute; reflexivity|].
  eexists. split; [vm_compute; reflexivity|]. split; [reflexivity|]. done.
Qed.

(** ** Fetching *)

Lemma fetch_each_not_ok (W : world) (us : list str) :
  (forall url, url ∈ us ->
     exists r, requests_get W url = Returns r /\ status_code r <> 200%Z) ->
  fetch_each W us = Returns None.
Proof.
  induction us as [|url us IH]; intros H; [done|].
  destruct (H url) as (r & Hr & Hs); [by left|].
  cbn. rewrite Hr. cbn.
  apply Z.eqb_neq in Hs. rewrite Hs.
  apply IH. intros url' Hin. apply H. by right.
Qed.

(** A transport exception on the first request ends the fetch: the second
    address is not tried and nothing catches the exception. *)
Lemma fetch_transport_error (W : world) (u : str) (e : exn) :
  requests_get W (of_string "https://auth.geeksforgeeks.org/user/" ++ u)
    = Raises e ->
  fetch_gfg_profile W u = Raises e.
Proof. intros H. unfold fetch_gfg_profile, urls. cbn [fetch_each]. by rewrite H. Qed.

(** C3 (as amended): when both addresses answer with a status other than 200,
    [gfg_to_json] raises [ValueError] with the message "Profile not found or
    private." and leaves no file at the output path. *)
Theorem not_found_when_both_not_ok (W : world) (L : lax) (u p : str) (d : disk) :
  both_not_ok W u ->
  gfg_to_json W L u p d = (Raises (ValueError msg_not_found), delete p d)
  /\ delete p d !! p = None.
Proof.
  intros H. split; [|apply lookup_delete_eq].
  rewrite gfg_to_json_steps. unfold normalize, fetch_gfg_profile.
  by rewrite (fetch_each_not_ok _ _ H).
Qed.

Lemma not_found_when_both_not_ok_witness :
  both_not_ok Sample.unknown_user Sample.user
  /\ gfg_to_json Sample.unknown_user exact Sample.user default_output_path
       {[ default_output_path := Whole [] ]}
     = (Raises (ValueError msg_not_found),
        delete default_output_path {[ default_output_path := Whole [] ]}).
Proof.
  assert (H : both_not_ok Sample.unknown_user Sample.user).
  { intros url _. eexists. split; [reflexivity|]. cbn. discriminate. }
  split; [exact H|].
  exact (proj1 (not_found_when_both_not_ok Sample.unknown_user exact
                  Sample.user default_output_path _ H)).
Defined.

(** C3 (as stated) fails: when the requests fail in transport, the run ends
    with the transport exception, not with the [ValueError]. *)
Lemma transport_error_not_wrapped :
  requests_get Sample.offline <$> urls Sample.user
    = [Raises RequestException; Raises RequestException]
  /\ (gfg_to_json Sample.offline exact Sample.user default_output_path ∅).1
     = Raises RequestException
  /\ Raises (A := pydict) RequestException <> Raises (ValueError msg_not_found).
Proof. split_and!; [reflexivity | vm_compute; reflexivity | discriminate]. Qed.

(** ** The output file *)

(** C10: the old file is removed before anything else, whatever the world
    does; so a run that fails while fetching, extracting, calling the model,
    parsing the reply or validating it (any exception but the encoding error
    of the final write) leaves no file at the output path. *)
Theorem failed_run_leaves_no_file
    (W : world) (L : lax) (u p : str) (d d' : disk) (e : exn) :
  gfg_to_json W L u p d = (Raises e, d') ->
  e <> UnicodeEncodeError ->
  d' = delete p d /\ d' !! p = None.
Proof.
  intros Hrun He.
  destruct (gfg_to_json_raises _ _ _ _ _ _ _ Hrun He) as [_ ->].
  split; [done|apply lookup_delete_eq].
Qed.

Lemma failed_run_leaves_no_file_witness :
  gfg_to_json Sample.offline exact Sample.user default_output_path
    {[ default_output_path := Whole [] ]}
  = (Raises RequestException, ∅)
  /\ RequestException <> UnicodeEncodeError
  /\ (∅ : disk) !! default_output_path = None.
Proof.
  assert (H : gfg_to_json Sample.offline exact Sample.user default_output_path
                {[ default_output_path := Whole [] ]}
              = (Raises RequestException, ∅)).
  { vm_compute. reflexivity. }
  assert (H' : RequestException <> UnicodeEncodeError) by discriminate.
  split; [exact H|]. split; [exact H'|].
  exact (proj2 (failed_run_leaves_no_file _ _ _ _ _ _ _ H H')).
Defined.

(** The one failure that leaves a file behind is the write itself: the text
    is encoded while it is written, and a string that UTF-8 cannot encode
    stops the write after the file was opened. *)
Lemma write_failure_leaves_partial_file :
  gfg_to_json (Sample.answering Sample.reply_surrogate) exact Sample.user
    default_output_path ∅
  = (Raises UnicodeEncodeError, {[ default_output_path := Partial ]}).
Proof. vm_compute. reflexivity. Qed.

(** C8: after two successful runs on the same path, the file is the second
    run's result written out, and the disk is what the second run alone would
    have left: nothing of the first run's output is kept. *)
Theorem second_run_replaces_first
    (W1 W2 : world) (L : lax) (u1 u2 p : str) (d d1 d2 : disk)
    (r1 r2 : pydict) :
  gfg_to_json W1 L u1 p d = (Returns r1, d1) ->
  gfg_to_json W2 L u2 p d1 = (Returns r2, d2) ->
  d2 !! p = Some (Whole (Json.dumps Json.indented (JObj r2)))
  /\ gfg_to_json W2 L u2 p d = (Returns r2, d2).
Proof.
  intros [_ ->]%gfg_to_json_returns H2.
  pose proof (gfg_to_json_returns _ _ _ _ _ _ _ H2) as [Hn ->].
  split; [apply lookup_insert_eq|].
  rewrite gfg_to_json_steps in H2 |- *.
  rewrite Hn in H2 |- *. cbv zeta in H2 |- *.
  destruct (utf8_encodable _); [|done].
  by rewrite delete_insert_eq, delete_delete_eq.
Qed.

Lemma second_run_replaces_first_witness :
  gfg_to_json (Sample.answering Sample.reply_negative) exact Sample.user
    default_output_path ∅
  = (Returns (to_dict Sample.indebted), Sample.saved (to_dict Sample.indebted))
  /\ gfg_to_json (Sample.answering Sample.reply_extra) exact Sample.user
       default_output_path (Sample.saved (to_dict Sample.indebted))
     = (Returns (to_dict Sample.bare), Sample.saved (to_dict Sample.bare))
  /\ Sample.saved (to_dict Sample.bare) !! default_output_path
     = Some (Whole (Json.dumps Json.indented (JObj (to_dict Sample.bare)))).
Proof.
  assert (H1 : gfg_to_json (Sample.answering Sample.reply_negative) exact
                 Sample.user default_output_path ∅
               = (Returns (to_dict Sample.indebted),
                  Sample.saved (to_dict Sample.indebted))).
  { vm_compute. reflexivity. }
  assert (H2 : gfg_to_json (Sample.answering Sample.reply_extra) exact
                 Sample.user default_output_path
                 (Sample.saved (to_dict Sample.indebted))
               = (Returns (to_dict Sample.bare),
                  Sample.saved (to_dict Sample.bare))).
  { vm_compute. reflexivity. }
  split; [exact H1|]. split; [exact H2|].
  exact (proj1 (second_run_replaces_first _ _ _ _ _ _ _ _ _ _ _ H1 H2)).
Defined.

(** ** Extraction *)

(** When no selector finds a tag and no counter pattern matches, the result
    holds the four counters as null and the text excerpt, and nothing else. *)
Lemma parse_profile_html_nothing_found (bs : str -> soup) (html : str) :
  select_one sel_name (bs html) = None ->
  select_one sel_about (bs html) = None ->
  (forall pat, pat ∈ counter_patterns ->
     re_search pat (visible_text (bs html)) = None) ->
  select sel_badges (bs html) = [] ->
  select sel_skills (bs html) = [] ->
  parse_profile_html bs html
  = Returns [ (Field.followers, JNull); (Field.following, JNull);
              (Field.problems_solved, JNull); (Field.articles_count, JNull);
              (Key.raw_text_snippet, JStr (take 2000 (visible_text (bs html)))) ].
Proof.
  intros Hn Ha Hc Hb Hs. unfold parse_profile_html, grab_num.
  rewrite Hn, Ha, Hb, Hs.
  rewrite !Hc by (unfold counter_patterns; set_solver).
  reflexivity.
Qed.

(** C4 (code defect): a [.skill] tag without text.  No name or about selector
    finds a tag, no counter pattern matches, and no badge or skill tag has
    text; yet the result lists [top_skills] with one empty string, because
    the skills are not filtered for empty text the way the badges are. *)
Theorem empty_skill_is_listed :
  let doc := Sample.empty_skill in
  select_one sel_name doc = None
  /\ select_one sel_about doc = None
  /\ Forall (fun pat => re_search pat (visible_text doc) = None) counter_patterns
  /\ Forall (fun e => stripped_text e = [])
       (select sel_badges doc ++ select sel_skills doc)
  /\ parse_profile_html (fun _ => doc) Sample.empty_skill_html
     = Returns [ (Field.followers, JNull); (Field.following, JNull);
                 (Field.problems_solved, JNull); (Field.articles_count, JNull);
                 (Field.top_skills, JArr [JStr []]);
                 (Key.raw_text_snippet, JStr []) ].
Proof.
  cbv zeta. split_and!; try (vm_compute; reflexivity).
  - repeat constructor.
  - vm_compute. repeat constructor.
Qed.

(** ** Reading the model's reply *)

Lemma from_first_app (c : char) (pre rest : str) :
  c ∉ pre -> from_first c (pre ++ c :: rest) = Some rest.
Proof.
  induction pre as [|x pre IH]; intros Hc; cbn.
  - by rewrite N.eqb_refl.
  - apply not_elem_of_cons in Hc as [Hne Hc].
    destruct (x =? c) eqn:E; [apply N.eqb_eq in E; congruence|].
    by apply IH.
Qed.

Lemma through_last_absent (c : char) (s : str) :
  c ∉ s -> through_last c s = None.
Proof.
  induction s as [|x s IH]; intros Hc; [done|].
  apply not_elem_of_cons in Hc as [Hne Hc]. cbn.
  rewrite IH by done.
  destruct (x =? c) eqn:E; [apply N.eqb_eq in E; congruence|done].
Qed.

Lemma through_last_app (c : char) (body post : str) :
  c ∉ post -> through_last c (body ++ c :: post) = Some (body ++ [c]).
Proof.
  intros Hc. induction body as [|x body IH]; cbn.
  - by rewrite through_last_absent, N.eqb_refl.
  - by rewrite IH.
Qed.

(** The search finds the object when the prose before it has no opening
    brace and the prose after it has no closing brace. *)
Lemma brace_search_plain_prose (pre body post : str) :
  123 ∉ pre -> 125 ∉ post ->
  brace_search (pre ++ (123 :: body ++ [125]) ++ post)
  = Some (123 :: body ++ [125]).
Proof.
  intros Hpre Hpost. unfold brace_search.
  change ((123 :: body ++ [125]) ++ post) with (123 :: (body ++ [125]) ++ post).
  rewrite from_first_app by done. cbn.
  rewrite <- app_assoc. cbn.
  by rewrite through_last_app.
Qed.

(** When the reply has no brace pair, the failure is the [ValueError] that
    carries the whole reply. *)
Lemma parse_response_no_braces (response : str) (e : exn) :
  Json.loads response = Raises e ->
  brace_search response = None ->
  parse_response response = Raises (ValueError (msg_invalid_json ++ response)).
Proof. intros H1 H2. unfold parse_response. by rewrite H1, H2. Qed.

(** C5 (as amended): a reply that is not JSON as a whole but holds a JSON
    object between prose is parsed by the fallback, provided the prose before
    the object has no opening brace and the prose after it has no closing
    brace. *)
Theorem object_in_plain_prose_is_parsed
    (pre body post : str) (e : exn) (v : json) :
  123 ∉ pre -> 125 ∉ post ->
  Json.loads (pre ++ (123 :: body ++ [125]) ++ post) = Raises e ->
  Json.loads (123 :: body ++ [125]) = Returns v ->
  parse_response (pre ++ (123 :: body ++ [125]) ++ post) = Returns v.
Proof.
  intros Hpre Hpost Hraw Hobj. unfold parse_response.
  by rewrite Hraw, brace_search_plain_prose.
Qed.

Lemma object_in_plain_prose_is_parsed_witness :
  (123 ∉ of_string "Here is the result: ")
  /\ (125 ∉ of_string " Thanks!")
  /\ Json.loads (of_string "Here is the result: "
                 ++ (123 :: quoted "'username': 'ann'" ++ [125])
                 ++ of_string " Thanks!") = Raises JSONDecodeError
  /\ Json.loads (123 :: quoted "'username': 'ann'" ++ [125])
     = Returns (JObj [(Field.username, JStr Sample.user)])
  /\ parse_response (of_string "Here is the result: "
                     ++ (123 :: quoted "'username': 'ann'" ++ [125])
                     ++ of_string " Thanks!")
     = Returns (JObj [(Field.username, JStr Sample.user)]).
Proof.
  assert (H1 : 123 ∉ of_string "Here is the result: ").
  { apply (proj1 (bool_decide_eq_false _)). vm_compute. reflexivity. }
  assert (H2 : 125 ∉ of_string " Thanks!").
  { apply (proj1 (bool_decide_eq_false _)). vm_compute. reflexivity. }
  assert (H3 : Json.loads (of_string "Here is the result: "
                 ++ (123 :: quoted "'username': 'ann'" ++ [125])
                 ++ of_string " Thanks!") = Raises JSONDecodeError).
  { vm_compute. reflexivity. }
  assert (H4 : Json.loads (123 :: quoted "'username': 'ann'" ++ [125])
               = Returns (JObj [(Field.username, JStr Sample.user)])).
  { vm_compute. reflexivity. }
  split; [exact H1|]. split; [exact H2|]. split; [exact H3|].
  split; [exact H4|].
  exact (object_in_plain_prose_is_parsed _ _ _ _ _ H1 H2 H3 H4).
Defined.

(** C5 (as stated) fails: the prose before the object has braces of its own,
    so the span from the first opening brace to the last closing brace is not
    JSON, and the run ends with the decoder's error. *)
Lemma object_in_braced_prose_is_lost :
  let response := Sample.prose_pre ++ Sample.prose_obj ++ Sample.prose_post in
  Json.loads response = Raises JSONDecodeError
  /\ Json.loads Sample.prose_obj = Returns (JObj [(Field.username, JStr Sample.user)])
  /\ brace_search response
     = Some (of_string "{as asked} is the result: " ++ Sample.prose_obj)
  /\ parse_response response = Raises JSONDecodeError
  /\ (gfg_to_json (Sample.answering response) exact Sample.user
        default_output_path ∅).1 = Raises JSONDecodeError.
Proof. cbv zeta. split_and!; vm_compute; reflexivity. Qed.

(** C6 (code defect): the reply [{oops}] is not JSON and neither is its brace
    span.  The second [json.loads] runs inside the handler, so its error
    leaves [gfg_to_json] as it is, not as the [ValueError] that carries the
    reply. *)
Theorem unparsable_braces_raise_decode_error :
  Json.loads Sample.reply_oops = Raises JSONDecodeError
  /\ brace_search Sample.reply_oops = Some Sample.reply_oops
  /\ parse_response Sample.reply_oops = Raises JSONDecodeError
  /\ gfg_to_json (Sample.answering Sample.reply_oops) exact Sample.user
       default_output_path ∅ = (Raises JSONDecodeError, ∅)
  /\ JSONDecodeError <> ValueError (msg_invalid_json ++ Sample.reply_oops).
Proof. split_and!; try (vm_compute; reflexivity). discriminate. Qed.

(** ** The counter search *)

(** Turn boolean comparisons on [N] into propositions. *)
Ltac nprop :=
  rewrite ?orb_true_iff, ?andb_true_iff, ?orb_false_iff, ?andb_false_iff,
    ?negb_true_iff, ?negb_false_iff,
    ?N.eqb_eq, ?N.eqb_neq, ?N.leb_le, ?N.leb_gt, ?N.ltb_lt, ?N.ltb_ge in *.

Lemma isdigit_range (c : char) : isdigit c = true <-> 48 <= c <= 57.
Proof. unfold isdigit. nprop. lia. Qed.

Lemma isdigit_cases (c : char) :
  isdigit c = true ->
  c = 48 \/ c = 49 \/ c = 50 \/ c = 51 \/ c = 52 \/ c = 53 \/ c = 54 \/ c = 55
  \/ c = 56 \/ c = 57.
Proof. rewrite isdigit_range. lia. Qed.

Lemma is_grp_not_sep (c : char) : is_grp c = true -> is_sep c = false.
Proof.
  unfold is_grp. rewrite orb_true_iff, N.eqb_eq.
  intros [H%isdigit_cases | ->]; [|reflexivity].
  repeat destruct H as [->|H]; try subst c; reflexivity.
Qed.

Lemma match_literal_ci (l lab r : str) :
  Forall2 (fun p t => ci_match p t = true) l lab ->
  match_literal l (lab ++ r) = Some r.
Proof.
  induction 1 as [|p t l lab Hpt _ IH]; cbn; [done|].
  by rewrite Hpt.
Qed.

Lemma span_app (f : char -> bool) (a r : str) :
  Forall (fun c => f c = true) a ->
  match r with c :: _ => f c = false | [] => True end ->
  span f (a ++ r) = (a, r).
Proof.
  intros Ha Hr. induction Ha as [|c a Hc _ IH]; cbn.
  - destruct r as [|c r]; cbn; [done|]. by rewrite Hr.
  - by rewrite Hc, IH.
Qed.

(** The group found after a label: the separators are skipped and the whole
    run of digits and commas is taken. *)
Lemma group_after_label (seps grp rest : str) :
  Forall (fun c => is_sep c = true) seps ->
  Forall (fun c => is_grp c = true) grp ->
  grp <> [] ->
  match rest with c :: _ => is_grp c = false | [] => True end ->
  (span is_grp (span is_sep (seps ++ grp ++ rest)).2).1 = grp.
Proof.
  intros Hs Hg Hne Hr.
  rewrite (span_app is_sep seps (grp ++ rest) Hs).
  - cbn. by rewrite (span_app is_grp grp rest Hg Hr).
  - destruct grp as [|c grp]; [done|]. cbn.
    apply is_grp_not_sep. by inversion Hg.
Qed.

Lemma match_at_here (l : str) (ls : list str) (s r g : str) :
  match_literal l s = Some r ->
  (span is_grp (span is_sep r).2).1 = g ->
  g <> [] ->
  match_at (l :: ls) s = Some g.
Proof. intros Hl Hg Hne. cbn. rewrite Hl, Hg. by destruct g. Qed.

Lemma match_at_next (p : char) (l : str) (ls : list str) (t : char) (s : str) :
  ci_match p t = false ->
  match_at ((p :: l) :: ls) (t :: s) = match_at ls (t :: s).
Proof. intros H. cbn. by rewrite H. Qed.

(** A character cannot start both alternatives of a pattern: they begin with
    different letters. *)
Lemma ci_match_S_not_P (t : char) : ci_match 83 t = true -> ci_match 80 t = false.
Proof.
  unfold ci_match, ascii_lower. cbn.
  destruct ((65 <=? t) && (t <=? 90)) eqn:E; nprop; lia.
Qed.

Lemma ci_match_P_not_A (t : char) : ci_match 80 t = true -> ci_match 65 t = false.
Proof.
  unfold ci_match, ascii_lower. cbn.
  destruct ((65 <=? t) && (t <=? 90)) eqn:E; nprop; lia.
Qed.

Lemma match_at_label (pat : list str) (l lab seps grp rest : str) :
  pat ∈ counter_patterns ->
  l ∈ pat ->
  Forall2 (fun p t => ci_match p t = true) l lab ->
  Forall (fun c => is_sep c = true) seps ->
  Forall (fun c => is_grp c = true) grp ->
  grp <> [] ->
  match rest with c :: _ => is_grp c = false | [] => True end ->
  match_at pat (lab ++ seps ++ grp ++ rest) = Some grp.
Proof.
  intros Hpat Hl Hlab Hs Hg Hne Hr.
  pose proof (match_literal_ci l lab (seps ++ grp ++ rest) Hlab) as Hlit.
  pose proof (group_after_label seps grp rest Hs Hg Hne Hr) as Hgrp.
  unfold counter_patterns in Hpat.
  repeat (apply elem_of_cons in Hpat as [->|Hpat]);
    [ | | | | by apply elem_of_nil in Hpat ].
  - apply list_elem_of_singleton in Hl as ->. by eapply match_at_here.
  - apply list_elem_of_singleton in Hl as ->. by eapply match_at_here.
  - unfold pat_problems in Hl.
    apply elem_of_cons in Hl as [->|Hl]; [by eapply match_at_here|].
    apply list_elem_of_singleton in Hl as ->.
    destruct lab as [|t lab]; [inversion Hlab|].
    assert (Ht : ci_match 83 t = true) by (by inversion Hlab).
    unfold pat_problems. cbn [app].
    rewrite match_at_next by (by apply ci_match_S_not_P).
    by eapply match_at_here.
  - unfold pat_articles in Hl.
    apply elem_of_cons in Hl as [->|Hl]; [by eapply match_at_here|].
    apply list_elem_of_singleton in Hl as ->.
    destruct lab as [|t lab]; [inversion Hlab|].
    assert (Ht : ci_match 80 t = true) by (by inversion Hlab).
    unfold pat_articles. cbn [app].
    rewrite match_at_next by (by apply ci_match_P_not_A).
    by eapply match_at_here.
Qed.

Lemma re_search_here (pat : list str) (s g : str) :
  match_at pat s = Some g -> re_search pat s = Some g.
Proof. intros H. destruct s; cbn; by rewrite H. Qed.

Lemma re_search_skip (pat : list str) (pre s : str) :
  (forall i, (i < length pre)%nat -> match_at pat (drop i (pre ++ s)) = None) ->
  re_search pat (pre ++ s) = re_search pat s.
Proof.
  induction pre as [|x pre IH]; intros H; [done|].
  assert (H0 : match_at pat (x :: pre ++ s) = None).
  { apply (H 0%nat). cbn. lia. }
  cbn [app re_search]. rewrite H0.
  apply IH. intros i Hi. apply (H (S i)). cbn. lia.
Qed.

Lemma re_search_none (pat : list str) (text : str) :
  (forall i, (i <= length text)%nat -> match_at pat (drop i text) = None) ->
  re_search pat text = None.
Proof.
  induction text as [|x text IH]; intros H.
  - assert (H0 : match_at pat [] = None) by (by apply (H 0%nat)).
    cbn [re_search]. by rewrite H0.
  - assert (H0 : match_at pat (x :: text) = None).
    { apply (H 0%nat). cbn. lia. }
    cbn [re_search]. rewrite H0.
    apply IH. intros i Hi. apply (H (S i)). cbn. lia.
Qed.

Lemma remove_commas_nonempty (grp : str) :
  (exists c, c ∈ grp /\ isdigit c = true) -> Str.remove_char 44 grp <> [].
Proof.
  intros (c & Hin & Hd) Hnil.
  assert (Hc : c ∈ Str.remove_char 44 grp).
  { unfold Str.remove_char. apply list_elem_of_filter. split; [|done].
    apply isdigit_range in Hd. lia. }
  rewrite Hnil in Hc. by apply elem_of_nil in Hc.
Qed.

(** C7 (as amended): for each of the four counter patterns, when the
    leftmost match is a label (in any letter case), separators, and a maximal
    group of digits and commas with at least one digit, [grab_num] gives the
    number written by the digits with the commas removed, or the
    [ValueError] of [int] when these are more than 4300 digits; when the
    pattern matches nowhere in the text, [grab_num] returns [None], whatever
    the other patterns find. *)
Theorem grab_num_leftmost_group (pat : list str) (text : str) :
  pat ∈ counter_patterns ->
  (forall l lab pre seps grp rest : str,
     l ∈ pat ->
     Forall2 (fun p t => ci_match p t = true) l lab ->
     text = pre ++ lab ++ seps ++ grp ++ rest ->
     (forall i, (i < length pre)%nat -> match_at pat (drop i text) = None) ->
     Forall (fun c => is_sep c = true) seps ->
     Forall (fun c => is_grp c = true) grp ->
     (exists c, c ∈ grp /\ isdigit c = true) ->
     match rest with c :: _ => is_grp c = false | [] => True end ->
     grab_num text pat
     = if Nat.ltb 4300 (length (Str.remove_char 44 grp))
       then Raises (ValueError (msg_int_limit (length (Str.remove_char 44 grp))))
       else Returns (Some (digits_value (Str.remove_char 44 grp))))
  /\ ((forall i, (i <= length text)%nat -> match_at pat (drop i text) = None) ->
      grab_num text pat = Returns None).
Proof.
  intros Hpat. split.
  - intros l lab pre seps grp rest Hl Hlab -> Hfirst Hs Hg Hd Hr.
    assert (Hne : grp <> []).
    { destruct Hd as (c & Hc & _). intros ->. by apply elem_of_nil in Hc. }
    unfold grab_num.
    rewrite (re_search_skip _ _ _ Hfirst).
    rewrite (re_search_here _ _ grp)
      by (by apply (match_at_label pat l)).
    pose proof (remove_commas_nonempty grp Hd) as Hrm.
    unfold py_int, int_max_str_digits.
    destruct (Str.remove_char 44 grp) as [|c s]; [done|].
    by destruct (4300 <? length (c :: s))%nat.
  - intros Hnone. unfold grab_num. by rewrite re_search_none.
Qed.

Lemma grab_num_leftmost_group_witness :
  (pat_followers ∈ counter_patterns)
  /\ grab_num Sample.followers_text pat_followers = Returns (Some 12345%Z)
  /\ (pat_following ∈ counter_patterns)
  /\ grab_num Sample.followers_text pat_following = Returns None.
Proof.
  assert (H1 : pat_followers ∈ counter_patterns) by (by left).
  assert (H2 : pat_following ∈ counter_patterns) by (right; by left).
  split; [exact H1|]. split; [|split; [exact H2|]].
  - refine (proj1 (grab_num_leftmost_group _ Sample.followers_text H1)
              Sample.followers_label Sample.followers_label []
              Sample.followers_seps Sample.followers_group [] _ _ _ _ _ _ _ _).
    + by left.
    + repeat constructor.
    + reflexivity.
    + cbn. intros i Hi. lia.
    + repeat constructor.
    + repeat constructor.
    + exists 49. split; [by left|reflexivity].
    + exact I.
  - refine (proj2 (grab_num_leftmost_group _ Sample.followers_text H2) _).
    intros i Hi. cbn in Hi.
    do 18 (destruct i as [|i]; [vm_compute; reflexivity|]). lia.
Defined.

(** C7 (as stated) fails: each text below contains [Followers: 12,345], yet
    the search stops at an earlier match of the pattern.  In the first the
    result is 1; in the second the earlier group is a lone comma and [int]
    raises.  A group of 4301 digits raises as well. *)
Lemma earlier_match_hides_group :
  Sample.followers_twice
  = of_string "Followers 1, then " ++ Sample.followers_text
  /\ grab_num Sample.followers_twice pat_followers = Returns (Some 1%Z)
  /\ Sample.followers_comma_first
     = of_string "My followers, see " ++ Sample.followers_text
  /\ grab_num Sample.followers_comma_first pat_followers
     = Raises (ValueError
                 (of_string "invalid literal for int() with base 10: ''"))
  /\ grab_num (Sample.followers_label ++ Sample.followers_seps
               ++ replicate 4301 49) pat_followers
     = Raises (ValueError (msg_int_limit 4301)).
Proof. split_and!; vm_compute; reflexivity. Qed.

(** ** Numbers *)

Import Json.

Lemma span_inv (f : char -> bool) (s a b : str) :
  span f s = (a, b) ->
  s = a ++ b
  /\ Forall (fun c => f c = true) a
  /\ match b with c :: _ => f c = false | [] => True end.
Proof.
  revert a b. induction s as [|c s IH]; intros a b; cbn.
  - by intros [= <- <-].
  - destruct (f c) eqn:Hc.
    + destruct (span f s) as [a' b'] eqn:Hs. intros [= <- <-].
      destruct (IH _ _ eq_refl) as (-> & Ha & Hb). by repeat split; [constructor|].
    + intros [= <- <-]. by repeat split.
Qed.

Lemma no_digit_next_app (a rest : str) :
  no_digit_next a -> (a = [] -> no_digit_next rest) -> no_digit_next (a ++ rest).
Proof. destruct a; cbn; auto. Qed.

(** *** The integer digits *)

Lemma scan_int_spec (s ip r : str) :
  scan_int s = Some (ip, r) <-> s = ip ++ r /\ int_shape ip r.
Proof.
  unfold scan_int, int_shape. split.
  - destruct s as [|c t]; [done|].
    destruct ((49 <=? c) && (c <=? 57)) eqn:E.
    + destruct (span isdigit t) as [ds r'] eqn:Hs. intros [= <- <-].
      apply span_inv in Hs as (-> & Hds & Hr).
      split; [done|]. right. exists c, ds. nprop. destruct E.
      by repeat split.
    + destruct (c =? 48) eqn:E0; [|done]. intros [= <- <-].
      apply N.eqb_eq in E0 as ->. split; [done|]. by left.
  - intros [-> [-> | (c & ds & -> & Hc & Hds & Hr)]]; [done|].
    cbn. replace ((49 <=? c) && (c <=? 57)) with true by (symmetry; nprop; lia).
    by rewrite (span_app isdigit ds r Hds Hr).
Qed.

(** *** The fraction *)

Lemma scan_frac_spec (s fp r : str) :
  scan_frac s = (fp, r) <-> s = fp ++ r /\ frac_shape fp r.
Proof.
  unfold frac_shape. split.
  - intros H. pose proof H as H'. unfold scan_frac in H.
    destruct s as [|p [|d t]]; try (injection H as <- <-; split; [done|by left]).
    destruct ((p =? 46) && isdigit d) eqn:E.
    + destruct (span isdigit t) as [ds r'] eqn:Hs. injection H as <- <-.
      apply span_inv in Hs as (-> & Hds & Hr).
      apply andb_true_iff in E as [->%N.eqb_eq Hd].
      split; [done|]. right. by exists d, ds.
    + injection H as <- <-. split; [done|by left].
  - intros [-> [[-> Hr] | (d & ds & -> & Hd & Hds & Hr)]]; [done|].
    cbn. rewrite Hd. cbn. by rewrite (span_app isdigit ds r Hds Hr).
Qed.

(** *** The exponent *)

Lemma scan_exp_spec (s ep r : str) :
  scan_exp s = (ep, r) <-> s = ep ++ r /\ exp_shape ep r.
Proof.
  unfold exp_shape. split.
  - intros H. pose proof H as H'. unfold scan_exp in H.
    destruct s as [|e t]; [injection H as <- <-; split; [done|by left]|].
    destruct ((e =? 101) || (e =? 69)) eqn:E;
      [|injection H as <- <-; split; [done|by left]].
    assert (He : e = 101 \/ e = 69) by (nprop; lia).
    destruct t as [|c t'].
    { cbn in H. injection H as <- <-. split; [done|by left]. }
    destruct ((c =? 45) || (c =? 43)) eqn:Ec.
    + destruct (span isdigit t') as [[|d ds] r'] eqn:Hs;
        [injection H as <- <-; split; [done|by left]|].
      injection H as <- <-.
      apply span_inv in Hs as (-> & Hds & Hr).
      split; [done|]. right. exists e, [c], d, ds.
      repeat split; try done. nprop. destruct Ec as [->| ->]; auto.
    + destruct (span isdigit (c :: t')) as [[|d ds] r'] eqn:Hs;
        [injection H as <- <-; split; [done|by left]|].
      injection H as <- <-.
      apply span_inv in Hs as (Heq & Hds & Hr). cbn [app]. rewrite Heq.
      split; [done|]. right. exists e, [], d, ds. by repeat split; auto.
  - intros [-> [[-> Hr] | (e & sg & d & ds & -> & He & Hsg & Hds & Hr)]]; [done|].
    assert (Hd : isdigit d = true) by (by inversion Hds).
    assert (Hd' : (d =? 45) || (d =? 43) = false).
    { apply isdigit_range in Hd. nprop. lia. }
    unfold scan_exp. cbn [app].
    replace ((e =? 101) || (e =? 69)) with true
      by (symmetry; nprop; lia).
    assert (Hsp : span isdigit (d :: ds ++ r) = (d :: ds, r))
      by exact (span_app isdigit (d :: ds) r Hds Hr).
    destruct Hsg as [-> | [-> | ->]]; cbn [app].
    + by rewrite Hd', Hsp.
    + change ((45 =? 45) || (45 =? 43)) with true. cbv iota. by rewrite Hsp.
    + change ((43 =? 45) || (43 =? 43)) with true. cbv iota. by rewrite Hsp.
Qed.

(** *** Whole numbers and floats *)

Lemma int_shape_head (ip r : str) :
  int_shape ip r -> exists c t, ip = c :: t /\ isdigit c = true.
Proof.
  intros [-> | (c & ds & -> & Hc & _)]; [by exists 48, []|].
  exists c, ds. split; [done|]. apply isdigit_range. lia.
Qed.

Lemma match_number_spec (s : str) (v : json) (r : str) :
  match_number s = Some (v, r) <->
  exists sg ip fp ep,
    s = sg ++ ip ++ fp ++ ep ++ r
    /\ number_parts sg ip fp ep r
    /\ v = number_value sg ip fp ep.
Proof.
  unfold match_number, number_parts. split.
  - destruct (scan_sign s) as [sg s1] eqn:Hsg.
    destruct (scan_int s1) as [[ip s2]|] eqn:Hip; [|done]. cbn.
    destruct (scan_frac s2) as [fp s3] eqn:Hfp.
    destruct (scan_exp s3) as [ep s4] eqn:Hep.
    apply scan_int_spec in Hip as [-> Hip].
    apply scan_frac_spec in Hfp as [-> Hfp].
    apply scan_exp_spec in Hep as [-> Hep].
    intros Hv. exists sg, ip, fp, ep.
    assert (Hs : s = sg ++ ip ++ fp ++ ep ++ s4 /\ (sg = [] \/ sg = [45])).
    { unfold scan_sign in Hsg. destruct s as [|c t]; [by injection Hsg as <- <-; auto|].
      destruct (c =? 45) eqn:E; injection Hsg as <- <-; [|by auto].
      apply N.eqb_eq in E as ->. auto. }
    destruct Hs as [-> Hsign].
    assert (r = s4 /\ v = number_value sg ip fp ep) as [-> ->].
    { unfold number_value. by destruct fp, ep; injection Hv as <- <-. }
    done.
  - intros (sg & ip & fp & ep & -> & (Hsign & Hip & Hfp & Hep) & ->).
    destruct (int_shape_head _ _ Hip) as (c & t & -> & Hc).
    assert (Hsg : scan_sign (sg ++ (c :: t) ++ fp ++ ep ++ r)
                  = (sg, (c :: t) ++ fp ++ ep ++ r)).
    { destruct Hsign as [-> | ->]; [|done]. cbn.
      replace (c =? 45) with false; [done|].
      symmetry. apply isdigit_range in Hc. nprop. lia. }
    rewrite Hsg.
    rewrite (proj2 (scan_int_spec _ (c :: t) (fp ++ ep ++ r))) by done. cbn [mbind option_bind].
    rewrite (proj2 (scan_frac_spec _ fp (ep ++ r))) by done.
    rewrite (proj2 (scan_exp_spec _ ep r)) by done.
    unfold number_value. by destruct fp, ep.
Qed.

Lemma exp_shape_head (ep r : str) :
  exp_shape ep r -> ep = [] \/ exists e t, ep = e :: t /\ (e = 101 \/ e = 69).
Proof.
  intros [[-> _] | (e & sg & d & ds & -> & He & _)]; [by left|].
  right. by exists e, (sg ++ d :: ds).
Qed.

Lemma scan_frac_not_point (c : char) (s : str) :
  c <> 46 -> scan_frac (c :: s) = ([], c :: s).
Proof.
  intros Hc. unfold scan_frac. destruct s as [|d t]; [done|].
  replace (c =? 46) with false; [done|]. symmetry. by apply N.eqb_neq.
Qed.

Lemma scan_exp_not_e (c : char) (s : str) :
  c <> 101 -> c <> 69 -> scan_exp (c :: s) = ([], c :: s).
Proof.
  intros H1 H2. unfold scan_exp.
  replace ((c =? 101) || (c =? 69)) with false; [done|]. symmetry. nprop. lia.
Qed.

(** The parts of a number stay its parts when the text after them changes
    from [r] to [r'], as long as [r'] cannot extend the number. *)
Lemma number_parts_rest (sg ip fp ep r r' : str) :
  number_parts sg ip fp ep r ->
  number_end r' ->
  number_parts sg ip fp ep r'.
Proof.
  intros (Hsign & Hip & Hfp & Hep) Hend.
  assert (Hnd : no_digit_next r').
  { destruct r' as [|c r']; [done|]. by destruct Hend. }
  assert (Hep' : exp_shape ep r').
  { destruct Hep as [[-> _] | (e & sg' & d & ds & -> & He & Hs & Hds & _)].
    - left. split; [done|]. destruct r' as [|c r']; [done|].
      destruct Hend as (_ & _ & ? & ?). by apply scan_exp_not_e.
    - right. by exists e, sg', d, ds. }
  assert (Hnd_ep : no_digit_next (ep ++ r')).
  { destruct (exp_shape_head _ _ Hep) as [-> | (e & t & -> & He)]; [done|].
    cbn. destruct He as [-> | ->]; reflexivity. }
  assert (Hfp' : frac_shape fp (ep ++ r')).
  { destruct Hfp as [[-> _] | (d & ds & -> & Hd & Hds & _)].
    - left. split; [done|].
      destruct (exp_shape_head _ _ Hep) as [-> | (e & t & -> & He)].
      + destruct r' as [|c r']; [done|].
        destruct Hend as (_ & ? & _). by apply scan_frac_not_point.
      + apply scan_frac_not_point. destruct He as [-> | ->]; discriminate.
    - right. by exists d, ds. }
  repeat split; try done.
  destruct Hip as [-> | (c & ds & -> & Hc & Hds & _)]; [by left|].
  right. exists c, ds. repeat split; try done; try lia.
  destruct Hfp as [[-> _] | (d & ds' & -> & _)]; [done|reflexivity].
Qed.

Lemma number_end_nil : number_end [].
Proof. exact I. Qed.

(** A number is read the same whatever follows it, if what follows cannot
    extend it. *)
Lemma match_number_rest (lit : str) (v : json) (r r' : str) :
  match_number (lit ++ r) = Some (v, r) ->
  number_end r' ->
  match_number (lit ++ r') = Some (v, r').
Proof.
  intros (sg & ip & fp & ep & Heq & Hparts & ->)%match_number_spec Hend.
  assert (lit = sg ++ ip ++ fp ++ ep) as ->.
  { apply (app_inv_tail r). by rewrite Heq, <- !app_assoc. }
  apply match_number_spec. exists sg, ip, fp, ep.
  split; [by rewrite <- !app_assoc|]. split; [|done].
  by apply (number_parts_rest _ _ _ _ r).
Qed.

(** A float read by the decoder is a float literal. *)
Lemma match_number_float_literal (s lit r : str) :
  match_number s = Some (JFloat lit, r) ->
  s = lit ++ r /\ match_number lit = Some (JFloat lit, []).
Proof.
  intros H.
  pose proof H as (sg & ip & fp & ep & Hs & Hparts & Hv)%match_number_spec.
  assert (lit = sg ++ ip ++ fp ++ ep) as Hlit.
  { unfold number_value in Hv. destruct fp, ep; congruence. }
  assert (Hs' : s = lit ++ r) by (by rewrite Hlit, Hs, <- !app_assoc).
  split; [done|]. rewrite Hs' in H.
  rewrite <- (app_nil_r lit) at 1.
  apply (match_number_rest lit _ r []); [exact H | exact I].
Qed.

(** *** Integers written by [repr_int] *)

Lemma uint_digits_isdigit (u : Decimal.uint) :
  Forall (fun c => isdigit c = true) (uint_digits u).
Proof. induction u; cbn; by constructor. Qed.

Lemma digits_value_acc (u : Decimal.uint) (acc : positive) :
  fold_left (fun a c => 10 * a + digit_value c)%Z (uint_digits u) (Z.pos acc)
  = Z.pos (Pos.of_uint_acc u acc).
Proof.
  revert acc. induction u; intros acc; cbn [uint_digits fold_left Pos.of_uint_acc];
    [done|..];
    rewrite <- IHu; f_equal; unfold digit_value; cbn; lia.
Qed.

Lemma digits_value_uint (u : Decimal.uint) :
  digits_value (uint_digits u) = Z.of_uint u.
Proof.
  unfold digits_value, Z.of_uint.
  induction u; cbn [uint_digits fold_left Pos.of_uint]; [done|exact IHu|..];
    apply (digits_value_acc u).
Qed.

Lemma to_uint_no_leading_zero (p : positive) (d : Decimal.uint) :
  Pos.to_uint p <> Decimal.D0 d.
Proof.
  intros H.
  pose proof (DecimalPos.Unsigned.to_of (Pos.to_uint p)) as Hn.
  rewrite DecimalPos.Unsigned.of_to in Hn.
  change (N.to_uint (N.pos p)) with (Pos.to_uint p) in Hn.
  rewrite H, DecimalFacts.unorm_D0 in Hn.
  assert (Hcase : Decimal.nzhead d = Decimal.Nil \/ Decimal.nzhead d <> Decimal.Nil).
  { destruct (Decimal.nzhead d); auto; right; discriminate. }
  destruct Hcase as [Hnil | Hnn].
  - apply DecimalFacts.unorm_0 in Hnil. rewrite Hnil in Hn.
    injection Hn as ->. by apply (DecimalPos.Unsigned.to_uint_nonzero p).
  - rewrite (DecimalFacts.unorm_nzhead _ Hnn) in Hn. symmetry in Hn.
    by apply DecimalFacts.nzhead_nonzero in Hn.
Qed.

Lemma to_uint_int_shape (p : positive) (r : str) :
  no_digit_next r -> int_shape (uint_digits (Pos.to_uint p)) r.
Proof.
  intros Hr. right.
  pose proof (uint_digits_isdigit (Pos.to_uint p)) as Hall.
  pose proof (to_uint_no_leading_zero p) as Hz.
  pose proof (DecimalPos.Unsigned.to_uint_nonnil p) as Hnil.
  destruct (Pos.to_uint p) as [|u|u|u|u|u|u|u|u|u|u]; [done|by destruct (Hz u)|..];
    cbn [uint_digits] in *; eexists _, _; (split; [reflexivity|]);
    (split; [lia|]); (split; [by inversion Hall|done]).
Qed.

Lemma number_end_no_digit (r : str) : number_end r -> no_digit_next r.
Proof. destruct r; [done|]. by intros []. Qed.

Lemma number_end_frac (r : str) : number_end r -> frac_shape [] r.
Proof.
  intros H. left. split; [done|]. destruct r as [|c r]; [done|].
  destruct H as (_ & ? & _). by apply scan_frac_not_point.
Qed.

Lemma number_end_exp (r : str) : number_end r -> exp_shape [] r.
Proof.
  intros H. left. split; [done|]. destruct r as [|c r]; [done|].
  destruct H as (_ & _ & ? & ?). by apply scan_exp_not_e.
Qed.

(** An integer written by [repr_int] is read back as that integer. *)
Lemma match_number_repr_int (z : Z) (r : str) :
  number_end r -> match_number (repr_int z ++ r) = Some (JInt z, r).
Proof.
  intros Hr. apply match_number_spec.
  pose proof (DecimalZ.of_to z) as Hz. unfold repr_int.
  destruct z as [|p|p]; cbn [Z.to_int] in *.
  - exists [], [48], [], []. split; [done|]. split; [|done].
    repeat split; auto using number_end_frac, number_end_exp. by left.
  - exists [], (uint_digits (Pos.to_uint p)), [], [].
    split; [done|]. split.
    + repeat split; auto using number_end_frac, number_end_exp.
      apply to_uint_int_shape. by apply number_end_no_digit.
    + unfold number_value. rewrite digits_value_uint. by rewrite <- Hz at 1.
  - exists [45], (uint_digits (Pos.to_uint p)), [], [].
    split; [done|]. split.
    + repeat split; auto using number_end_frac, number_end_exp.
      apply to_uint_int_shape. by apply number_end_no_digit.
    + unfold number_value. rewrite digits_value_uint.
      cbn [Z.of_int] in Hz. by rewrite Hz.
Qed.

Lemma repr_int_start (z : Z) :
  exists c t, repr_int z = c :: t /\ (c = 45 \/ isdigit c = true).
Proof.
  unfold repr_int. destruct z as [|p|p]; cbn [Z.to_int].
  - exists 48, []. by split; [|right].
  - destruct (to_uint_int_shape p [] I) as [H | (c & ds & H & Hc & _)].
    + rewrite H. exists 48, []. by split; [|right].
    + rewrite H. exists c, ds. split; [done|]. right. apply isdigit_range. lia.
  - eexists _, _. split; [reflexivity|by left].
Qed.

(** ** Strings *)

Lemma hexval_hexdigit (n : N) : n < 16 -> hexval (hexdigit n) = Some n.
Proof.
  intros Hn. unfold hexval, hexdigit, isdigit.
  destruct (n <? 10) eqn:E; nprop.
  - replace ((48 <=? 48 + n) && (48 + n <=? 57)) with true
      by (symmetry; nprop; lia).
    f_equal. lia.
  - replace ((48 <=? 87 + n) && (87 + n <=? 57)) with false
      by (symmetry; nprop; lia).
    replace ((97 <=? 87 + n) && (87 + n <=? 102)) with true
      by (symmetry; nprop; lia).
    f_equal. lia.
Qed.

Lemma hex4_control (c : char) :
  c < 32 -> hex4 48 48 (hexdigit (c / 16)) (hexdigit (c mod 16)) = Some c.
Proof.
  intros Hc. unfold hex4.
  assert (Hq : c / 16 < 16) by (apply N.Div0.div_lt_upper_bound; lia).
  assert (Hr : c mod 16 < 16) by (apply N.mod_lt; lia).
  pose proof (N.div_mod c 16 ltac:(lia)) as Hdm.
  change (hexval 48) with (Some 0). cbn [mbind option_bind].
  rewrite !hexval_hexdigit by done. cbn [mbind option_bind].
  f_equal. lia.
Qed.

(** A [\u] escape of a character that is not a high surrogate. *)
Lemma scanstring_u (h1 h2 h3 h4 u : char) (t : str) :
  hex4 h1 h2 h3 h4 = Some u ->
  is_high_surrogate u = false ->
  scanstring (92 :: 117 :: h1 :: h2 :: h3 :: h4 :: t) = push u (scanstring t).
Proof.
  intros Hhex Hsur.
  cbn [scanstring N.eqb Pos.eqb]. rewrite Hhex.
  destruct t as [|b [|v [|l1 [|l2 [|l3 [|l4 t3]]]]]]; try reflexivity.
  by rewrite Hsur.
Qed.

Lemma scanstring_plain (c : char) (t : str) :
  c <> 34 -> c <> 92 -> 32 <= c ->
  scanstring (c :: t) = push c (scanstring t).
Proof.
  intros H1 H2 H3. cbn [scanstring].
  replace (c =? 34) with false by (symmetry; nprop; lia).
  replace (c =? 92) with false by (symmetry; nprop; lia).
  replace (c <=? 31) with false by (symmetry; nprop; lia).
  done.
Qed.

Lemma scanstring_escape_char (c : char) (t : str) :
  scanstring (escape_char c ++ t) = push c (scanstring t).
Proof.
  unfold escape_char.
  repeat match goal with
         | |- context [if ?x =? ?k then _ else _] =>
             destruct (N.eqb_spec x k) as [->|?]; [reflexivity|]
         end.
  destruct (c <? 32) eqn:E; nprop.
  - apply scanstring_u; [by apply hex4_control|].
    unfold is_high_surrogate. nprop. lia.
  - by apply scanstring_plain.
Qed.

(** The body of an encoded string is read back as the string. *)
Lemma scanstring_encoded (s rest : str) :
  scanstring (flat_map escape_char s ++ 34 :: rest) = Some (s, rest).
Proof.
  induction s as [|c s IH]; [done|].
  cbn [flat_map]. rewrite <- app_assoc, scanstring_escape_char, IH. done.
Qed.

(** ** Whole values *)

Lemma json_nested_ind (P : json -> Prop) :
  P JNull ->
  (forall b, P (JBool b)) ->
  (forall z, P (JInt z)) ->
  (forall lit, P (JFloat lit)) ->
  (forall s, P (JStr s)) ->
  (forall l, Forall P l -> P (JArr l)) ->
  (forall m : pydict, Forall (fun kv => P kv.2) m -> P (JObj m)) ->
  forall v, P v.
Proof.
  intros Hnull Hbool Hint Hfloat Hstr Harr Hobj.
  fix IH 1.
  intros [ |b|z|lit|s|l|m];
    [apply Hnull | apply Hbool | apply Hint | apply Hfloat | apply Hstr | |].
  - apply Harr. induction l as [|x l IHl]; constructor; [apply IH|apply IHl].
  - apply Hobj. induction m as [|[k x] m IHm]; constructor; [apply IH|apply IHm].
Qed.


Lemma skip_ws_start (c : char) (t : str) :
  is_ws c = false -> skip_ws (c :: t) = c :: t.
Proof. intros H. cbn. by rewrite H. Qed.

Lemma skip_ws_spaces (n : nat) (s : str) : skip_ws (replicate n 32 ++ s) = skip_ws s.
Proof. induction n as [|n IH]; [done|exact IH]. Qed.

Lemma skip_ws_nl (k : nat) (s : str) : skip_ws (nl k ++ s) = skip_ws s.
Proof. unfold newline_indent. cbn [indent indented app]. apply (skip_ws_spaces _ s). Qed.

Lemma nl_value_end (k : nat) (s : str) : value_end (nl k ++ s).
Proof. by right. Qed.

Lemma value_end_number_end (s : str) : value_end s -> number_end s.
Proof. destruct s as [|c s]; [done|]. by intros [-> | ->]. Qed.

Lemma value_start_facts (c : char) :
  value_start c = true ->
  is_ws c = false /\ c <> 93 /\ c <> 125 /\ c <> 65279.
Proof.
  unfold value_start, is_ws, isdigit. nprop. intros H.
  repeat split; try lia.
Qed.

Lemma skip_ws_value (c : char) (t : str) :
  value_start c = true -> skip_ws (c :: t) = c :: t.
Proof. intros H%value_start_facts. apply skip_ws_start, H. Qed.

(** *** Atoms *)

Lemma match_number_text (s : str) (v : json) (r : str) :
  match_number s = Some (v, r) -> number_text s.
Proof.
  intros (sg & ip & fp & ep & -> & (Hsg & Hip & _) & _)%match_number_spec.
  destruct (int_shape_head _ _ Hip) as (c & t & -> & Hc).
  destruct Hsg as [-> | ->]; cbn; auto.
Qed.

Lemma constant_number_text (s : str) : number_text s -> constant s = None.
Proof.
  destruct s as [|c t]; [done|]. unfold constant.
  intros [Hc | [-> Ht]].
  - apply isdigit_range in Hc.
    repeat match goal with
           | |- context [if ?x =? ?k then _ else _] =>
               destruct (N.eqb_spec x k) as [->|?]; [lia|]
           end.
    done.
  - destruct t as [|d t]; [done|]. apply isdigit_range in Ht.
    cbn. destruct (N.eqb_spec d 73) as [->|?]; [lia|done].
Qed.

Lemma scan_once_number (f : nat) (s : str) (v : json) (r : str) :
  match_number s = Some (v, r) -> scan_once (S f) s = Some (v, r).
Proof.
  intros H. pose proof (match_number_text _ _ _ H) as Ht.
  pose proof (constant_number_text _ Ht) as Hc.
  destruct s as [|c t]; [done|].
  assert (c <> 34 /\ c <> 123 /\ c <> 91) as (H1 & H2 & H3).
  { destruct Ht as [Hd%isdigit_range | [-> _]]; lia. }
  cbn [scan_once].
  replace (c =? 34) with false by (symmetry; by apply N.eqb_neq).
  replace (c =? 123) with false by (symmetry; by apply N.eqb_neq).
  replace (c =? 91) with false by (symmetry; by apply N.eqb_neq).
  by rewrite Hc.
Qed.

Lemma scan_once_repr_int (f : nat) (z : Z) (rest : str) :
  value_end rest -> scan_once (S f) (repr_int z ++ rest) = Some (JInt z, rest).
Proof.
  intros H. apply scan_once_number, match_number_repr_int.
  by apply value_end_number_end.
Qed.

Lemma is_float_literal_cases (lit : str) :
  is_float_literal lit = true ->
  lit = kw_nan \/ lit = kw_inf \/ lit = kw_neg_inf
  \/ match_number lit = Some (JFloat lit, []).
Proof.
  unfold is_float_literal. rewrite orb_true_iff, bool_decide_eq_true.
  intros [H | H].
  - repeat (apply elem_of_cons in H as [->|H]); auto. by apply elem_of_nil in H.
  - destruct (match_number lit) as [[[] [|]]|]; try discriminate.
    apply str_eqb_eq in H as ->. auto.
Qed.

Lemma scan_once_float (f : nat) (lit rest : str) :
  is_float_literal lit = true ->
  value_end rest ->
  scan_once (S f) (lit ++ rest) = Some (JFloat lit, rest).
Proof.
  intros [-> | [-> | [-> | H]]]%is_float_literal_cases Hend; try reflexivity.
  apply scan_once_number, (match_number_rest lit _ []).
  - by rewrite app_nil_r.
  - by apply value_end_number_end.
Qed.

Lemma scan_once_string (f : nat) (s rest : str) :
  scan_once (S f) (encode_basestring s ++ rest) = Some (JStr s, rest).
Proof.
  unfold encode_basestring. cbn [app scan_once N.eqb Pos.eqb].
  rewrite <- app_assoc. cbn [app]. by rewrite scanstring_encoded.
Qed.

(** *** How an encoded value starts *)

Lemma encode_start (lvl : nat) (v : json) :
  well_formed v = true ->
  exists c t, enc lvl v = c :: t /\ value_start c = true.
Proof.
  destruct v as [ |[|]|z|lit|s|[|x l]|[|kv m]]; intros Hwf;
    try (by eexists _, _; split; [reflexivity|reflexivity]).
  - destruct (repr_int_start z) as (c & t & E & Hc).
    exists c, t. split; [exact E|].
    unfold value_start. destruct Hc as [-> | ->]; [done|]. by rewrite !orb_true_r.
  - cbn in Hwf. cbn [encode].
    apply is_float_literal_cases in Hwf as [-> | [-> | [-> | H]]];
      try (by eexists _, _; split; [reflexivity|reflexivity]).
    apply match_number_text in H. destruct lit as [|c t]; [done|].
    exists c, t. split; [done|]. unfold value_start.
    destruct H as [-> | [-> _]]; [by rewrite !orb_true_r | done].
Qed.

Lemma encode_length (lvl : nat) (v : json) :
  well_formed v = true -> (0 < length (enc lvl v))%nat.
Proof.
  intros (c & t & -> & _)%(encode_start lvl). cbn. lia.
Qed.

(** *** Arrays and objects *)

Lemma dict_set_fresh (k : str) (v : json) (acc : pydict) :
  k ∉ fst <$> acc -> dict_set k v acc = acc ++ [(k, v)].
Proof.
  induction acc as [|[k' v'] acc IH]; [done|].
  cbn. intros [Hne Hk]%not_elem_of_cons.
  replace (Str.eqb k k') with false by (symmetry; by apply str_eqb_neq).
  by rewrite IH.
Qed.

Lemma encode_arr (lvl : nat) (x : json) (l : list json) :
  enc lvl (JArr (x :: l))
  = 91 :: nl (S lvl) ++ Str.join (sep (S lvl)) (map (enc (S lvl)) (x :: l))
       ++ nl lvl ++ [93].
Proof. reflexivity. Qed.

Lemma encode_obj (lvl : nat) (kv : str * json) (m : pydict) :
  enc lvl (JObj (kv :: m))
  = 123 :: nl (S lvl)
        ++ Str.join (sep (S lvl)) (map (encode_pair indented (S lvl)) (kv :: m))
        ++ nl lvl ++ [125].
Proof. reflexivity. Qed.

Lemma join_cons2 (sep p q : str) (ps : list str) :
  Str.join sep (p :: q :: ps) = p ++ sep ++ Str.join sep (q :: ps).
Proof. reflexivity. Qed.

Lemma join_items_start (k : nat) (l : list json) :
  l <> [] ->
  Forall (fun x => well_formed x = true) l ->
  exists c t, Str.join (sep k) (map (enc k) l) = c :: t
              /\ value_start c = true.
Proof.
  destruct l as [|x l]; [done|]. intros _ Hwf.
  destruct (encode_start k x) as (c & t & E & Hc); [by inversion Hwf|].
  destruct l as [|x' l].
  - exists c, t. by split.
  - cbn [map]. rewrite join_cons2, E. eexists _, _. by split.
Qed.

Lemma items_encoded (lvl k : nat) (l : list json) :
  Forall (fun x => well_formed x = true /\ reads_back x) l ->
  l <> [] ->
  forall (acc : list json) (rest : str) (f : nat),
    (S (length (Str.join (sep k) (map (enc k) l))) < f)%nat ->
    items f acc (Str.join (sep k) (map (enc k) l) ++ nl lvl ++ 93 :: rest)
    = Some (acc ++ l, rest).
Proof.
  induction 1 as [|x l [Hwf Hx] Hl IH]; [done|]. intros _ acc rest f Hf.
  destruct f as [|f]; [lia|].
  destruct l as [|x' l].
  - cbn [map Str.join] in *. cbn [items].
    rewrite Hx by (auto using nl_value_end; lia).
    cbn [mbind option_bind]. rewrite skip_ws_nl. reflexivity.
  - cbn [map] in *. rewrite join_cons2 in *.
    rewrite !length_app in Hf. cbn [length] in Hf.
    pose proof (encode_length k x Hwf) as Hlen.
    rewrite <- !app_assoc. cbn [app items].
    rewrite Hx by (by left || lia).
    cbn [mbind option_bind].
    rewrite skip_ws_start by reflexivity.
    change (44 =? 93) with false. change (44 =? 44) with true. cbv iota.
    rewrite skip_ws_nl.
    destruct (join_items_start k (x' :: l)) as (c & t & E & Hc);
      [done | by eapply Forall_impl; [exact Hl|intros ? []] |].
    cbn [map] in E.
    assert (Hskip : forall s,
              skip_ws (Str.join (sep k) (enc k x' :: map (enc k) l) ++ s)
              = Str.join (sep k) (enc k x' :: map (enc k) l) ++ s).
    { intros s. rewrite E. cbn [app]. by apply skip_ws_value. }
    rewrite Hskip, IH by (done || lia).
    by rewrite <- app_assoc.
Qed.

Lemma encode_pair_start (k : nat) (kv : str * json) :
  exists t, encode_pair indented k kv = 34 :: t.
Proof. by eexists. Qed.

Lemma join_pairs_start (k : nat) (m : pydict) :
  m <> [] ->
  exists t, Str.join (sep k) (map (encode_pair indented k) m) = 34 :: t.
Proof.
  destruct m as [|kv [|kv' m]]; [done|by eexists|]. intros _.
  cbn [map]. rewrite join_cons2. by eexists.
Qed.

(** One pair of an object, and what the scanner does after it. *)
Lemma members_pair (k f : nat) (acc : pydict) (key : str) (v : json) (R : str) :
  well_formed v = true ->
  reads_back v ->
  value_end R ->
  (length (enc k v) < f)%nat ->
  members (S f) acc (encode_pair indented k (key, v) ++ R)
  = match skip_ws R with
    | d :: r3 =>
        if d =? 125 then Some (dict_set key v acc, r3)
        else if d =? 44 then members f (dict_set key v acc) (skip_ws r3)
        else None
    | [] => None
    end.
Proof.
  intros Hwf Hv HR Hf.
  unfold encode_pair, encode_basestring. cbn [fst snd].
  rewrite <- !app_assoc. cbn [app members].
  change (34 =? 34) with true. cbv iota.
  rewrite <- app_assoc. cbn [app].
  rewrite scanstring_encoded. cbn [mbind option_bind].
  rewrite skip_ws_start by reflexivity.
  change (58 =? 58) with true. cbv iota.
  destruct (encode_start k v Hwf) as (c & t & E & Hc).
  assert (Hskip : skip_ws (32 :: enc k v ++ R) = enc k v ++ R).
  { rewrite E. cbn [app]. change (skip_ws (32 :: c :: t ++ R))
      with (skip_ws (c :: t ++ R)). by apply skip_ws_value. }
  rewrite Hskip, Hv by done.
  reflexivity.
Qed.

Lemma members_encoded (lvl k : nat) (m : pydict) :
  Forall (fun kv => well_formed kv.2 = true /\ reads_back kv.2) m ->
  m <> [] ->
  forall (acc : pydict) (rest : str) (f : nat),
    NoDup (fst <$> (acc ++ m)) ->
    (S (length (Str.join (sep k) (map (encode_pair indented k) m))) < f)%nat ->
    members f acc
      (Str.join (sep k) (map (encode_pair indented k) m) ++ nl lvl ++ 125 :: rest)
    = Some (acc ++ m, rest).
Proof.
  induction 1 as [|[key v] m [Hwf Hv] Hm IH]; [done|].
  intros _ acc rest f Hdup Hf. cbn [snd] in *.
  destruct f as [|f]; [lia|].
  assert (Hfresh : dict_set key v acc = acc ++ [(key, v)]).
  { apply dict_set_fresh. rewrite fmap_app in Hdup.
    apply NoDup_app in Hdup as (_ & Hdis & _).
    intros Hin. apply (Hdis key Hin). by left. }
  assert (Hlen : (length (enc k v) < length (encode_pair indented k (key, v)))%nat).
  { unfold encode_pair. rewrite !length_app. cbn. lia. }
  destruct m as [|kv' m].
  - cbn [map Str.join] in *.
    rewrite members_pair by (auto using nl_value_end; lia).
    rewrite skip_ws_nl. cbn. by rewrite Hfresh.
  - cbn [map] in *. rewrite join_cons2 in *.
    rewrite !length_app in Hf. cbn [length] in Hf.
    rewrite <- !app_assoc.
    rewrite members_pair by (done || (by left) || lia).
    cbn [app]. rewrite skip_ws_start by reflexivity.
    change (44 =? 125) with false. change (44 =? 44) with true. cbv iota.
    rewrite skip_ws_nl.
    destruct (join_pairs_start k (kv' :: m)) as (t & E); [done|].
    cbn [map] in E.
    assert (Hskip : forall s,
              skip_ws (Str.join (sep k)
                         (encode_pair indented k kv'
                          :: map (encode_pair indented k) m) ++ s)
              = Str.join (sep k)
                  (encode_pair indented k kv'
                   :: map (encode_pair indented k) m) ++ s).
    { intros s. rewrite E. cbn [app]. by apply skip_ws_start. }
    rewrite Hskip, Hfresh, IH; [by rewrite <- app_assoc | done | | lia].
    by rewrite <- app_assoc.
Qed.

Lemma forallb_Forall_true {A} (f : A -> bool) (l : list A) :
  forallb f l = true -> Forall (fun x => f x = true) l.
Proof.
  induction l as [|x l IH]; cbn; [by constructor|].
  intros [Hx Hl]%andb_true_iff. constructor; auto.
Qed.

(** Every well-formed value is read back. *)
Lemma well_formed_reads_back (v : json) : well_formed v = true -> reads_back v.
Proof.
  induction v as [ |b|z|lit|s|l IH|m IH] using json_nested_ind;
    intros Hwf lvl rest f Hend Hf; (destruct f as [|f]; [lia|]).
  - reflexivity.
  - by destruct b.
  - by apply scan_once_repr_int.
  - by apply scan_once_float.
  - by apply scan_once_string.
  - destruct l as [|x l]; [reflexivity|].
    assert (Hall : Forall (fun x => well_formed x = true /\ reads_back x) (x :: l)).
    { cbn [well_formed] in Hwf. apply forallb_Forall_true in Hwf.
      rewrite Forall_forall in *. intros y Hy. split; [by apply Hwf|].
      apply IH; [done|]. by apply Hwf. }
    rewrite encode_arr in *. cbn [length] in Hf. rewrite !length_app in Hf.
    cbn [app scan_once]. change (91 =? 34) with false.
    change (91 =? 123) with false. change (91 =? 91) with true. cbv iota.
    rewrite <- !app_assoc. cbn [app]. rewrite skip_ws_nl.
    destruct (join_items_start (S lvl) (x :: l)) as (c & t & E & Hc);
      [done | by eapply Forall_impl; [exact Hall|intros ? []] |].
    pose proof (items_encoded lvl (S lvl) (x :: l) Hall ltac:(done) [] rest f) as Hit.
    rewrite E in *. cbn [app]. rewrite skip_ws_value by done.
    destruct (value_start_facts c Hc) as (_ & Hne & _).
    replace (c =? 93) with false by (symmetry; by apply N.eqb_neq).
    cbn [app] in Hit. rewrite Hit by (cbn [length] in *; lia).
    reflexivity.
  - destruct m as [|kv m]; [reflexivity|].
    cbn [well_formed] in Hwf. apply andb_true_iff in Hwf as [Hdup Hwf].
    apply bool_decide_eq_true in Hdup.
    assert (Hall : Forall (fun kv => well_formed kv.2 = true /\ reads_back kv.2)
                     (kv :: m)).
    { apply forallb_Forall_true in Hwf.
      rewrite Forall_forall in *. intros y Hy. split; [by apply (Hwf y)|].
      apply IH; [done|]. by apply (Hwf y). }
    rewrite encode_obj in *. cbn [length] in Hf. rewrite !length_app in Hf.
    cbn [app scan_once]. change (123 =? 34) with false.
    change (123 =? 123) with true. cbv iota.
    rewrite <- !app_assoc. cbn [app]. rewrite skip_ws_nl.
    destruct (join_pairs_start (S lvl) (kv :: m)) as (t & E); [done|].
    pose proof (members_encoded lvl (S lvl) (kv :: m) Hall ltac:(done) [] rest f
                  Hdup) as Hmem.
    rewrite E in *. cbn [app]. rewrite skip_ws_start by reflexivity.
    change (34 =? 125) with false. cbv iota.
    cbn [app] in Hmem. rewrite Hmem by (cbn [length] in *; lia).
    reflexivity.
Qed.

Lemma loads_no_bom (s : str) :
  (forall t, s <> 65279 :: t) ->
  loads s
  = match scan_once (fuel_for (skip_ws s)) (skip_ws s) with
    | Some (v, r) =>
        match skip_ws r with
        | [] => Returns v
        | _ => Raises JSONDecodeError
        end
    | None => Raises JSONDecodeError
    end.
Proof.
  intros Hs. unfold loads. destruct s as [|[|p] t]; [done..|].
  assert (Hp : p <> 65279%positive) by (intros ->; by apply (Hs t)).
  clear Hs. repeat (destruct p as [p|p|]; try done).
Qed.

(** [json.loads] undoes the indented [json.dumps] on well-formed values. *)
Lemma loads_dumps (v : json) :
  well_formed v = true -> loads (dumps indented v) = Returns v.
Proof.
  intros Hwf. unfold dumps.
  destruct (encode_start 0 v Hwf) as (c & t & E & Hc).
  destruct (value_start_facts c Hc) as (Hws & _ & _ & Hbom).
  assert (Hskip : skip_ws (enc 0 v) = enc 0 v).
  { rewrite E. by apply skip_ws_start. }
  rewrite loads_no_bom by (intros t'; rewrite E; congruence).
  rewrite Hskip.
  pose proof (well_formed_reads_back v Hwf 0%nat [] (fuel_for (enc 0 v)) I) as H.
  rewrite app_nil_r in H. rewrite H; [done|].
  unfold fuel_for. lia.
Qed.

(** ** What the decoder builds is well formed *)

Lemma constant_well_formed (s : str) (v : json) (r : str) :
  constant s = Some (v, r) -> well_formed v = true.
Proof.
  unfold constant. destruct s as [|c t]; [done|].
  repeat match goal with
         | |- context [if ?b then _ else _] => destruct b
         end;
    try discriminate;
    match goal with
    | |- context [literal ?w ?s] => destruct (literal w s)
    end; cbn; intros [= <- <-]; reflexivity.
Qed.

Lemma match_number_well_formed (s : str) (v : json) (r : str) :
  match_number s = Some (v, r) -> well_formed v = true.
Proof.
  intros H.
  assert (Hv : (exists z, v = JInt z) \/ exists lit, v = JFloat lit).
  { apply match_number_spec in H as (sg & ip & fp & ep & _ & _ & ->).
    unfold number_value. destruct fp, ep; eauto. }
  destruct Hv as [[z ->] | [lit ->]]; [reflexivity|].
  apply match_number_float_literal in H as [_ H].
  cbn. unfold is_float_literal. rewrite H, str_eqb_refl. apply orb_true_r.
Qed.

Lemma dict_set_keys (k : str) (v : json) (m : pydict) :
  fst <$> dict_set k v m
  = if bool_decide (k ∈ fst <$> m) then fst <$> m else (fst <$> m) ++ [k].
Proof.
  induction m as [|[k' v'] m IH]; [done|]. cbn.
  destruct (Str.eqb k k') eqn:E.
  - apply str_eqb_eq in E as ->. by rewrite bool_decide_eq_true_2 by by left.
  - apply str_eqb_neq in E. cbn. rewrite IH.
    destruct (bool_decide (k ∈ fst <$> m)) eqn:Hin.
    + apply bool_decide_eq_true in Hin.
      by rewrite bool_decide_eq_true_2 by by right.
    + apply bool_decide_eq_false in Hin.
      rewrite bool_decide_eq_false_2; [done|].
      by intros [?|?]%elem_of_cons.
Qed.

Lemma dict_set_well_formed (k : str) (v : json) (m : pydict) :
  well_formed v = true ->
  well_formed (JObj m) = true ->
  well_formed (JObj (dict_set k v m)) = true.
Proof.
  cbn. intros Hv [Hdup Hall]%andb_true_iff. apply andb_true_iff. split.
  - apply bool_decide_eq_true in Hdup. apply bool_decide_eq_true.
    rewrite dict_set_keys.
    destruct (bool_decide (k ∈ fst <$> m)) eqn:Hin; [done|].
    apply bool_decide_eq_false in Hin.
    apply NoDup_app. repeat split; [done| |apply NoDup_singleton].
    intros x Hx ->%list_elem_of_singleton. done.
  - clear Hdup. induction m as [|[k' v'] m IH]; cbn in *.
    + by rewrite Hv.
    + apply andb_true_iff in Hall as [Hv' Hall].
      destruct (Str.eqb k k'); cbn; [by rewrite Hv|].
      by rewrite Hv', IH.
Qed.

Lemma forallb_snoc {A} (f : A -> bool) (l : list A) (x : A) :
  forallb f (l ++ [x]) = forallb f l && f x.
Proof. rewrite forallb_app. cbn. by rewrite andb_true_r. Qed.

(** The three scanners build well-formed values, whatever the fuel. *)
Lemma scanners_well_formed (f : nat) :
  (forall s v r, scan_once f s = Some (v, r) -> well_formed v = true)
  /\ (forall acc s m r,
        members f acc s = Some (m, r) ->
        well_formed (JObj acc) = true -> well_formed (JObj m) = true)
  /\ (forall acc s l r,
        items f acc s = Some (l, r) ->
        well_formed (JArr acc) = true -> well_formed (JArr l) = true).
Proof.
  induction f as [|f (IHv & IHm & IHi)]; [by repeat split|].
  split; [|split].
  - intros s v r. cbn [scan_once]. destruct s as [|c t]; [done|].
    destruct (c =? 34).
    { destruct (scanstring t) as [[x r']|]; [|done]. by intros [= <- <-]. }
    destruct (c =? 123).
    { destruct (skip_ws t) as [|c' t']; [done|].
      destruct (c' =? 125); [by intros [= <- <-]|].
      destruct (members f [] (c' :: t')) as [[m r']|] eqn:Hm; [|done].
      intros [= <- <-]. by apply (IHm _ _ _ _ Hm). }
    destruct (c =? 91).
    { destruct (skip_ws t) as [|c' t']; [done|].
      destruct (c' =? 93); [by intros [= <- <-]|].
      destruct (items f [] (c' :: t')) as [[l r']|] eqn:Hi; [|done].
      intros [= <- <-]. by apply (IHi _ _ _ _ Hi). }
    destruct (constant (c :: t)) as [[v' r']|] eqn:Hc.
    { intros [= <- <-]. by apply constant_well_formed in Hc. }
    apply match_number_well_formed.
  - intros acc s m r. cbn [members]. destruct s as [|q t]; [done|].
    destruct (q =? 34); [|done].
    destruct (scanstring t) as [[key r0]|]; [|done]. cbn [mbind option_bind].
    destruct (skip_ws r0) as [|colon r1]; [done|].
    destruct (colon =? 58); [|done].
    destruct (scan_once f (skip_ws r1)) as [[val r2]|] eqn:Hv; [|done].
    cbn [mbind option_bind].
    apply IHv in Hv.
    destruct (skip_ws r2) as [|d r3]; [done|].
    destruct (d =? 125).
    { intros [= <- <-] Hacc. by apply dict_set_well_formed. }
    destruct (d =? 44); [|done].
    intros Hm Hacc. apply (IHm _ _ _ _ Hm). by apply dict_set_well_formed.
  - intros acc s l r. cbn [items].
    destruct (scan_once f s) as [[val r0]|] eqn:Hv; [|done].
    cbn [mbind option_bind]. apply IHv in Hv.
    assert (Hsnoc : well_formed (JArr acc) = true ->
                    well_formed (JArr (acc ++ [val])) = true).
    { cbn. intros H. by rewrite forallb_snoc, H, Hv. }
    destruct (skip_ws r0) as [|d r1]; [done|].
    destruct (d =? 93); [intros [= <- <-]; exact Hsnoc|].
    destruct (d =? 44); [|done].
    intros Hi Hacc. apply (IHi _ _ _ _ Hi). by apply Hsnoc.
Qed.

Lemma loads_well_formed (s : str) (v : json) :
  loads s = Returns v -> well_formed v = true.
Proof.
  unfold loads.
  assert (H : match scan_once (fuel_for (skip_ws s)) (skip_ws s) with
              | Some (v0, r) =>
                  match skip_ws r with
                  | [] => Returns v0
                  | _ => Raises JSONDecodeError
                  end
              | None => Raises JSONDecodeError
              end = Returns v -> well_formed v = true).
  { destruct (scan_once _ _) as [[v0 r]|] eqn:Hs; [|done].
    destruct (skip_ws r); [|done]. intros [= <-].
    by apply (proj1 (scanners_well_formed _)) in Hs. }
  destruct s as [|[|p] t]; try exact H.
  repeat (destruct p as [p|p|]; try exact H).
Qed.

Lemma parse_response_well_formed (response : str) (v : json) :
  parse_response response = Returns v -> well_formed v = true.
Proof.
  unfold parse_response.
  destruct (loads response) as [v0|e] eqn:H1.
  - intros [= <-]. by apply loads_well_formed in H1.
  - destruct (brace_search response) as [m|]; [|done].
    apply loads_well_formed.
Qed.

(** ** Validation of a conforming mapping *)

Lemma mapM_val_str (L : lax) (l : list json) :
  forallb is_str l = true ->
  exists ss : list str, mapM (val_str L) l = Some ss /\ l = JStr <$> ss.
Proof.
  induction l as [|v l IH]; [by exists []|].
  cbn [forallb]. intros [Hv Hl]%andb_true_iff.
  destruct v; try discriminate.
  destruct (IH Hl) as (ss & Hss & ->).
  exists (s :: ss). split; [|done]. cbn. by rewrite Hss.
Qed.

Lemma field_opt_str_conforming (L : lax) (k : str) (kw : pydict) :
  (forall v, dict_get k kw = Some v -> is_null v || is_str v = true) ->
  exists o, field (val_opt_str L) None k kw = Some o
            /\ forall v, dict_get k kw = Some v -> json_opt JStr o = v.
Proof.
  intros H. unfold field.
  destruct (dict_get k kw) as [v|]; [|by exists None].
  specialize (H v eq_refl). destruct v; try discriminate.
  - exists None. split; [done|]. by intros ? [= <-].
  - exists (Some s). split; [done|]. by intros ? [= <-].
Qed.

Lemma field_opt_int_conforming (L : lax) (k : str) (kw : pydict) :
  (forall v, dict_get k kw = Some v -> is_null v || is_int v = true) ->
  exists o, field (val_opt_int L) None k kw = Some o
            /\ forall v, dict_get k kw = Some v -> json_opt JInt o = v.
Proof.
  intros H. unfold field.
  destruct (dict_get k kw) as [v|]; [|by exists None].
  specialize (H v eq_refl). destruct v; try discriminate.
  - exists None. split; [done|]. by intros ? [= <-].
  - exists (Some z). split; [done|]. by intros ? [= <-].
Qed.

Lemma field_list_str_conforming (L : lax) (k : str) (kw : pydict) :
  (forall v, dict_get k kw = Some v -> is_str_list v = true) ->
  exists ss, field (val_list_str L) [] k kw = Some ss
             /\ forall v, dict_get k kw = Some v -> JArr (JStr <$> ss) = v.
Proof.
  intros H. unfold field.
  destruct (dict_get k kw) as [v|]; [|by exists []].
  specialize (H v eq_refl). destruct v; try discriminate.
  destruct (mapM_val_str L l H) as (ss & Hss & ->).
  exists ss. split; [done|]. by intros ? [= <-].
Qed.

Lemma field_dict_conforming (L : lax) (k : str) (kw : pydict) :
  (forall v, dict_get k kw = Some v -> is_dict v = true) ->
  exists m, field (val_dict L) [] k kw = Some m
            /\ (forall v, dict_get k kw = Some v -> JObj m = v)
            /\ (dict_get k kw = None -> m = []).
Proof.
  intros H. unfold field.
  destruct (dict_get k kw) as [v|]; [|by exists []].
  specialize (H v eq_refl). destruct v; try discriminate.
  exists m. split; [done|]. split; [by intros ? [= <-]|done].
Qed.

Lemma to_dict_get (p : GFGProfile) :
  dict_get Field.username (to_dict p) = Some (JStr (username p))
  /\ dict_get Field.display_name (to_dict p) = Some (json_opt JStr (display_name p))
  /\ dict_get Field.about (to_dict p) = Some (json_opt JStr (about p))
  /\ dict_get Field.reputation (to_dict p) = Some (json_opt JStr (reputation p))
  /\ dict_get Field.followers (to_dict p) = Some (json_opt JInt (followers p))
  /\ dict_get Field.following (to_dict p) = Some (json_opt JInt (following p))
  /\ dict_get Field.problems_solved (to_dict p)
     = Some (json_opt JInt (problems_solved p))
  /\ dict_get Field.articles_count (to_dict p)
     = Some (json_opt JInt (articles_count p))
  /\ dict_get Field.badges (to_dict p) = Some (JArr (JStr <$> badges p))
  /\ dict_get Field.top_skills (to_dict p) = Some (JArr (JStr <$> top_skills p))
  /\ dict_get Field.raw_extracted (to_dict p) = Some (JObj (raw_extracted p)).
Proof. repeat split; reflexivity. Qed.

(** A conforming mapping is accepted, and each field it gives is found
    unchanged in the validated result. *)
Lemma validate_conforming (L : lax) (kw : pydict) :
  conforms kw ->
  exists p : GFGProfile,
    validate L kw = Some p
    /\ (forall k v, k ∈ Field.all -> dict_get k kw = Some v ->
          dict_get k (to_dict p) = Some v)
    /\ (raw_extracted p = []
        \/ dict_get Field.raw_extracted kw = Some (JObj (raw_extracted p))).
Proof.
  intros [[u0 Hu] Hty].
  pose proof (Hty Field.username u0 Hu) as Hut.
  change (has_field_type Field.username u0) with (is_str u0) in Hut.
  destruct u0 as [| | | |u| |]; try discriminate. clear Hut.
  destruct (field_opt_str_conforming L Field.display_name kw) as (dn & Hdn & Edn);
    [intros v Hv; exact (Hty _ _ Hv)|].
  destruct (field_opt_str_conforming L Field.about kw) as (ab & Hab & Eab);
    [intros v Hv; exact (Hty _ _ Hv)|].
  destruct (field_opt_str_conforming L Field.reputation kw) as (rp & Hrp & Erp);
    [intros v Hv; exact (Hty _ _ Hv)|].
  destruct (field_opt_int_conforming L Field.followers kw) as (fr & Hfr & Efr);
    [intros v Hv; exact (Hty _ _ Hv)|].
  destruct (field_opt_int_conforming L Field.following kw) as (fg & Hfg & Efg);
    [intros v Hv; exact (Hty _ _ Hv)|].
  destruct (field_opt_int_conforming L Field.problems_solved kw) as (ps & Hps & Eps);
    [intros v Hv; exact (Hty _ _ Hv)|].
  destruct (field_opt_int_conforming L Field.articles_count kw) as (ac & Hac & Eac);
    [intros v Hv; exact (Hty _ _ Hv)|].
  destruct (field_list_str_conforming L Field.badges kw) as (bd & Hbd & Ebd);
    [intros v Hv; exact (Hty _ _ Hv)|].
  destruct (field_list_str_conforming L Field.top_skills kw) as (ts & Hts & Ets);
    [intros v Hv; exact (Hty _ _ Hv)|].
  destruct (field_dict_conforming L Field.raw_extracted kw) as (re & Hre & Ere & Nre);
    [intros v Hv; exact (Hty _ _ Hv)|].
  exists {| username := u; display_name := dn; about := ab; reputation := rp;
            followers := fr; following := fg; problems_solved := ps;
            articles_count := ac; badges := bd; top_skills := ts;
            raw_extracted := re |}.
  split; [|split].
  - unfold validate. rewrite Hu. cbn [mbind option_bind val_str].
    rewrite Hdn, Hab, Hrp, Hfr, Hfg, Hps, Hac, Hbd, Hts, Hre. reflexivity.
  - intros k v Hk Hv. unfold Field.all in Hk.
    match goal with
    | |- dict_get k (to_dict ?p) = _ =>
        destruct (to_dict_get p)
          as (G1 & G2 & G3 & G4 & G5 & G6 & G7 & G8 & G9 & G10 & G11)
    end.
    cbn [username display_name about reputation followers following
         problems_solved articles_count badges top_skills raw_extracted] in *.
    repeat (apply elem_of_cons in Hk as [->|Hk]);
      [ | | | | | | | | | | | by apply elem_of_nil in Hk ].
    + rewrite Hu in Hv. injection Hv as <-. exact G1.
    + by rewrite <- (Edn v Hv).
    + by rewrite <- (Eab v Hv).
    + by rewrite <- (Erp v Hv).
    + by rewrite <- (Efr v Hv).
    + by rewrite <- (Efg v Hv).
    + by rewrite <- (Eps v Hv).
    + by rewrite <- (Eac v Hv).
    + by rewrite <- (Ebd v Hv).
    + by rewrite <- (Ets v Hv).
    + by rewrite <- (Ere v Hv).
  - cbn. destruct (dict_get Field.raw_extracted kw) as [v|] eqn:E.
    + right. by rewrite (Ere v eq_refl).
    + left. by apply Nre.
Qed.

Lemma dict_get_elem_of (k : str) (v : json) (m : pydict) :
  dict_get k m = Some v -> (k, v) ∈ m.
Proof.
  induction m as [|[k' v'] m IH]; [done|]. cbn.
  destruct (Str.eqb k k') eqn:E.
  - apply str_eqb_eq in E as ->. intros [= ->]. by left.
  - intros H. right. by apply IH.
Qed.

Lemma conforms_check_sound (kw : pydict) :
  conforms_check kw = true -> conforms kw.
Proof.
  unfold conforms_check, conforms.
  intros [Hu Hall]%andb_true_iff. apply bool_decide_eq_true in Hu.
  split; [done|]. intros k v Hkv%dict_get_elem_of.
  apply forallb_Forall_true in Hall. rewrite Forall_forall in Hall.
  by apply (Hall (k, v)).
Qed.

Lemma dict_get_well_formed (k : str) (v : json) (m : pydict) :
  well_formed (JObj m) = true -> dict_get k m = Some v -> well_formed v = true.
Proof.
  cbn. intros [_ Hall]%andb_true_iff Hkv%dict_get_elem_of.
  apply forallb_Forall_true in Hall. rewrite Forall_forall in Hall.
  by apply (Hall (k, v)).
Qed.

Lemma str_list_well_formed (ss : list str) :
  forallb well_formed (JStr <$> ss) = true.
Proof. by induction ss. Qed.

Lemma to_dict_well_formed (p : GFGProfile) :
  well_formed (JObj (raw_extracted p)) = true ->
  well_formed (JObj (to_dict p)) = true.
Proof.
  intros Hraw. cbn [well_formed]. apply andb_true_iff. split.
  - rewrite to_dict_keys. vm_compute. reflexivity.
  - unfold to_dict. cbn [forallb snd well_formed].
    rewrite !str_list_well_formed.
    cbn [well_formed] in Hraw. rewrite Hraw.
    by destruct (display_name p), (about p), (reputation p), (followers p),
      (following p), (problems_solved p), (articles_count p).
Qed.

(** ** The round trip *)

(** C9 (as amended): when the reply of the model parses to a mapping that
    conforms to the schema, the Profile is built and every schema field that
    the reply gave has its value unchanged in it; its indented JSON text is
    read back as the same mapping; and the run writes exactly that text to
    the output file and returns the mapping, provided UTF-8 can encode the
    text.  When it cannot, the run ends in the encoding error of the write
    and leaves an incomplete file. *)
Theorem conforming_reply_round_trips
    (W : world) (L : lax) (u p : str) (d : disk) (response : str)
    (kw : pydict) :
  model_reply W u = Returns response ->
  parse_response response = Returns (JObj kw) ->
  conforms kw ->
  exists profile : GFGProfile,
    GFGProfile_new L (JObj kw) = Returns profile
    /\ (forall k v, k ∈ Field.all -> dict_get k kw = Some v ->
          dict_get k (to_dict profile) = Some v)
    /\ Json.loads (Json.dumps Json.indented (JObj (to_dict profile)))
       = Returns (JObj (to_dict profile))
    /\ gfg_to_json W L u p d
       = if utf8_encodable (Json.dumps Json.indented (JObj (to_dict profile)))
         then (Returns (to_dict profile),
               <[p := Whole (Json.dumps Json.indented (JObj (to_dict profile)))]>
                 (delete p d))
         else (Raises UnicodeEncodeError, <[p := Partial]> (delete p d)).
Proof.
  intros Hreply Hparse Hconf.
  apply parse_response_well_formed in Hparse as Hwf.
  destruct (validate_conforming L kw Hconf) as (profile & Hval & Hkeep & Hraw).
  assert (Hnew : GFGProfile_new L (JObj kw) = Returns profile).
  { unfold GFGProfile_new. by rewrite Hval. }
  exists profile. split_and!.
  - exact Hnew.
  - exact Hkeep.
  - apply loads_dumps, to_dict_well_formed.
    destruct Hraw as [-> | Hraw]; [reflexivity|].
    by apply (dict_get_well_formed _ _ _ Hwf Hraw).
  - rewrite gfg_to_json_steps, normalize_reply, Hreply.
    cbn [mbind outcome_bind]. rewrite Hparse.
    cbn [mbind outcome_bind]. rewrite Hnew. reflexivity.
Qed.

Lemma conforming_reply_round_trips_witness :
  model_reply (Sample.answering Sample.reply_full) Sample.user
  = Returns Sample.reply_full
  /\ parse_response Sample.reply_full = Returns (JObj Sample.parsed_full)
  /\ conforms Sample.parsed_full
  /\ exists profile : GFGProfile,
       GFGProfile_new exact (JObj Sample.parsed_full) = Returns profile
       /\ (forall k v, k ∈ Field.all -> dict_get k Sample.parsed_full = Some v ->
             dict_get k (to_dict profile) = Some v)
       /\ Json.loads (Json.dumps Json.indented (JObj (to_dict profile)))
          = Returns (JObj (to_dict profile))
       /\ gfg_to_json (Sample.answering Sample.reply_full) exact Sample.user
            default_output_path ∅
          = if utf8_encodable (Json.dumps Json.indented (JObj (to_dict profile)))
            then (Returns (to_dict profile),
                  <[default_output_path :=
                      Whole (Json.dumps Json.indented (JObj (to_dict profile)))]>
                    (delete default_output_path ∅))
            else (Raises UnicodeEncodeError,
                  <[default_output_path := Partial]>
                    (delete default_output_path ∅)).
Proof.
  assert (H0 : model_reply (Sample.answering Sample.reply_full) Sample.user
               = Returns Sample.reply_full).
  { vm_compute. reflexivity. }
  assert (H1 : parse_response Sample.reply_full = Returns (JObj Sample.parsed_full)).
  { vm_compute. reflexivity. }
  assert (H2 : conforms Sample.parsed_full).
  { apply conforms_check_sound. vm_compute. reflexivity. }
  split; [exact H0|]. split; [exact H1|]. split; [exact H2|].
  exact (conforming_reply_round_trips (Sample.answering Sample.reply_full) exact
           Sample.user default_output_path ∅ _ _ H0 H1 H2).
Defined.

(** C9 (as stated) fails for persistence: the reply below conforms to the
    schema and its raw data holds a lone surrogate, which [json.loads] reads
    from its escape; the Profile is built, but the write cannot encode the
    text, so the run raises and the file is left incomplete. *)
Lemma conforming_surrogate_reply_is_not_saved :
  parse_response Sample.reply_surrogate = Returns (JObj Sample.parsed_surrogate)
  /\ conforms Sample.parsed_surrogate
  /\ (exists profile : GFGProfile,
        GFGProfile_new exact (JObj Sample.parsed_surrogate) = Returns profile)
  /\ gfg_to_json (Sample.answering Sample.reply_surrogate) exact Sample.user
       default_output_path ∅
     = (Raises UnicodeEncodeError, {[ default_output_path := Partial ]}).
Proof.
  split_and!.
  - vm_compute. reflexivity.
  - apply conforms_check_sound. vm_compute. reflexivity.
  - eexists. vm_compute. reflexivity.
  - vm_compute. reflexivity.
Qed.

(** ** Fuel

    Each scanner consumes text, so [fuel_for] is enough and more fuel gives
    the same result. *)

Lemma skip_ws_length (s : str) : (length (skip_ws s) <= length s)%nat.
Proof.
  induction s as [|c s IH]; [done|]. cbn. destruct (is_ws c); cbn; lia.
Qed.

Lemma push_Some (c : char) (o : option (str * str)) (x r : str) :
  push c o = Some (x, r) -> exists x', o = Some (x', r).
Proof. destruct o as [[x' r']|]; [|done]. cbn. intros [= <- <-]. eauto. Qed.

Lemma scanstring_shorter (n : nat) (s x r : str) :
  (length s <= n)%nat ->
  scanstring s = Some (x, r) ->
  (length r < length s)%nat.
Proof.
  revert s x r. induction n as [|n IH]; intros s x r Hn.
  { destruct s; [done|]. cbn in Hn. lia. }
  destruct s as [|c t]; [done|]. cbn [scanstring].
  repeat match goal with
         | |- Some _ = Some _ -> _ => intros [= <- <-]; cbn [length]; lia
         | |- None = Some _ -> _ => discriminate
         | |- push _ (scanstring ?t') = Some _ -> _ =>
             let H := fresh "H" in
             intros (? & H)%push_Some; apply IH in H; cbn [length] in *; lia
         | |- context [match hex4 ?a ?b ?c ?d with _ => _ end] =>
             destruct (hex4 a b c d)
         | |- context [match unescape ?e with _ => _ end] =>
             destruct (unescape e)
         | |- context [if ?b then _ else _] => destruct b
         | |- context [match ?l with [] => _ | _ :: _ => _ end] =>
             is_var l; destruct l
         end.
Qed.

Lemma literal_length (w s r : str) :
  literal w s = Some r -> length s = (length w + length r)%nat.
Proof.
  revert s. induction w as [|c w IH]; intros s; cbn.
  - by intros [= ->].
  - destruct s as [|c' s]; [done|]. destruct (c' =? c); [|done].
    intros H%IH. cbn. lia.
Qed.

Lemma constant_shorter (s : str) (v : json) (r : str) :
  constant s = Some (v, r) -> (length r < length s)%nat.
Proof.
  unfold constant. destruct s as [|c t]; [done|].
  repeat match goal with
         | |- context [if ?b then _ else _] => destruct b
         end;
    try discriminate;
    match goal with
    | |- context [literal ?w ?s] => destruct (literal w s) eqn:E
    end; cbn; intros [= <- <-]; apply literal_length in E; cbn in E; lia.
Qed.

Lemma match_number_shorter (s : str) (v : json) (r : str) :
  match_number s = Some (v, r) -> (length r < length s)%nat.
Proof.
  intros (sg & ip & fp & ep & -> & (_ & Hip & _) & _)%match_number_spec.
  destruct (int_shape_head _ _ Hip) as (c & t & -> & _).
  rewrite !length_app. cbn. lia.
Qed.

Lemma scanners_shorter (f : nat) :
  (forall s v r, scan_once f s = Some (v, r) -> (length r < length s)%nat)
  /\ (forall acc s m r,
        members f acc s = Some (m, r) -> (length r < length s)%nat)
  /\ (forall acc s l r,
        items f acc s = Some (l, r) -> (length r < length s)%nat).
Proof.
  induction f as [|f (IHv & IHm & IHi)]; [by repeat split|].
  split; [|split].
  - intros s v r. cbn [scan_once]. destruct s as [|c t]; [done|].
    destruct (c =? 34).
    { destruct (scanstring t) as [[x r']|] eqn:Hs; [|done]. intros [= <- <-].
      apply (scanstring_shorter _ _ _ _ (le_n _)) in Hs. cbn. lia. }
    destruct (c =? 123).
    { pose proof (skip_ws_length t) as Hw.
      destruct (skip_ws t) as [|c' t']; [done|].
      destruct (c' =? 125); [intros [= <- <-]; cbn in *; lia|].
      destruct (members f [] (c' :: t')) as [[m r']|] eqn:Hm; [|done].
      intros [= <- <-]. apply IHm in Hm. cbn in *. lia. }
    destruct (c =? 91).
    { pose proof (skip_ws_length t) as Hw.
      destruct (skip_ws t) as [|c' t']; [done|].
      destruct (c' =? 93); [intros [= <- <-]; cbn in *; lia|].
      destruct (items f [] (c' :: t')) as [[l r']|] eqn:Hi; [|done].
      intros [= <- <-]. apply IHi in Hi. cbn in *. lia. }
    destruct (constant (c :: t)) as [[v' r']|] eqn:Hc.
    { intros [= <- <-]. by apply constant_shorter in Hc. }
    apply match_number_shorter.
  - intros acc s m r. cbn [members]. destruct s as [|q t]; [done|].
    destruct (q =? 34); [|done].
    destruct (scanstring t) as [[key r0]|] eqn:Hs; [|done].
    cbn [mbind option_bind].
    apply (scanstring_shorter _ _ _ _ (le_n _)) in Hs.
    pose proof (skip_ws_length r0) as Hw0.
    destruct (skip_ws r0) as [|colon r1]; [done|].
    destruct (colon =? 58); [|done].
    pose proof (skip_ws_length r1) as Hw1.
    destruct (scan_once f (skip_ws r1)) as [[val r2]|] eqn:Hv; [|done].
    cbn [mbind option_bind]. apply IHv in Hv.
    pose proof (skip_ws_length r2) as Hw2.
    destruct (skip_ws r2) as [|d r3]; [done|].
    destruct (d =? 125); [intros [= <- <-]; cbn in *; lia|].
    destruct (d =? 44); [|done].
    pose proof (skip_ws_length r3) as Hw3.
    intros Hm%IHm. cbn in *. lia.
  - intros acc s l r. cbn [items].
    destruct (scan_once f s) as [[val r0]|] eqn:Hv; [|done].
    cbn [mbind option_bind]. apply IHv in Hv.
    pose proof (skip_ws_length r0) as Hw0.
    destruct (skip_ws r0) as [|d r1]; [done|].
    destruct (d =? 93); [intros [= <- <-]; cbn in *; lia|].
    destruct (d =? 44); [|done].
    pose proof (skip_ws_length r1) as Hw1.
    intros Hi%IHi. cbn in *. lia.
Qed.

(** One more unit of fuel changes nothing once the fuel covers the text. *)
Lemma scanners_fuel_step (f : nat) :
  (forall s, (2 * length s + 1 <= f)%nat -> scan_once (S f) s = scan_once f s)
  /\ (forall acc s, (2 * length s + 1 <= f)%nat ->
        members (S f) acc s = members f acc s)
  /\ (forall acc s, (2 * length s + 2 <= f)%nat ->
        items (S f) acc s = items f acc s).
Proof.
  induction f as [|f (IHv & IHm & IHi)]; [repeat split; intros; lia|].
  destruct (scanners_shorter f) as (Sv & Sm & Si).
  split; [|split].
  - intros s Hf. destruct s as [|c t]; [done|].
    cbn [length] in Hf.
    change (scan_once (S (S f)) (c :: t)) with
      (if c =? 34 then (fun '(x, r) => (JStr x, r)) <$> scanstring t
       else if c =? 123 then
         match skip_ws t with
         | c' :: t' =>
             if c' =? 125 then Some (JObj [], t')
             else (fun '(m, r) => (JObj m, r)) <$> members (S f) [] (c' :: t')
         | [] => None
         end
       else if c =? 91 then
         match skip_ws t with
         | c' :: t' =>
             if c' =? 93 then Some (JArr [], t')
             else (fun '(l, r) => (JArr l, r)) <$> items (S f) [] (c' :: t')
         | [] => None
         end
       else match constant (c :: t) with
            | Some r => Some r
            | None => match_number (c :: t)
            end).
    cbn [scan_once].
    pose proof (skip_ws_length t) as Hw.
    destruct (skip_ws t) as [|c' t']; [done|]. cbn [length] in Hw.
    rewrite IHm, IHi by (cbn [length]; lia). done.
  - intros acc s Hf. destruct s as [|q t]; [done|].
    cbn [length] in Hf.
    change (members (S (S f)) acc (q :: t)) with
      (if q =? 34 then
         '(key, r) ← scanstring t;
         match skip_ws r with
         | colon :: r1 =>
             if colon =? 58 then
               '(val, r2) ← scan_once (S f) (skip_ws r1);
               let acc := dict_set key val acc in
               match skip_ws r2 with
               | d :: r3 =>
                   if d =? 125 then Some (acc, r3)
                   else if d =? 44 then members (S f) acc (skip_ws r3)
                   else None
               | [] => None
               end
             else None
         | [] => None
         end
       else None).
    cbn [members].
    destruct (q =? 34); [|done].
    destruct (scanstring t) as [[key r0]|] eqn:Hs; [|done].
    cbn [mbind option_bind].
    apply (scanstring_shorter _ _ _ _ (le_n _)) in Hs.
    pose proof (skip_ws_length r0) as Hw0.
    destruct (skip_ws r0) as [|colon r1]; [done|]. cbn [length] in Hw0.
    destruct (colon =? 58); [|done].
    pose proof (skip_ws_length r1) as Hw1.
    rewrite IHv by lia.
    destruct (scan_once f (skip_ws r1)) as [[val r2]|] eqn:Hv; [|done].
    cbn [mbind option_bind]. apply Sv in Hv.
    pose proof (skip_ws_length r2) as Hw2.
    destruct (skip_ws r2) as [|d r3]; [done|]. cbn [length] in Hw2.
    destruct (d =? 125); [done|]. destruct (d =? 44); [|done].
    pose proof (skip_ws_length r3) as Hw3.
    apply IHm. lia.
  - intros acc s Hf.
    change (items (S (S f)) acc s) with
      ('(val, r) ← scan_once (S f) s;
       let acc := acc ++ [val] in
       match skip_ws r with
       | d :: r1 =>
           if d =? 93 then Some (acc, r1)
           else if d =? 44 then items (S f) acc (skip_ws r1)
           else None
       | [] => None
       end).
    cbn [items]. rewrite IHv by lia.
    destruct (scan_once f s) as [[val r0]|] eqn:Hv; [|done].
    cbn [mbind option_bind]. apply Sv in Hv.
    pose proof (skip_ws_length r0) as Hw0.
    destruct (skip_ws r0) as [|d r1]; [done|]. cbn [length] in Hw0.
    destruct (d =? 93); [done|]. destruct (d =? 44); [|done].
    pose proof (skip_ws_length r1) as Hw1.
    apply IHi. lia.
Qed.

(** More fuel than [fuel_for] gives what [fuel_for] gives. *)
Lemma scan_once_fuel (s : str) (f : nat) :
  (fuel_for s <= f)%nat -> scan_once f s = scan_once (fuel_for s) s.
Proof.
  induction 1 as [|f Hf IH]; [done|].
  rewrite <- IH. apply (proj1 (scanners_fuel_step f)).
  unfold fuel_for in Hf. lia.
Qed.

(** * Further properties of the program *)

(** ** Fetching *)

Lemma fetch_two (W : world) (u : str) :
  fetch_gfg_profile W u =
    match requests_get W (auth_url u) with
    | Raises e => Raises e
    | Returns r =>
        if (status_code r =? 200)%Z then Returns (Some (text r))
        else match requests_get W (www_url u) with
             | Raises e => Raises e
             | Returns r2 =>
                 if (status_code r2 =? 200)%Z then Returns (Some (text r2))
                 else Returns None
             end
    end.
Proof. reflexivity. Qed.

(** X1: when the first address answers with status 200, the fetch returns
    the body of that answer, whatever the second address would do. *)
Theorem fetch_first_address_wins (W : world) (u : str) (r : response) :
  requests_get W (auth_url u) = Returns r ->
  status_code r = 200%Z ->
  fetch_gfg_profile W u = Returns (Some (text r)).
Proof.
  intros Hr Hs. rewrite fetch_two, Hr, Hs. reflexivity.
Qed.

Lemma fetch_first_address_wins_witness :
  requests_get (Sample2.first_only (of_string "<h1>Ann</h1>"))
    (www_url Sample.user) = Raises RequestException
  /\ fetch_gfg_profile (Sample2.first_only (of_string "<h1>Ann</h1>")) Sample.user
     = Returns (Some (of_string "<h1>Ann</h1>")).
Proof.
  split; [vm_compute; reflexivity|].
  apply (fetch_first_address_wins
           (Sample2.first_only (of_string "<h1>Ann</h1>")) Sample.user
           {| status_code := 200; text := of_string "<h1>Ann</h1>" |}).
  - vm_compute. reflexivity.
  - reflexivity.
Defined.

(** X2: when the first address answers with a status other than 200, the
    fetch is decided by the second address alone: its body on status 200,
    [None] on another status, its exception when the request fails. *)
Theorem fetch_falls_back_to_second (W : world) (u : str) (r : response) :
  requests_get W (auth_url u) = Returns r ->
  status_code r <> 200%Z ->
  fetch_gfg_profile W u =
    match requests_get W (www_url u) with
    | Returns r2 =>
        Returns (if (status_code r2 =? 200)%Z then Some (text r2) else None)
    | Raises e => Raises e
    end.
Proof.
  intros Hr Hs. rewrite fetch_two, Hr.
  apply Z.eqb_neq in Hs. rewrite Hs.
  destruct (requests_get W (www_url u)) as [r2|e]; [|done].
  by destruct (status_code r2 =? 200)%Z.
Qed.

Lemma fetch_falls_back_to_second_witness :
  fetch_gfg_profile Sample2.second_only Sample.user
  = Returns (Some (of_string "<h1>Ann</h1>")).
Proof.
  apply (fetch_falls_back_to_second Sample2.second_only Sample.user
           {| status_code := 404; text := of_string "Not Found" |}).
  - vm_compute. reflexivity.
  - cbn. lia.
Defined.

Lemma fetch_raises_spec (W : world) (u : str) (e : exn) :
  fetch_raises W u e -> fetch_gfg_profile W u = Raises e.
Proof.
  intros [H | (r & Hr & Hs & H2)]; rewrite fetch_two.
  - by rewrite H.
  - apply Z.eqb_neq in Hs. by rewrite Hr, Hs, H2.
Qed.

(** ** The pipeline *)

Lemma run_raises (W : world) (L : lax) (u p : str) (d : disk) (e : exn) :
  normalize W L u = Raises e ->
  gfg_to_json W L u p d = (Raises e, delete p d).
Proof. intros H. rewrite gfg_to_json_steps. by rewrite H. Qed.

(** X3: a transport exception of either request ends [gfg_to_json] with
    that very exception; the old output file is already removed and no new
    one is written. *)
Theorem transport_error_ends_run
    (W : world) (L : lax) (u p : str) (d : disk) (e : exn) :
  fetch_raises W u e ->
  gfg_to_json W L u p d = (Raises e, delete p d).
Proof.
  intros H%fetch_raises_spec. apply run_raises.
  unfold normalize. by rewrite H.
Qed.

Lemma transport_error_ends_run_witness :
  fetch_raises Sample2.second_fails Sample.user RequestException
  /\ gfg_to_json Sample2.second_fails exact Sample.user default_output_path
       {[ default_output_path := Whole [] ]}
     = (Raises RequestException,
        delete default_output_path {[ default_output_path := Whole [] ]}).
Proof.
  assert (H : fetch_raises Sample2.second_fails Sample.user RequestException).
  { right. exists {| status_code := 500; text := [] |}.
    split_and!; [vm_compute; reflexivity | cbn; lia | vm_compute; reflexivity]. }
  split; [exact H|].
  exact (transport_error_ends_run Sample2.second_fails exact Sample.user
           default_output_path {[ default_output_path := Whole [] ]}
           RequestException H).
Defined.

(** X4: a page served with status 200 but with an empty body is treated as
    no page: the run raises the not-found [ValueError], the parser and the
    model are not reached, and no output file is left. *)
Theorem empty_page_is_not_found
    (W : world) (L : lax) (u p : str) (d : disk) :
  fetch_gfg_profile W u = Returns (Some []) ->
  gfg_to_json W L u p d = (Raises (ValueError msg_not_found), delete p d).
Proof.
  intros H. apply run_raises. unfold normalize. by rewrite H.
Qed.

Lemma empty_page_is_not_found_witness :
  fetch_gfg_profile (Sample2.first_only []) Sample.user = Returns (Some [])
  /\ gfg_to_json (Sample2.first_only []) exact Sample.user default_output_path ∅
     = (Raises (ValueError msg_not_found), delete default_output_path ∅).
Proof.
  assert (H : fetch_gfg_profile (Sample2.first_only []) Sample.user
              = Returns (Some [])) by (vm_compute; reflexivity).
  split; [exact H|].
  exact (empty_page_is_not_found (Sample2.first_only []) exact Sample.user
           default_output_path ∅ H).
Defined.

(** X5: a run changes no path of the disk other than the output path. *)
Theorem run_touches_only_output_path
    (W : world) (L : lax) (u p q : str) (d : disk) :
  q <> p ->
  (gfg_to_json W L u p d).2 !! q = d !! q.
Proof.
  intros Hq. rewrite gfg_to_json_steps.
  destruct (normalize W L u) as [r|e]; cbv zeta.
  - destruct (utf8_encodable _); cbn;
      by rewrite lookup_insert_ne, lookup_delete_ne.
  - cbn. by rewrite lookup_delete_ne.
Qed.

Lemma run_touches_only_output_path_witness :
  (gfg_to_json (Sample.answering Sample.reply_extra) exact Sample.user
     default_output_path {[ Sample.user := Whole [] ]}).2 !! Sample.user
  = ({[ Sample.user := Whole [] ]} : disk) !! Sample.user.
Proof.
  apply run_touches_only_output_path. vm_compute. discriminate.
Defined.

(** X6: what a run returns or raises does not depend on the disk it starts
    from: neither on whether the output file existed nor on what it held. *)
Theorem run_outcome_ignores_disk
    (W : world) (L : lax) (u p : str) (d d' : disk) :
  (gfg_to_json W L u p d).1 = (gfg_to_json W L u p d').1.
Proof.
  rewrite !gfg_to_json_steps.
  destruct (normalize W L u) as [r|e]; cbv zeta; [|done].
  by destruct (utf8_encodable _).
Qed.

Lemma normalize_returns (W : world) (L : lax) (u : str) (r : pydict) :
  normalize W L u = Returns r ->
  exists (reply : str) (parsed : json) (profile : GFGProfile),
    model_reply W u = Returns reply
    /\ parse_response reply = Returns parsed
    /\ GFGProfile_new L parsed = Returns profile
    /\ r = to_dict profile.
Proof.
  rewrite normalize_reply.
  unfold mbind, mret, outcome_bind, outcome_ret.
  destruct (model_reply W u) as [reply|e]; [|done].
  destruct (parse_response reply) as [parsed|e] eqn:Hp; [|done].
  destruct (GFGProfile_new L parsed) as [profile|e] eqn:Hv; [|done].
  intros [= <-]. by exists reply, parsed, profile.
Qed.

(** Every field of an accepted Profile is what its validator made of the
    keyword, or the default. *)
Lemma validate_every_field (L : lax) (kw : pydict) (p : GFGProfile) :
  validate L kw = Some p ->
  (dict_get Field.username kw ≫= val_str L) = Some (username p)
  /\ field (val_opt_str L) None Field.display_name kw = Some (display_name p)
  /\ field (val_opt_str L) None Field.about kw = Some (about p)
  /\ field (val_opt_str L) None Field.reputation kw = Some (reputation p)
  /\ field (val_opt_int L) None Field.followers kw = Some (followers p)
  /\ field (val_opt_int L) None Field.following kw = Some (following p)
  /\ field (val_opt_int L) None Field.problems_solved kw = Some (problems_solved p)
  /\ field (val_opt_int L) None Field.articles_count kw = Some (articles_count p)
  /\ field (val_list_str L) [] Field.badges kw = Some (badges p)
  /\ field (val_list_str L) [] Field.top_skills kw = Some (top_skills p)
  /\ field (val_dict L) [] Field.raw_extracted kw = Some (raw_extracted p).
Proof.
  unfold validate. intros H.
  repeat match type of H with
         | (?m ≫= _) = Some _ =>
             let E := fresh "E" in
             destruct m eqn:E; cbn [mbind option_bind] in H; [|discriminate H]
         end.
  injection H as <-. cbn. done.
Qed.

(** X7: a reply that parses to an object without the key [username] is
    refused by the schema, in every validation mode: the run raises
    [ValidationError] and leaves no output file. *)
Theorem reply_without_username_is_refused
    (W : world) (L : lax) (u p reply : str) (kw : pydict) (d : disk) :
  model_reply W u = Returns reply ->
  parse_response reply = Returns (JObj kw) ->
  dict_get Field.username kw = None ->
  gfg_to_json W L u p d = (Raises ValidationError, delete p d).
Proof.
  intros Hr Hp Hk. apply run_raises. rewrite normalize_reply, Hr.
  cbn. rewrite Hp. cbn. unfold validate. by rewrite Hk.
Qed.

Lemma reply_without_username_is_refused_witness :
  gfg_to_json (Sample.answering Sample2.reply_nameless) exact Sample.user
    default_output_path ∅
  = (Raises ValidationError, delete default_output_path ∅).
Proof.
  apply (reply_without_username_is_refused
           (Sample.answering Sample2.reply_nameless) exact Sample.user
           default_output_path Sample2.reply_nameless
           [(Field.followers, JInt 3)] ∅);
    vm_compute; reflexivity.
Defined.

(** X8: a reply that is valid JSON but not an object cannot be unpacked as
    keywords: the run raises [TypeError] and leaves no output file. *)
Theorem reply_not_an_object_is_type_error
    (W : world) (L : lax) (u p reply : str) (v : json) (d : disk) :
  model_reply W u = Returns reply ->
  parse_response reply = Returns v ->
  is_dict v = false ->
  gfg_to_json W L u p d = (Raises TypeError, delete p d).
Proof.
  intros Hr Hp Hv. apply run_raises. rewrite normalize_reply, Hr.
  cbn. rewrite Hp. cbn. by destruct v.
Qed.

Lemma reply_not_an_object_is_type_error_witness :
  gfg_to_json (Sample.answering Sample2.reply_list) exact Sample.user
    default_output_path ∅
  = (Raises TypeError, delete default_output_path ∅).
Proof.
  apply (reply_not_an_object_is_type_error
           (Sample.answering Sample2.reply_list) exact Sample.user
           default_output_path Sample2.reply_list
           (JArr [JStr Sample.user]) ∅);
    vm_compute; reflexivity.
Defined.

(** X9: a reply that is not JSON and has no opening brace followed by a
    closing brace ends the run with the [ValueError] whose message is the
    fixed prefix followed by the whole reply; no output file is left. *)
Theorem reply_without_braces_is_reported
    (W : world) (L : lax) (u p reply : str) (e : exn) (d : disk) :
  model_reply W u = Returns reply ->
  Json.loads reply = Raises e ->
  brace_search reply = None ->
  gfg_to_json W L u p d
  = (Raises (ValueError (msg_invalid_json ++ reply)), delete p d).
Proof.
  intros Hr Hl Hb. apply run_raises. rewrite normalize_reply, Hr.
  cbn. by rewrite (parse_response_no_braces reply e Hl Hb).
Qed.

Lemma reply_without_braces_is_reported_witness :
  gfg_to_json (Sample.answering Sample2.reply_sorry) exact Sample.user
    default_output_path ∅
  = (Raises (ValueError (msg_invalid_json ++ Sample2.reply_sorry)),
     delete default_output_path ∅).
Proof.
  apply (reply_without_braces_is_reported
           (Sample.answering Sample2.reply_sorry) exact Sample.user
           default_output_path Sample2.reply_sorry JSONDecodeError ∅);
    vm_compute; reflexivity.
Defined.

(** X10: the mapping that a successful run returns has exactly the eleven
    fields of the schema as keys, in the order of their declaration,
    whatever keys the reply had. *)
Theorem result_has_the_schema_fields
    (W : world) (L : lax) (u p : str) (d d' : disk) (r : pydict) :
  gfg_to_json W L u p d = (Returns r, d') ->
  fst <$> r = Field.all.
Proof.
  intros [Hn _]%gfg_to_json_returns.
  apply normalize_returns in Hn as (reply & parsed & profile & _ & _ & _ & ->).
  apply to_dict_keys.
Qed.

Lemma result_has_the_schema_fields_witness :
  Json.loads Sample.reply_extra = Returns (JObj Sample.parsed_extra)
  /\ fst <$> Sample.parsed_extra = [Field.username; Sample.contest_rating]
  /\ fst <$> to_dict Sample.bare = Field.all.
Proof.
  split; [vm_compute; reflexivity|]. split; [reflexivity|].
  apply (result_has_the_schema_fields (Sample.answering Sample.reply_extra)
           exact Sample.user default_output_path ∅
           (Sample.saved (to_dict Sample.bare))).
  vm_compute. reflexivity.
Defined.

(** X11: a field with a default that the reply does not give has its default
    in the result: null for the optional strings and counters, the empty
    list for the two lists, the empty mapping for [raw_extracted]. *)
Theorem absent_field_takes_default
    (L : lax) (kw : pydict) (p : GFGProfile) (k : str) (dv : json) :
  GFGProfile_new L (JObj kw) = Returns p ->
  (k, dv) ∈ defaults ->
  dict_get k kw = None ->
  dict_get k (to_dict p) = Some dv.
Proof.
  unfold GFGProfile_new. destruct (validate L kw) as [q|] eqn:Hv; [|done].
  intros [= ->] Hk Hnone.
  apply validate_every_field in Hv
    as (_ & H1 & H2 & H3 & H4 & H5 & H6 & H7 & H8 & H9 & H10).
  unfold defaults in Hk.
  repeat (apply elem_of_cons in Hk as [[= -> ->] | Hk]);
    [..| by apply elem_of_nil in Hk];
    unfold field in *;
    match goal with
    | H : match dict_get ?f kw with _ => _ end = Some _ |- dict_get ?f _ = _ =>
        rewrite Hnone in H; injection H as H; cbn; by rewrite <- H
    end.
Qed.

Lemma absent_field_takes_default_witness :
  dict_get Field.badges (to_dict Sample.bare) = Some (JArr []).
Proof.
  apply (absent_field_takes_default exact
           [(Field.username, JStr Sample.user)] Sample.bare).
  - vm_compute. reflexivity.
  - unfold defaults. do 7 right. left.
  - vm_compute. reflexivity.
Defined.

(** X12: the mapping shown by [profile.dict()] is itself accepted by the
    schema, in every validation mode, and gives back the same Profile. *)
Theorem dict_of_profile_validates_back (L : lax) (p : GFGProfile) :
  GFGProfile_new L (JObj (to_dict p)) = Returns p.
Proof.
  assert (Hm : forall ss : list str, mapM (val_str L) (JStr <$> ss) = Some ss).
  { induction ss as [|s ss IH]; [done|]. cbn. cbn in IH. by rewrite IH. }
  destruct p as [u dn ab rp fr fg ps ac bd ts re].
  unfold GFGProfile_new, validate, field.
  pose proof (to_dict_get
    {| username := u; display_name := dn; about := ab; reputation := rp;
       followers := fr; following := fg; problems_solved := ps;
       articles_count := ac; badges := bd; top_skills := ts;
       raw_extracted := re |})
    as (E0 & E1 & E2 & E3 & E4 & E5 & E6 & E7 & E8 & E9 & E10).
  rewrite E0, E1, E2, E3, E4, E5, E6, E7, E8, E9, E10.
  cbn [username display_name about reputation followers following
       problems_solved articles_count badges top_skills raw_extracted
       val_list_str val_dict].
  rewrite !Hm.
  by destruct dn, ab, rp, fr, fg, ps, ac.
Qed.

Lemma validated_raw_well_formed (L : lax) (kw : pydict) (p : GFGProfile) :
  lax_well_formed L ->
  Json.well_formed (JObj kw) = true ->
  validate L kw = Some p ->
  Json.well_formed (JObj (raw_extracted p)) = true.
Proof.
  intros HL Hwf Hv.
  apply validate_every_field in Hv as (_&_&_&_&_&_&_&_&_&_& Hraw).
  unfold field in Hraw.
  destruct (dict_get Field.raw_extracted kw) as [v|] eqn:Hk.
  - pose proof (dict_get_well_formed _ _ _ Hwf Hk) as Hv.
    destruct v; cbn in Hraw; try (by apply (HL _ _ Hraw)).
    by injection Hraw as <-.
  - by injection Hraw as <-.
Qed.

(** X13: after a successful run, reading the output file with [json.loads]
    gives the mapping that the run returned, provided the lax conversions to
    [dict], if any, give mappings as the decoder builds them. *)
Theorem saved_file_reads_back
    (W : world) (L : lax) (u p : str) (d d' : disk) (r : pydict) :
  lax_well_formed L ->
  gfg_to_json W L u p d = (Returns r, d') ->
  exists content : str,
    d' !! p = Some (Whole content)
    /\ Json.loads content = Returns (JObj r).
Proof.
  intros HL [Hn ->]%gfg_to_json_returns.
  apply normalize_returns in Hn as (reply & parsed & profile & _ & Hp & Hv & ->).
  exists (Json.dumps Json.indented (JObj (to_dict profile))).
  split; [apply lookup_insert_eq|].
  apply loads_dumps, to_dict_well_formed.
  apply parse_response_well_formed in Hp.
  unfold GFGProfile_new in Hv. destruct parsed; try discriminate Hv.
  destruct (validate L m) as [q|] eqn:Hq; [|discriminate Hv].
  injection Hv as ->.
  by apply (validated_raw_well_formed L m).
Qed.

Lemma saved_file_reads_back_witness :
  lax_well_formed exact
  /\ exists content : str,
       Sample.saved (to_dict Sample.bare) !! default_output_path
       = Some (Whole content)
       /\ Json.loads content = Returns (JObj (to_dict Sample.bare)).
Proof.
  assert (HL : lax_well_formed exact) by (intros v m; discriminate).
  split; [exact HL|].
  apply (saved_file_reads_back (Sample.answering Sample.reply_extra) exact
           Sample.user default_output_path ∅ _ _ HL).
  vm_compute. reflexivity.
Defined.

(** ** Extraction *)

(** X14: the keys of the extracted data, in order: the display name and the
    about text when their tag is found, the four counters always, the badges
    and the skills when their lists are not empty, and the text snippet
    always. *)
Theorem extracted_data_keys (bs : str -> soup) (html : str) (data : pydict) :
  parse_profile_html bs html = Returns data ->
  fst <$> data = extracted_keys (bs html).
Proof.
  unfold parse_profile_html, extracted_keys, badge_texts, skill_texts.
  cbv zeta. unfold mbind, mret, outcome_bind, outcome_ret.
  destruct (grab_num _ pat_followers) as [n1|e]; [|done].
  destruct (grab_num _ pat_following) as [n2|e]; [|done].
  destruct (grab_num _ pat_problems) as [n3|e]; [|done].
  destruct (grab_num _ pat_articles) as [n4|e]; [|done].
  intros [= <-].
  destruct (select_one sel_name (bs html)), (select_one sel_about (bs html)),
    (filter _ (stripped_text <$> select sel_badges (bs html))),
    (stripped_text <$> select sel_skills (bs html));
    reflexivity.
Qed.

Lemma extracted_data_keys_witness :
  fst <$> [(Field.display_name, JStr (of_string "Ann"));
           (Field.followers, JNull); (Field.following, JNull);
           (Field.problems_solved, JNull); (Field.articles_count, JNull);
           (Key.raw_text_snippet, JStr (of_string "Ann"))]
  = extracted_keys Sample.page.
Proof.
  apply (extracted_data_keys (fun _ => Sample.page) []).
  vm_compute. reflexivity.
Defined.

Lemma digits_value_nonneg (ds : str) : (0 <= digits_value ds)%Z.
Proof.
  unfold digits_value.
  assert (H : forall acc, (0 <= acc)%Z ->
            (0 <= fold_left (fun acc c => 10 * acc + digit_value c) ds acc)%Z).
  { induction ds as [|c ds IH]; intros acc Hacc; [done|].
    cbn. apply IH. unfold digit_value. lia. }
  by apply H.
Qed.

Lemma grab_num_nonneg (text : str) (pat : list str) (z : Z) :
  grab_num text pat = Returns (Some z) -> (0 <= z)%Z.
Proof.
  unfold grab_num. destruct (re_search pat text) as [g|]; [|done].
  unfold py_int. destruct (Str.remove_char 44 g) as [|c s]; [done|].
  destruct (int_max_str_digits <? length (c :: s))%nat; [done|].
  intros [= <-]. apply digits_value_nonneg.
Qed.

(** X15: each of the four counter keys is present in the extracted data; its
    value is what [grab_num] found for its pattern, null or an integer, and
    an integer found on the page is never negative. *)
Theorem extracted_counters
    (bs : str -> soup) (html : str) (data : pydict) (k : str) (pat : list str) :
  parse_profile_html bs html = Returns data ->
  (k, pat) ∈ counters ->
  exists n : option Z,
    grab_num (visible_text (bs html)) pat = Returns n
    /\ dict_get k data = Some (json_opt JInt n)
    /\ forall z, n = Some z -> (0 <= z)%Z.
Proof.
  unfold parse_profile_html. cbv zeta.
  unfold mbind, mret, outcome_bind, outcome_ret.
  destruct (grab_num _ pat_followers) as [n1|e] eqn:E1; [|done].
  destruct (grab_num _ pat_following) as [n2|e] eqn:E2; [|done].
  destruct (grab_num _ pat_problems) as [n3|e] eqn:E3; [|done].
  destruct (grab_num _ pat_articles) as [n4|e] eqn:E4; [|done].
  intros [= <-] Hk. unfold counters in Hk.
  repeat (apply elem_of_cons in Hk as [[= -> ->] | Hk]);
    [..| by apply elem_of_nil in Hk];
    [exists n1 | exists n2 | exists n3 | exists n4];
    (split; [assumption|]);
    (split; [| intros z ->; eapply grab_num_nonneg; eassumption]);
    destruct (select_one sel_name (bs html)), (select_one sel_about (bs html)),
      (filter _ (stripped_text <$> select sel_badges (bs html))),
      (stripped_text <$> select sel_skills (bs html));
    reflexivity.
Qed.

Lemma extracted_counters_witness :
  exists n : option Z,
    grab_num (visible_text Sample.page) pat_followers = Returns n
    /\ dict_get Field.followers
         [(Field.display_name, JStr (of_string "Ann"));
          (Field.followers, JNull); (Field.following, JNull);
          (Field.problems_solved, JNull); (Field.articles_count, JNull);
          (Key.raw_text_snippet, JStr (of_string "Ann"))]
       = Some (json_opt JInt n)
    /\ forall z, n = Some z -> (0 <= z)%Z.
Proof.
  apply (extracted_counters (fun _ => Sample.page) []).
  - vm_compute. reflexivity.
  - unfold counters. left.
Defined.

(** X16: the text snippet is always present in the extracted data: it is the
    visible text of the page cut after its first 2000 characters, so the
    whole text when that has at most 2000 characters. *)
Theorem extracted_snippet (bs : str -> soup) (html : str) (data : pydict) :
  parse_profile_html bs html = Returns data ->
  exists snippet : str,
    dict_get Key.raw_text_snippet data = Some (JStr snippet)
    /\ snippet `prefix_of` visible_text (bs html)
    /\ length snippet = (length (visible_text (bs html)) `min` 2000)%nat.
Proof.
  unfold parse_profile_html. cbv zeta.
  unfold mbind, mret, outcome_bind, outcome_ret.
  destruct (grab_num _ pat_followers) as [n1|e]; [|done].
  destruct (grab_num _ pat_following) as [n2|e]; [|done].
  destruct (grab_num _ pat_problems) as [n3|e]; [|done].
  destruct (grab_num _ pat_articles) as [n4|e]; [|done].
  intros [= <-]. exists (take 2000 (visible_text (bs html))).
  split; [apply dict_get_set_eq|].
  split; [apply prefix_take|].
  rewrite length_take. lia.
Qed.

Lemma extracted_snippet_witness :
  exists snippet : str,
    dict_get Key.raw_text_snippet
      [(Field.display_name, JStr (of_string "Ann"));
       (Field.followers, JNull); (Field.following, JNull);
       (Field.problems_solved, JNull); (Field.articles_count, JNull);
       (Key.raw_text_snippet, JStr (of_string "Ann"))]
    = Some (JStr snippet)
    /\ snippet `prefix_of` visible_text Sample.page
    /\ length snippet = (length (visible_text Sample.page) `min` 2000)%nat.
Proof.
  apply (extracted_snippet (fun _ => Sample.page) []).
  vm_compute. reflexivity.
Defined.

(** What [grab_num] raises is a [ValueError] of [int]: for the empty
    string, or for more digits than the limit. *)
Lemma grab_num_raises (text : str) (pat : list str) (e : exn) :
  grab_num text pat = Raises e ->
  e = ValueError msg_empty_int
  \/ exists n : nat, (4300 < n)%nat /\ e = ValueError (msg_int_limit n).
Proof.
  unfold grab_num. destruct (re_search pat text) as [g|]; [|done].
  unfold py_int, int_max_str_digits.
  destruct (Str.remove_char 44 g) as [|c s]; [by intros [= <-]; left|].
  destruct (Nat.ltb_spec 4300 (length (c :: s))) as [Hlt|_]; [|done].
  intros [= <-]. right. by exists (length (c :: s)).
Qed.

Lemma remove_only_commas (grp : str) :
  Forall (fun c => c = 44) grp -> Str.remove_char 44 grp = [].
Proof.
  induction 1 as [|c grp -> _ IH]; [done|].
  unfold Str.remove_char in *. by rewrite filter_cons_False by (by intros ?).
Qed.

(** X17: when the leftmost match of a counter pattern on the page text has
    a group made of commas only, the extraction as a whole raises and no
    data is returned, also for the other fields.  What it raises is the
    [ValueError] of [int] on the empty string when the counters searched
    before this one return; in any case it is a [ValueError] of [int], for
    the empty string or for more digits than the limit. *)
Theorem commas_only_count_fails_extraction
    (bs : str -> soup) (html : str) (before after : list (list str))
    (pat : list str) (l lab pre seps grp rest : str) :
  counter_patterns = before ++ pat :: after ->
  l ∈ pat ->
  Forall2 (fun p t => ci_match p t = true) l lab ->
  visible_text (bs html) = pre ++ lab ++ seps ++ grp ++ rest ->
  (forall i, (i < length pre)%nat ->
     match_at pat (drop i (visible_text (bs html))) = None) ->
  Forall (fun c => is_sep c = true) seps ->
  grp <> [] ->
  Forall (fun c => c = 44) grp ->
  match rest with c :: _ => is_grp c = false | [] => True end ->
  (Forall (fun q => exists n, grab_num (visible_text (bs html)) q = Returns n)
     before ->
   parse_profile_html bs html = Raises (ValueError msg_empty_int))
  /\ (parse_profile_html bs html = Raises (ValueError msg_empty_int)
      \/ exists n : nat,
           (4300 < n)%nat
           /\ parse_profile_html bs html = Raises (ValueError (msg_int_limit n))).
Proof.
  intros Hcp Hl Hlab Htext Hfirst Hs Hne Hc Hr.
  assert (Hpat : pat ∈ counter_patterns).
  { rewrite Hcp. apply elem_of_app. right. by left. }
  assert (Hraise : grab_num (visible_text (bs html)) pat
                   = Raises (ValueError msg_empty_int)).
  { assert (Hg : Forall (fun c => is_grp c = true) grp).
    { eapply Forall_impl; [exact Hc|]. by intros c ->. }
    unfold grab_num. rewrite Htext in Hfirst |- *.
    rewrite (re_search_skip _ _ _ Hfirst).
    rewrite (re_search_here _ _ grp) by (by apply (match_at_label pat l)).
    by rewrite (remove_only_commas grp Hc). }
  clear Hl Hlab Htext Hfirst Hs Hne Hc Hr Hpat.
  unfold parse_profile_html. cbv zeta.
  unfold mbind, mret, outcome_bind, outcome_ret.
  unfold counter_patterns in Hcp.
  assert (Hlim : forall q e, grab_num (visible_text (bs html)) q = Raises e ->
            @Raises pydict e = Raises (ValueError msg_empty_int)
            \/ exists n : nat, (4300 < n)%nat
                 /\ @Raises pydict e = Raises (ValueError (msg_int_limit n))).
  { intros q e [-> | (n & Hn & ->)]%grab_num_raises; [by left|].
    right. by exists n. }
  destruct before as [|q1 [|q2 [|q3 [|q4 before]]]];
    injection Hcp as <-; subst; try (by destruct before).
  - rewrite Hraise. split; [done|by left].
  - destruct (grab_num _ pat_followers) as [n1|e1] eqn:E1.
    + rewrite Hraise. split; [done|by left].
    + split; [|by eapply Hlim].
      intros [[n Hn] _]%Forall_cons. congruence.
  - destruct (grab_num _ pat_followers) as [n1|e1] eqn:E1.
    + destruct (grab_num _ pat_following) as [n2|e2] eqn:E2.
      * rewrite Hraise. split; [done|by left].
      * split; [|by eapply Hlim].
        intros [_ [[n Hn] _]%Forall_cons]%Forall_cons. congruence.
    + split; [|by eapply Hlim].
      intros [[n Hn] _]%Forall_cons. congruence.
  - destruct (grab_num _ pat_followers) as [n1|e1] eqn:E1.
    + destruct (grab_num _ pat_following) as [n2|e2] eqn:E2.
      * destruct (grab_num _ pat_problems) as [n3|e3] eqn:E3.
        -- rewrite Hraise. split; [done|by left].
        -- split; [|by eapply Hlim].
           intros [_ [_ [[n Hn] _]%Forall_cons]%Forall_cons]%Forall_cons.
           congruence.
      * split; [|by eapply Hlim].
        intros [_ [[n Hn] _]%Forall_cons]%Forall_cons. congruence.
    + split; [|by eapply Hlim].
      intros [[n Hn] _]%Forall_cons. congruence.
Qed.

Lemma commas_only_count_fails_extraction_witness :
  visible_text Sample2.comma_page = of_string "Followers: ,"
  /\ parse_profile_html (fun _ => Sample2.comma_page) []
     = Raises (ValueError msg_empty_int).
Proof.
  split; [vm_compute; reflexivity|].
  refine (proj1 (commas_only_count_fails_extraction
                   (fun _ => Sample2.comma_page) []
                   [] [pat_following; pat_problems; pat_articles]
                   pat_followers Sample.followers_label Sample.followers_label []
                   Sample.followers_seps [44] [] _ _ _ _ _ _ _ _ _) _).
  - reflexivity.
  - by left.
  - repeat constructor.
  - vm_compute. reflexivity.
  - cbn. intros i Hi. lia.
  - repeat constructor.
  - discriminate.
  - repeat constructor.
  - exact I.
  - constructor.
Defined.

Lemma kept_texts_nil (es : list element) :
  filter (fun b => b <> []) (stripped_text <$> es) = []
  <-> Forall (fun e => stripped_text e = []) es.
Proof.
  split.
  - intros Hf. apply Forall_forall. intros e He.
    destruct (decide (stripped_text e = [])) as [|Hne]; [done|].
    assert (Hin : stripped_text e ∈
              filter (fun b => b <> []) (stripped_text <$> es)).
    { apply list_elem_of_filter. split; [done|]. by apply list_elem_of_fmap_2. }
    rewrite Hf in Hin. by apply elem_of_nil in Hin.
  - intros Hall.
    induction Hall as [|e es He _ IH]; [done|].
    rewrite fmap_cons, filter_cons_False by (by intros ?). exact IH.
Qed.

(** X18: the badges entry of the extracted data is tied to the page: the
    texts kept are the non-empty stripped texts of the badge tags, in
    document order.  There is no entry exactly when every badge tag has an
    empty text; otherwise the entry is the list of the kept texts, which is
    not empty and holds no empty string. *)
Theorem extracted_badges (bs : str -> soup) (html : str) (data : pydict) :
  parse_profile_html bs html = Returns data ->
  let texts :=
    filter (fun b => b <> [])
           (stripped_text <$> select sel_badges (bs html)) in
  (dict_get Field.badges data = None
   <-> Forall (fun e => stripped_text e = []) (select sel_badges (bs html)))
  /\ (dict_get Field.badges data <> None ->
      dict_get Field.badges data = Some (JArr (JStr <$> texts))
      /\ texts <> [])
  /\ Forall (fun b => b <> []) texts.
Proof.
  intros Hrun texts.
  assert (Hget : dict_get Field.badges data
                 = match texts with
                   | [] => None
                   | _ => Some (JArr (JStr <$> texts))
                   end).
  { revert Hrun. unfold parse_profile_html. cbv zeta.
    unfold mbind, mret, outcome_bind, outcome_ret.
    destruct (grab_num _ pat_followers) as [n1|e]; [|done].
    destruct (grab_num _ pat_following) as [n2|e]; [|done].
    destruct (grab_num _ pat_problems) as [n3|e]; [|done].
    destruct (grab_num _ pat_articles) as [n4|e]; [|done].
    intros [= <-]. subst texts.
    destruct (filter _ (stripped_text <$> select sel_badges (bs html)));
      destruct (select_one sel_name (bs html)),
        (select_one sel_about (bs html)),
        (stripped_text <$> select sel_skills (bs html)); reflexivity. }
  pose proof (kept_texts_nil (select sel_badges (bs html))) as Hnil.
  fold texts in Hnil.
  split_and!.
  - rewrite Hget, <- Hnil. by destruct texts.
  - rewrite Hget. by destruct texts.
  - apply Forall_forall. intros x Hx.
    by apply list_elem_of_filter in Hx as [Hx _].
Qed.

Lemma extracted_badges_witness :
  exists data : pydict,
    parse_profile_html (fun _ => Sample2.badge_page) [] = Returns data
    /\ length (select sel_badges Sample2.badge_page) = 2%nat
    /\ dict_get Field.badges data = Some (JArr [JStr (of_string "Gold")]).
Proof.
  eexists. split; [vm_compute; reflexivity|].
  split; [vm_compute; reflexivity|].
  pose proof (extracted_badges (fun _ => Sample2.badge_page) [] _
                ltac:(vm_compute; reflexivity)) as (_ & H & _).
  rewrite (proj1 (H ltac:(vm_compute; discriminate))).
  vm_compute. reflexivity.
Defined.

(** X19: [select_one] gives the first tag of the document, in document
    order, that matches any selector of the group; the order in which the
    group lists its selectors gives no priority. *)
Theorem select_one_first_in_document
    (sel : list complex) (doc : soup) (before after : list element)
    (e : element) :
  all_elements doc = before ++ e :: after ->
  Forall (fun x => matches sel x = false) before ->
  matches sel e = true ->
  select_one sel doc = Some e.
Proof.
  intros Hdoc Hbefore He.
  unfold select_one, select. fold (all_elements doc). rewrite Hdoc.
  rewrite filter_app.
  assert (Hnil : filter (fun x => existsb (fun c => complex_matches c x) sel = true)
                   before = []).
  { clear Hdoc. induction Hbefore as [|x before Hx _ IH]; [done|].
    rewrite filter_cons_False; [exact IH|].
    unfold matches in Hx. by rewrite Hx. }
  rewrite Hnil. cbn [app].
  by rewrite filter_cons_True by exact He.
Qed.

Lemma select_one_first_in_document_witness :
  select_one sel_name Sample2.two_names
  = Some {| el_name := of_string "h1"; el_classes := [];
            el_strings := [of_string "Ann"]; el_ancestors := [] |}.
Proof.
  apply (select_one_first_in_document sel_name Sample2.two_names []
           [{| el_name := of_string "div"; el_classes := [of_string "name"];
               el_strings := [of_string "Bob"]; el_ancestors := [] |}]).
  - vm_compute. reflexivity.
  - constructor.
  - vm_compute. reflexivity.
Defined.

(** ** The span between braces *)

Lemma from_first_inv (c : char) (s t : str) :
  from_first c s = Some t -> exists pre, s = pre ++ c :: t /\ c ∉ pre.
Proof.
  revert t. induction s as [|x s IH]; intros t; [done|]. cbn.
  destruct (N.eqb_spec x c) as [->|Hne].
  - intros [= ->]. exists []. split; [done|]. apply not_elem_of_nil.
  - intros (pre & -> & Hpre)%IH. exists (x :: pre). split; [done|].
    apply not_elem_of_cons. by split; [congruence|].
Qed.

Lemma through_last_inv (c : char) (s r : str) :
  through_last c s = Some r ->
  exists body post, s = body ++ c :: post /\ r = body ++ [c] /\ c ∉ post.
Proof.
  revert r. induction s as [|x s IH]; intros r; [done|]. cbn.
  destruct (through_last c s) as [r'|] eqn:E.
  - intros [= <-]. destruct (IH r' eq_refl) as (body & post & -> & -> & Hpost).
    by exists (x :: body), post.
  - destruct (N.eqb_spec x c) as [->|Hne]; [|done].
    intros [= <-]. exists [], s. split; [done|]. split; [done|].
    intros Hin. revert E. clear IH.
    induction s as [|y s IH]; [by apply elem_of_nil in Hin|].
    cbn. destruct (through_last c s); [done|].
    apply elem_of_cons in Hin as [->|Hin]; [by rewrite N.eqb_refl|].
    destruct (y =? c); [done|]. intros _. by apply IH.
Qed.

(** X20: the span that the fallback search finds is the text from the first
    opening brace to the last closing brace after it, both included; there is
    a span exactly when the text can be cut this way. *)
Theorem brace_search_spec (response m : str) :
  brace_search response = Some m
  <-> exists pre body post : str,
        response = pre ++ (123 :: body ++ [125]) ++ post
        /\ m = 123 :: body ++ [125]
        /\ (123 ∉ pre) /\ (125 ∉ post).
Proof.
  split.
  - unfold brace_search.
    destruct (from_first 123 response) as [t|] eqn:Ht; [|done]. cbn.
    destruct (through_last 125 t) as [r|] eqn:Hr; [|done]. cbn.
    intros [= <-].
    apply from_first_inv in Ht as (pre & -> & Hpre).
    apply through_last_inv in Hr as (body & post & -> & -> & Hpost).
    exists pre, body, post. split; [|done].
    cbn. by rewrite <- app_assoc.
  - intros (pre & body & post & -> & -> & Hpre & Hpost).
    by apply brace_search_plain_prose.
Qed.

(** ** The script *)

(** X21: the script stops at the start-up check exactly when the token is
    unset or empty, and then the disk is as it was: an old output file is
    still there, since no function has run. *)
Theorem script_needs_token
    (getenv : str -> option str) (setup : outcome ()) (W : world) (L : lax)
    (u : str) (d : disk) :
  ((script getenv setup W L u d).1 = MissingToken
   <-> getenv token_name = None \/ getenv token_name = Some [])
  /\ ((script getenv setup W L u d).1 = MissingToken ->
      (script getenv setup W L u d).2 = d).
Proof.
  unfold script.
  destruct (getenv token_name) as [[|c t]|].
  - split; [split; [by right|done]|done].
  - destruct setup as [[]|e].
    + destruct (gfg_to_json W L u default_output_path d) as [[r|e] d'];
        (split; [split; [done|by intros [|]]|done]).
    + split; [split; [done|by intros [|]]|done].
  - split; [split; [by left|done]|done].
Qed.

(** X22: when the script ends with its final [print], the printed text is
    the content of the output file it has just written, and reading it with
    [json.loads] gives back a mapping with the eleven fields of the schema. *)
Theorem script_prints_saved_file
    (getenv : str -> option str) (setup : outcome ()) (W : world) (L : lax)
    (u printed : str) (d d' : disk) :
  lax_well_formed L ->
  script getenv setup W L u d = (Printed printed, d') ->
  d' !! default_output_path = Some (Whole printed)
  /\ exists result : pydict,
       Json.loads printed = Returns (JObj result)
       /\ fst <$> result = Field.all.
Proof.
  intros HL. unfold script.
  destruct (getenv token_name) as [[|c t]|]; [done| |done].
  destruct setup as [[]|e]; [|done].
  destruct (gfg_to_json W L u default_output_path d) as [[r|e] d1] eqn:Hrun;
    [|done].
  intros [= <- <-].
  apply gfg_to_json_returns in Hrun as [Hn ->].
  split; [apply lookup_insert_eq|].
  exists r.
  apply normalize_returns in Hn as (reply & parsed & profile & _ & Hp & Hv & ->).
  split; [|apply to_dict_keys].
  apply loads_dumps, to_dict_well_formed.
  apply parse_response_well_formed in Hp.
  unfold GFGProfile_new in Hv. destruct parsed; try discriminate Hv.
  destruct (validate L m) as [q|] eqn:Hq; [|discriminate Hv].
  injection Hv as ->.
  by apply (validated_raw_well_formed L m).
Qed.

Lemma script_prints_saved_file_witness :
  lax_well_formed exact
  /\ Sample.saved (to_dict Sample.bare) !! default_output_path
     = Some (Whole (Json.dumps Json.indented (JObj (to_dict Sample.bare))))
  /\ exists result : pydict,
       Json.loads (Json.dumps Json.indented (JObj (to_dict Sample.bare)))
       = Returns (JObj result)
       /\ fst <$> result = Field.all.
Proof.
  assert (HL : lax_well_formed exact) by (intros v m; discriminate).
  split; [exact HL|].
  apply (script_prints_saved_file Sample2.with_token (Returns ())
           (Sample.answering Sample.reply_extra) exact Sample.user _ ∅ _ HL).
  vm_compute. reflexivity.
Defined.

(** ** The output file after a run *)

(** X23: after a run the output path is in one of three states, whatever
    was there before: it holds the whole indented text of the returned
    mapping, which UTF-8 can encode, when the run returns; otherwise it is
    absent, or it is an incomplete file and the run raised the encoding
    error of the write. *)
Theorem output_file_after_run
    (W : world) (L : lax) (u p : str) (d : disk) :
  match gfg_to_json W L u p d with
  | (Returns r, d') =>
      d' !! p = Some (Whole (Json.dumps Json.indented (JObj r)))
      /\ utf8_encodable (Json.dumps Json.indented (JObj r)) = true
  | (Raises e, d') =>
      d' !! p = None \/ (e = UnicodeEncodeError /\ d' !! p = Some Partial)
  end.
Proof.
  rewrite gfg_to_json_steps.
  destruct (normalize W L u) as [r|e]; cbv zeta.
  - destruct (utf8_encodable _) eqn:E.
    + split; [apply lookup_insert_eq | exact E].
    + right. split; [done | apply lookup_insert_eq].
  - left. apply lookup_delete_eq.
Qed.

(** ** The texts of tags *)

(** X24: the display name and the about text are present exactly when a
    tag matches their selector, also when that tag has no text; each is the
    stripped text of the first matching tag. *)
Theorem extracted_name_and_about
    (bs : str -> soup) (html : str) (data : pydict) :
  parse_profile_html bs html = Returns data ->
  dict_get Field.display_name data
  = (fun e => JStr (stripped_text e)) <$> select_one sel_name (bs html)
  /\ dict_get Field.about data
     = (fun e => JStr (stripped_text e)) <$> select_one sel_about (bs html).
Proof.
  unfold parse_profile_html. cbv zeta.
  unfold mbind, mret, outcome_bind, outcome_ret.
  destruct (grab_num _ pat_followers) as [n1|e]; [|done].
  destruct (grab_num _ pat_following) as [n2|e]; [|done].
  destruct (grab_num _ pat_problems) as [n3|e]; [|done].
  destruct (grab_num _ pat_articles) as [n4|e]; [|done].
  intros [= <-].
  destruct (select_one sel_name (bs html)), (select_one sel_about (bs html)),
    (filter _ (stripped_text <$> select sel_badges (bs html))),
    (stripped_text <$> select sel_skills (bs html));
    split; reflexivity.
Qed.

Lemma extracted_name_and_about_witness :
  exists data : pydict,
    parse_profile_html (fun _ => Sample2.two_names) [] = Returns data
    /\ dict_get Field.display_name data = Some (JStr (of_string "Ann"))
    /\ dict_get Field.about data = None.
Proof.
  eexists. split; [vm_compute; reflexivity|].
  pose proof (extracted_name_and_about (fun _ => Sample2.two_names) [] _
                ltac:(vm_compute; reflexivity)) as [H1 H2].
  split; [rewrite H1 | rewrite H2]; vm_compute; reflexivity.
Defined.

Lemma lstrip_head (s : str) (c : char) :
  head (Str.lstrip s) = Some c -> Str.isspace c = false.
Proof.
  induction s as [|x s IH]; [done|]. cbn.
  destruct (Str.isspace x) eqn:E; [exact IH|].
  by intros [= <-].
Qed.

Lemma lstrip_last (s : str) :
  Str.lstrip s <> [] -> last (Str.lstrip s) = last s.
Proof.
  induction s as [|x s IH]; [done|]. cbn.
  destruct (Str.isspace x); [|done].
  intros H. rewrite (IH H). destruct s; [done|reflexivity].
Qed.

Lemma head_rev {A} (l : list A) : head (rev l) = last l.
Proof.
  destruct l as [|x l _] using rev_ind; [done|].
  by rewrite rev_unit, last_snoc.
Qed.

Lemma last_rev {A} (l : list A) : last (rev l) = head l.
Proof. by rewrite <- head_rev, rev_involutive. Qed.

Lemma strip_trimmed (s : str) :
  (forall c, head (Str.strip s) = Some c -> Str.isspace c = false)
  /\ (forall c, last (Str.strip s) = Some c -> Str.isspace c = false).
Proof.
  unfold Str.strip. split; intros c.
  - rewrite head_rev.
    destruct (Str.lstrip (rev (Str.lstrip s))) as [|y r] eqn:E; [done|].
    rewrite <- E, lstrip_last by (rewrite E; done).
    rewrite last_rev. apply lstrip_head.
  - rewrite last_rev. apply lstrip_head.
Qed.

Lemma join_trimmed (ps : list str) :
  Forall (fun p => p <> []
            /\ (forall c, head p = Some c -> Str.isspace c = false)
            /\ (forall c, last p = Some c -> Str.isspace c = false)) ps ->
  (ps <> [] -> Str.join [] ps <> [])
  /\ (forall c, head (Str.join [] ps) = Some c -> Str.isspace c = false)
  /\ (forall c, last (Str.join [] ps) = Some c -> Str.isspace c = false).
Proof.
  induction 1 as [|p ps (Hne & Hh & Hl) _ (IH0 & IH1 & IH2)]; [done|].
  destruct ps as [|q ps]; [done|].
  change (Str.join [] (p :: q :: ps)) with (p ++ Str.join [] (q :: ps)).
  split; [|split].
  - intros _. by destruct p.
  - intros c. destruct p; [done|]. apply Hh.
  - intros c. rewrite last_app.
    destruct (last (Str.join [] (q :: ps))) as [y|] eqn:E.
    + intros [= <-]. by apply IH2.
    + apply last_None in E. by destruct IH0.
Qed.

(** X25: the text taken from a tag, as used for the display name, the about
    text, the badges and the skills, neither starts nor ends with a
    whitespace character. *)
Theorem stripped_text_has_no_outer_space (e : element) :
  (forall c, head (stripped_text e) = Some c -> Str.isspace c = false)
  /\ (forall c, last (stripped_text e) = Some c -> Str.isspace c = false).
Proof.
  unfold stripped_text, get_text.
  apply join_trimmed. apply Forall_forall. intros p Hp.
  apply list_elem_of_filter in Hp as [Hne Hp].
  apply list_elem_of_fmap in Hp as (s & -> & _).
  split; [done | apply strip_trimmed].
Qed.

(** ** The text given to the model *)

Lemma closes_number_end (s : str) : closes s -> number_end s.
Proof. destruct s as [|c s]; [done|]. by intros [-> | [-> | ->]]. Qed.

Lemma compact_start (lvl : nat) (v : json) :
  well_formed v = true ->
  exists c t, encode compact lvl v = c :: t /\ value_start c = true.
Proof.
  destruct v as [ |[|]|z|lit|s|[|x l]|[|kv m]]; intros Hwf;
    try (by eexists _, _; split; [reflexivity|reflexivity]).
  - destruct (repr_int_start z) as (c & t & E & Hc).
    exists c, t. split; [exact E|].
    unfold value_start. destruct Hc as [-> | ->]; [done|]. by rewrite !orb_true_r.
  - cbn in Hwf. cbn [encode].
    apply is_float_literal_cases in Hwf as [-> | [-> | [-> | H]]];
      try (by eexists _, _; split; [reflexivity|reflexivity]).
    apply match_number_text in H. destruct lit as [|c t]; [done|].
    exists c, t. split; [done|]. unfold value_start.
    destruct H as [-> | [-> _]]; [by rewrite !orb_true_r | done].
Qed.

Lemma compact_arr (lvl : nat) (x : json) (l : list json) :
  encode compact lvl (JArr (x :: l))
  = 91 :: Str.join comma_space (map (encode compact (S lvl)) (x :: l)) ++ [93].
Proof. reflexivity. Qed.

Lemma compact_obj (lvl : nat) (kv : str * json) (m : pydict) :
  encode compact lvl (JObj (kv :: m))
  = 123 :: Str.join comma_space (map (encode_pair compact (S lvl)) (kv :: m))
        ++ [125].
Proof. reflexivity. Qed.

Lemma compact_items_start (k : nat) (l : list json) :
  l <> [] ->
  Forall (fun x => well_formed x = true) l ->
  exists c t, Str.join comma_space (map (encode compact k) l) = c :: t
              /\ value_start c = true.
Proof.
  destruct l as [|x l]; [done|]. intros _ Hwf.
  destruct (compact_start k x) as (c & t & E & Hc); [by inversion Hwf|].
  destruct l as [|x' l].
  - exists c, t. by split.
  - cbn [map]. rewrite join_cons2, E. eexists _, _. by split.
Qed.

Lemma compact_items (k : nat) (l : list json) :
  Forall (fun x => well_formed x = true /\ reads_back_compact x) l ->
  l <> [] ->
  forall (acc : list json) (rest : str) (f : nat),
    (S (length (Str.join comma_space (map (encode compact k) l))) < f)%nat ->
    items f acc (Str.join comma_space (map (encode compact k) l) ++ 93 :: rest)
    = Some (acc ++ l, rest).
Proof.
  induction 1 as [|x l [Hwf Hx] Hl IH]; [done|]. intros _ acc rest f Hf.
  destruct f as [|f]; [lia|].
  destruct l as [|x' l].
  - cbn [map Str.join] in *. cbn [items].
    rewrite Hx by ((right; by left) || lia).
    cbn [mbind option_bind]. reflexivity.
  - cbn [map] in *. rewrite join_cons2 in *.
    rewrite !length_app in Hf. cbn [length] in Hf.
    pose proof (compact_start k x Hwf) as (c0 & t0 & E0 & _).
    assert (Hlen : (0 < length (encode compact k x))%nat)
      by (rewrite E0; cbn; lia).
    rewrite <- !app_assoc. cbn [app items].
    rewrite Hx by (by left || lia).
    cbn [mbind option_bind].
    rewrite skip_ws_start by reflexivity.
    change (44 =? 93) with false. change (44 =? 44) with true. cbv iota.
    destruct (compact_items_start k (x' :: l)) as (c & t & E & Hc);
      [done | by eapply Forall_impl; [exact Hl|intros ? []] |].
    cbn [map] in E.
    assert (Hskip : forall s,
              skip_ws (32 :: Str.join comma_space
                         (encode compact k x' :: map (encode compact k) l) ++ s)
              = Str.join comma_space
                  (encode compact k x' :: map (encode compact k) l) ++ s).
    { intros s. rewrite E. cbn [app].
      change (skip_ws (32 :: c :: t ++ s)) with (skip_ws (c :: t ++ s)).
      by apply skip_ws_value. }
    rewrite Hskip, IH by (done || lia).
    by rewrite <- app_assoc.
Qed.

Lemma compact_pairs_start (k : nat) (m : pydict) :
  m <> [] ->
  exists t, Str.join comma_space (map (encode_pair compact k) m) = 34 :: t.
Proof.
  destruct m as [|kv [|kv' m]]; [done|by eexists|]. intros _.
  cbn [map]. rewrite join_cons2. by eexists.
Qed.

Lemma compact_pair (k f : nat) (acc : pydict) (key : str) (v : json) (R : str) :
  well_formed v = true ->
  reads_back_compact v ->
  closes R ->
  (length (encode compact k v) < f)%nat ->
  members (S f) acc (encode_pair compact k (key, v) ++ R)
  = match skip_ws R with
    | d :: r3 =>
        if d =? 125 then Some (dict_set key v acc, r3)
        else if d =? 44 then members f (dict_set key v acc) (skip_ws r3)
        else None
    | [] => None
    end.
Proof.
  intros Hwf Hv HR Hf.
  unfold encode_pair, encode_basestring. cbn [fst snd].
  rewrite <- !app_assoc. cbn [app members].
  change (34 =? 34) with true. cbv iota.
  rewrite <- app_assoc. cbn [app].
  rewrite scanstring_encoded. cbn [mbind option_bind].
  rewrite skip_ws_start by reflexivity.
  change (58 =? 58) with true. cbv iota.
  destruct (compact_start k v Hwf) as (c & t & E & Hc).
  assert (Hskip : skip_ws (32 :: encode compact k v ++ R)
                  = encode compact k v ++ R).
  { rewrite E. cbn [app]. change (skip_ws (32 :: c :: t ++ R))
      with (skip_ws (c :: t ++ R)). by apply skip_ws_value. }
  rewrite Hskip, Hv by done.
  reflexivity.
Qed.

Lemma compact_members (k : nat) (m : pydict) :
  Forall (fun kv => well_formed kv.2 = true /\ reads_back_compact kv.2) m ->
  m <> [] ->
  forall (acc : pydict) (rest : str) (f : nat),
    NoDup (fst <$> (acc ++ m)) ->
    (S (length (Str.join comma_space (map (encode_pair compact k) m))) < f)%nat ->
    members f acc
      (Str.join comma_space (map (encode_pair compact k) m) ++ 125 :: rest)
    = Some (acc ++ m, rest).
Proof.
  induction 1 as [|[key v] m [Hwf Hv] Hm IH]; [done|].
  intros _ acc rest f Hdup Hf. cbn [snd] in *.
  destruct f as [|f]; [lia|].
  assert (Hfresh : dict_set key v acc = acc ++ [(key, v)]).
  { apply dict_set_fresh. rewrite fmap_app in Hdup.
    apply NoDup_app in Hdup as (_ & Hdis & _).
    intros Hin. apply (Hdis key Hin). by left. }
  assert (Hlen : (length (encode compact k v)
                  < length (encode_pair compact k (key, v)))%nat).
  { unfold encode_pair. rewrite !length_app. cbn. lia. }
  destruct m as [|kv' m].
  - cbn [map Str.join] in *.
    rewrite compact_pair by (done || (right; by right) || lia).
    cbn. by rewrite Hfresh.
  - cbn [map] in *. rewrite join_cons2 in *.
    rewrite !length_app in Hf. cbn [length] in Hf.
    rewrite <- !app_assoc.
    rewrite compact_pair by (done || (by left) || lia).
    cbn [app]. rewrite skip_ws_start by reflexivity.
    change (44 =? 125) with false. change (44 =? 44) with true. cbv iota.
    destruct (compact_pairs_start k (kv' :: m)) as (t & E); [done|].
    cbn [map] in E.
    assert (Hskip : forall s,
              skip_ws (32 :: Str.join comma_space
                         (encode_pair compact k kv'
                          :: map (encode_pair compact k) m) ++ s)
              = Str.join comma_space
                  (encode_pair compact k kv'
                   :: map (encode_pair compact k) m) ++ s).
    { intros s. rewrite E. cbn [app].
      change (skip_ws (32 :: 34 :: t ++ s)) with (skip_ws (34 :: t ++ s)).
      by apply skip_ws_start. }
    rewrite Hskip, Hfresh, IH; [by rewrite <- app_assoc | done | | lia].
    by rewrite <- app_assoc.
Qed.

Lemma well_formed_reads_back_compact (v : json) :
  well_formed v = true -> reads_back_compact v.
Proof.
  induction v as [ |b|z|lit|s|l IH|m IH] using json_nested_ind;
    intros Hwf lvl rest f Hend Hf; (destruct f as [|f]; [lia|]).
  - reflexivity.
  - by destruct b.
  - apply scan_once_number, match_number_repr_int.
    by apply closes_number_end.
  - cbn [well_formed] in Hwf. cbn [encode].
    apply is_float_literal_cases in Hwf as [-> | [-> | [-> | H]]];
      try reflexivity.
    apply scan_once_number, (match_number_rest lit _ []).
    + by rewrite app_nil_r.
    + by apply closes_number_end.
  - by apply scan_once_string.
  - destruct l as [|x l]; [reflexivity|].
    assert (Hall : Forall (fun x => well_formed x = true /\ reads_back_compact x)
                     (x :: l)).
    { cbn [well_formed] in Hwf. apply forallb_Forall_true in Hwf.
      rewrite Forall_forall in *. intros y Hy. split; [by apply Hwf|].
      apply IH; [done|]. by apply Hwf. }
    rewrite compact_arr in *. cbn [length] in Hf. rewrite !length_app in Hf.
    cbn [app scan_once]. change (91 =? 34) with false.
    change (91 =? 123) with false. change (91 =? 91) with true. cbv iota.
    rewrite <- !app_assoc. cbn [app].
    destruct (compact_items_start (S lvl) (x :: l)) as (c & t & E & Hc);
      [done | by eapply Forall_impl; [exact Hall|intros ? []] |].
    pose proof (compact_items (S lvl) (x :: l) Hall ltac:(done) [] rest f) as Hit.
    rewrite E in *. cbn [app]. rewrite skip_ws_value by done.
    destruct (value_start_facts c Hc) as (_ & Hne & _).
    replace (c =? 93) with false by (symmetry; by apply N.eqb_neq).
    cbn [app] in Hit. rewrite Hit by (cbn [length] in *; lia).
    reflexivity.
  - destruct m as [|kv m]; [reflexivity|].
    cbn [well_formed] in Hwf. apply andb_true_iff in Hwf as [Hdup Hwf].
    apply bool_decide_eq_true in Hdup.
    assert (Hall : Forall (fun kv => well_formed kv.2 = true
                                     /\ reads_back_compact kv.2) (kv :: m)).
    { apply forallb_Forall_true in Hwf.
      rewrite Forall_forall in *. intros y Hy. split; [by apply (Hwf y)|].
      apply IH; [done|]. by apply (Hwf y). }
    rewrite compact_obj in *. cbn [length] in Hf. rewrite !length_app in Hf.
    cbn [app scan_once]. change (123 =? 34) with false.
    change (123 =? 123) with true. cbv iota.
    rewrite <- !app_assoc. cbn [app].
    destruct (compact_pairs_start (S lvl) (kv :: m)) as (t & E); [done|].
    pose proof (compact_members (S lvl) (kv :: m) Hall ltac:(done) [] rest f
                  Hdup) as Hmem.
    rewrite E in *. cbn [app]. rewrite skip_ws_start by reflexivity.
    change (34 =? 125) with false. cbv iota.
    cbn [app] in Hmem. rewrite Hmem by (cbn [length] in *; lia).
    reflexivity.
Qed.

Lemma loads_dumps_compact (v : json) :
  well_formed v = true -> loads (dumps compact v) = Returns v.
Proof.
  intros Hwf. unfold dumps.
  destruct (compact_start 0 v Hwf) as (c & t & E & Hc).
  destruct (value_start_facts c Hc) as (Hws & _ & _ & Hbom).
  assert (Hskip : skip_ws (encode compact 0 v) = encode compact 0 v).
  { rewrite E. by apply skip_ws_start. }
  rewrite loads_no_bom by (intros t'; rewrite E; congruence).
  rewrite Hskip.
  pose proof (well_formed_reads_back_compact v Hwf 0%nat []
                (fuel_for (encode compact 0 v)) I) as H.
  rewrite app_nil_r in H. rewrite H; [done|].
  unfold fuel_for. lia.
Qed.

Lemma extracted_well_formed (bs : str -> soup) (html : str) (raw : pydict) :
  parse_profile_html bs html = Returns raw -> well_formed (JObj raw) = true.
Proof.
  unfold parse_profile_html. cbv zeta.
  unfold mbind, mret, outcome_bind, outcome_ret.
  destruct (grab_num _ pat_followers) as [n1|e]; [|done].
  destruct (grab_num _ pat_following) as [n2|e]; [|done].
  destruct (grab_num _ pat_problems) as [n3|e]; [|done].
  destruct (grab_num _ pat_articles) as [n4|e]; [|done].
  intros [= <-].
  assert (Hint : forall n : option Z, well_formed (json_opt JInt n) = true)
    by (by intros []).
  assert (Harr : forall ss : list str, well_formed (JArr (JStr <$> ss)) = true)
    by (intros ss; apply str_list_well_formed).
  destruct (select_one sel_name (bs html)), (select_one sel_about (bs html)),
    (filter _ (stripped_text <$> select sel_badges (bs html))),
    (stripped_text <$> select sel_skills (bs html));
    repeat (apply dict_set_well_formed; [done || apply Hint || apply Harr|]);
    reflexivity.
Qed.

(** X26: the text that the pipeline hands to the model as the extracted
    data is a JSON text, and reading it with [json.loads] gives the
    extracted data again, with the same keys in the same order. *)
Theorem model_input_decodes (bs : str -> soup) (html : str) (raw : pydict) :
  parse_profile_html bs html = Returns raw ->
  Json.loads (Json.dumps Json.compact (JObj raw)) = Returns (JObj raw).
Proof.
  intros H. by apply loads_dumps_compact, (extracted_well_formed bs html).
Qed.

Lemma model_input_decodes_witness :
  exists raw : pydict,
    parse_profile_html (fun _ => Sample2.badge_page) [] = Returns raw
    /\ Json.loads (Json.dumps Json.compact (JObj raw)) = Returns (JObj raw).
Proof.
  eexists. split; [vm_compute; reflexivity|].
  apply (model_input_decodes (fun _ => Sample2.badge_page) []).
  vm_compute. reflexivity.
Defined.

(** ** Where the user name of the result comes from *)

(** X27: the [username] of the result is the one the reply gives, as the
    validator of [str] reads it; the user name that was asked for is not
    compared with it. *)
Theorem result_username_is_the_replys
    (W : world) (L : lax) (u p : str) (d d' : disk) (r : pydict) :
  gfg_to_json W L u p d = (Returns r, d') ->
  exists (reply : str) (kw : pydict) (v : json) (s : str),
    model_reply W u = Returns reply
    /\ parse_response reply = Returns (JObj kw)
    /\ dict_get Field.username kw = Some v
    /\ val_str L v = Some s
    /\ dict_get Field.username r = Some (JStr s).
Proof.
  intros [Hn _]%gfg_to_json_returns.
  apply normalize_returns in Hn as (reply & parsed & profile & Hr & Hp & Hv & ->).
  unfold GFGProfile_new in Hv. destruct parsed as [ | | | | | |kw]; try discriminate Hv.
  destruct (validate L kw) as [q|] eqn:Hq; [|discriminate Hv].
  injection Hv as ->.
  apply validate_every_field in Hq as (Hu & _).
  destruct (dict_get Field.username kw) as [v|] eqn:Hk; [|discriminate Hu].
  cbn in Hu. by exists reply, kw, v, (username profile).
Qed.

Lemma result_username_is_the_replys_witness :
  Sample2.other_user <> Sample.user
  /\ exists (reply : str) (kw : pydict) (v : json) (s : str),
       model_reply (Sample.answering Sample.reply_extra) Sample2.other_user
       = Returns reply
       /\ parse_response reply = Returns (JObj kw)
       /\ dict_get Field.username kw = Some v
       /\ val_str exact v = Some s
       /\ dict_get Field.username (to_dict Sample.bare) = Some (JStr s).
Proof.
  split; [discriminate|].
  apply (result_username_is_the_replys (Sample.answering Sample.reply_extra)
           exact Sample2.other_user default_output_path ∅
           (Sample.saved (to_dict Sample.bare))).
  vm_compute. reflexivity.
Defined.
